(** * Hyphen Go SDK: the feature-toggle client (pkg/toggle/toggle.go)

    A shallow embedding of the toggle client and the properties of its
    key decoder, endpoint resolver, targeting-key resolver, evaluation
    context builder and evaluator.

    Go strings are byte sequences; they are embedded as [string], one
    [ascii] per byte.  Go's [int] and [uint] values that occur here never
    leave the range of the machine word, so they are embedded as [Z]. *)

From Stdlib Require Import Ascii ZArith Lia.
From Stdlib Require Import Floats.SpecFloat.
From stdpp Require Import gmap strings list pretty.
From coqutil Require Import Z.prove_Zeq_bitwise.

Local Open Scope Z_scope.
Set Warnings "-register-all".

(** ** Strings: the functions of Go's [strings] package the client calls *)

Module strings.

Fixpoint drop (n : nat) (s : string) : string :=
  match n, s with
  | O, _ => s
  | S n', String _ r => drop n' r
  | S _, EmptyString => EmptyString
  end.

(** [s[:n]] *)
Fixpoint take (n : nat) (s : string) : string :=
  match n, s with
  | S n', String c r => String c (take n' r)
  | _, _ => EmptyString
  end.

(** [strings.HasPrefix(s, prefix)]:
    [len(s) >= len(prefix) && s[:len(prefix)] == prefix]. *)
Definition HasPrefix (s prefix : string) : bool :=
  bool_decide (String.length prefix ≤ String.length s)%nat
  && bool_decide (take (String.length prefix) s = prefix).

(** [strings.TrimPrefix(s, prefix)]. *)
Definition TrimPrefix (s prefix : string) : string :=
  if HasPrefix s prefix then drop (String.length prefix) s else s.

(** [strings.HasSuffix(s, suffix)]:
    [len(s) >= len(suffix) && s[len(s)-len(suffix):] == suffix]. *)
Definition HasSuffix (s suffix : string) : bool :=
  bool_decide (String.length suffix ≤ String.length s)%nat
  && bool_decide (drop (String.length s - String.length suffix) s = suffix).

(** [strings.TrimSuffix(s, suffix)]. *)
Definition TrimSuffix (s suffix : string) : string :=
  if HasSuffix s suffix
  then take (String.length s - String.length suffix) s
  else s.

(** [strings.IndexByte(s, c)]: the first position of [c], [None] for -1. *)
Fixpoint IndexByte (s : string) (c : ascii) : option nat :=
  match s with
  | EmptyString => None
  | String a r => if decide (a = c) then Some O else S <$> IndexByte r c
  end.

(** [strings.Count(s, sep)] for a one-byte separator. *)
Fixpoint Count (s : string) (c : ascii) : nat :=
  match s with
  | EmptyString => O
  | String a r => if decide (a = c) then S (Count r c) else Count r c
  end.

(** The loop of [strings.genSplit] for a one-byte separator, the only kind
    the client passes: at most [n] cuts at the next separator, then the
    remainder is the last piece. *)
Fixpoint genSplit (n : nat) (s : string) (sep : ascii) : list string :=
  match n with
  | O => [s]
  | S n' =>
      match IndexByte s sep with
      | None => [s]
      | Some m => take m s :: genSplit n' (drop (S m) s) sep
      end
  end.

(** [strings.Split(s, sep)]: [genSplit] with [Count(s, sep)] cuts. *)
Definition Split (s : string) (sep : ascii) : list string :=
  genSplit (Count s sep) s sep.

(** [strings.Join(elems, sep)]. *)
Fixpoint joinRest (rest : list string) (sep : string) : string :=
  match rest with
  | [] => ""
  | s :: r => sep +:+ s +:+ joinRest r sep
  end.

Definition Join (elems : list string) (sep : string) : string :=
  match elems with
  | [] => ""
  | e :: rest => e +:+ joinRest rest sep
  end.

End strings.

(** ** Base64: Go's [encoding/base64.StdEncoding] *)

Module base64.

(** The value of a byte, and Go's conversion [byte(x)] of an unsigned
    integer, which keeps the low eight bits. *)
Definition byteZ (c : ascii) : Z := Z.of_N (N_of_ascii c).
Definition byte (x : Z) : ascii := ascii_of_N (Z.to_N (Z.land x 255)).

Definition encodeStd : string :=
  "ABCDEFGHIJKLMNOPQRSTUVWXYZabcdefghijklmnopqrstuvwxyz0123456789+/".

Definition padChar : ascii := "="%char.

(** [enc.encode[i]] *)
Definition encodeMap (i : Z) : ascii :=
  default "000"%char (String.get (Z.to_nat i) encodeStd).

(** [enc.decodeMap[c]]: the index of [c] in the alphabet, 0xff for a byte
    outside it. *)
Definition decodeMap (c : ascii) : Z :=
  match strings.IndexByte encodeStd c with
  | Some i => Z.of_nat i
  | None => 255
  end.

Definition isNewline (c : ascii) : bool :=
  bool_decide (c = "010"%char) || bool_decide (c = "013"%char).

Fixpoint skipNewlines (src : string) : string :=
  match src with
  | String c r => if isNewline c then skipNewlines r else src
  | EmptyString => EmptyString
  end.

(** The tail of [decodeQuantum]: the 24-bit value of the (up to four)
    sextets read, of which the first [dlen - 1] bytes are written. *)
Definition quantum (dbuf : list Z) (dlen : nat) : string :=
  let val := Z.lor (Z.lor (Z.lor (Z.shiftl (nth 0 dbuf 0) 18)
                                 (Z.shiftl (nth 1 dbuf 0) 12))
                          (Z.shiftl (nth 2 dbuf 0) 6))
                   (nth 3 dbuf 0) in
  strings.take (dlen - 1)
    (String (byte (Z.shiftr val 16))
       (String (byte (Z.shiftr val 8)) (String (byte val) ""))).

(** [Decode]'s loop over [decodeQuantum], as one recursion on the input:
    [dbuf] holds the sextets of the quantum being read.  [None] stands for
    a [CorruptInputError].  Line feeds and carriage returns are skipped;
    padding is required and may only end the input; the unused low bits of
    a padded quantum are not checked (the encoding is not strict). *)
Fixpoint decode (dbuf : list Z) (src : string) : option string :=
  match src with
  | EmptyString => match dbuf with [] => Some "" | _ => None end
  | String c rest =>
      let out := decodeMap c in
      if decide (out = 255) then
        if isNewline c then decode dbuf rest
        else if decide (c = padChar) then
          match length dbuf with
          | 2%nat =>
              match skipNewlines rest with
              | String c2 rest2 =>
                  if decide (c2 = padChar) then
                    match skipNewlines rest2 with
                    | EmptyString => Some (quantum dbuf 2)
                    | String _ _ => None
                    end
                  else None
              | EmptyString => None
              end
          | 3%nat =>
              match skipNewlines rest with
              | EmptyString => Some (quantum dbuf 3)
              | String _ _ => None
              end
          | _ => None
          end
        else None
      else
        let dbuf' := dbuf ++ [out] in
        if decide (length dbuf' = 4%nat)
        then (λ tl, quantum dbuf' 4 +:+ tl) <$> decode [] rest
        else decode dbuf' rest
  end.

(** [StdEncoding.DecodeString(s)]; the source only looks at the bytes when
    the error is nil. *)
Definition DecodeString (s : string) : option string := decode [] s.

(** [StdEncoding.EncodeToString(src)]: three bytes give four characters;
    a remainder of one or two bytes is padded. *)
Definition sextet (val : Z) (shift : Z) : ascii :=
  encodeMap (Z.land (Z.shiftr val shift) 63).

Fixpoint EncodeToString (src : string) : string :=
  match src with
  | String a (String b (String c rest)) =>
      let val := Z.lor (Z.lor (Z.shiftl (byteZ a) 16) (Z.shiftl (byteZ b) 8))
                       (byteZ c) in
      String (sextet val 18) (String (sextet val 12)
        (String (sextet val 6) (String (sextet val 0)
           (EncodeToString rest))))
  | String a (String b EmptyString) =>
      let val := Z.lor (Z.shiftl (byteZ a) 16) (Z.shiftl (byteZ b) 8) in
      String (sextet val 18) (String (sextet val 12)
        (String (sextet val 6) (String padChar "")))
  | String a EmptyString =>
      let val := Z.shiftl (byteZ a) 16 in
      String (sextet val 18) (String (sextet val 12)
        (String padChar (String padChar "")))
  | EmptyString => ""
  end.

End base64.

(** ** Key decoder and endpoint resolver *)

(** [getOrgIDFromPublicKey]: the empty string is the "not found" result. *)
Definition getOrgIDFromPublicKey (publicKey : string) : string :=
  if negb (strings.HasPrefix publicKey "public_") then ""
  else
    let keyWithoutPrefix := strings.TrimPrefix publicKey "public_" in
    match base64.DecodeString keyWithoutPrefix with
    | None => ""
    | Some decoded =>
        let parts := strings.Split decoded ":"%char in
        match parts with
        | [] => ""
        | p :: _ => p
        end
    end.

(** [getDefaultHorizonURL] *)
Definition getDefaultHorizonURL (publicKey : string) : string :=
  if decide (publicKey = "") then "https://toggle.hyphen.cloud"
  else
    let orgID := getOrgIDFromPublicKey publicKey in
    if decide (orgID = "") then "https://toggle.hyphen.cloud"
    else "https://" +:+ orgID +:+ ".toggle.hyphen.cloud".

(** [getDefaultHorizonURLs] *)
Definition getDefaultHorizonURLs (publicKey : string) : list string :=
  let defaultURL := "https://toggle.hyphen.cloud" in
  if decide (publicKey = "") then [defaultURL]
  else
    let orgURL := getDefaultHorizonURL publicKey in
    if decide (orgURL = defaultURL) then [defaultURL]
    else [orgURL; defaultURL].

(** ** Data model *)

(** A 64-bit floating-point number.  The client only passes such values
    on; it never computes with them. *)
Definition float64 : Type := spec_float.

(** A dynamically typed value ([interface{}]), as [encoding/json] produces
    it and as callers put it into custom attributes. *)
Inductive Value : Type :=
| VNil
| VBool (b : bool)
| VNumber (x : float64)
| VString (s : string)
| VArray (l : list Value)
| VObject (m : gmap string Value).

Definition CustomAttributes : Type := gmap string Value.

(** The type assertions [val.(bool)], [val.(string)], [val.(float64)] and
    [val.(map[string]interface{})]: [None] when [ok] is false. *)
Definition assertBool (val : Value) : option bool :=
  match val with VBool b => Some b | _ => None end.

Definition assertString (val : Value) : option string :=
  match val with VString s => Some s | _ => None end.

Definition assertFloat64 (val : Value) : option float64 :=
  match val with VNumber x => Some x | _ => None end.

Definition assertObject (val : Value) : option (gmap string Value) :=
  match val with VObject m => Some m | _ => None end.

Record User := {
  ID : string;
  Email : string;
  Name : string;
  UserCustomAttributes : CustomAttributes;
}.

(** The evaluation context a caller supplies; [*User] is [option User]. *)
Record Context := {
  TargetingKey : string;
  IPAddress : string;
  CtxCustomAttributes : CustomAttributes;
  CtxUser : option User;
}.

Record Evaluation := {
  Key : string;
  EvalValue : Value;
  Type_ : string;
  Reason : Value;
  ErrorMessage : string;
}.

Record EvaluationResponse := {
  Toggles : gmap string Evaluation;
}.

(** The request sent to the service. *)
Record toggleEvaluation := {
  reqApplication : string;
  reqEnvironment : string;
  reqTargetingKey : string;
  reqIPAddress : string;
  reqCustomAttributes : CustomAttributes;
  reqUser : option User;
}.

Record Options := {
  PublicAPIKey : string;
  ApplicationID : string;
  Environment : string;
  DefaultContext : option Context;
  HorizonURLs : list string;
  DefaultTargetingKey : string;
}.

(** [&Options{}] *)
Definition emptyOptions : Options :=
  {| PublicAPIKey := ""; ApplicationID := ""; Environment := "";
     DefaultContext := None; HorizonURLs := []; DefaultTargetingKey := "" |}.

Definition Option : Type := Options → Options.

Definition WithPublicAPIKey (key : string) : Option := λ o,
  {| PublicAPIKey := key; ApplicationID := ApplicationID o;
     Environment := Environment o; DefaultContext := DefaultContext o;
     HorizonURLs := HorizonURLs o;
     DefaultTargetingKey := DefaultTargetingKey o |}.

Definition WithApplicationID (id : string) : Option := λ o,
  {| PublicAPIKey := PublicAPIKey o; ApplicationID := id;
     Environment := Environment o; DefaultContext := DefaultContext o;
     HorizonURLs := HorizonURLs o;
     DefaultTargetingKey := DefaultTargetingKey o |}.

Definition WithEnvironment (env : string) : Option := λ o,
  {| PublicAPIKey := PublicAPIKey o; ApplicationID := ApplicationID o;
     Environment := env; DefaultContext := DefaultContext o;
     HorizonURLs := HorizonURLs o;
     DefaultTargetingKey := DefaultTargetingKey o |}.

Definition WithDefaultContext (ctx : option Context) : Option := λ o,
  {| PublicAPIKey := PublicAPIKey o; ApplicationID := ApplicationID o;
     Environment := Environment o; DefaultContext := ctx;
     HorizonURLs := HorizonURLs o;
     DefaultTargetingKey := DefaultTargetingKey o |}.

Definition WithHorizonURLs (urls : list string) : Option := λ o,
  {| PublicAPIKey := PublicAPIKey o; ApplicationID := ApplicationID o;
     Environment := Environment o; DefaultContext := DefaultContext o;
     HorizonURLs := urls;
     DefaultTargetingKey := DefaultTargetingKey o |}.

Definition WithDefaultTargetingKey (key : string) : Option := λ o,
  {| PublicAPIKey := PublicAPIKey o; ApplicationID := ApplicationID o;
     Environment := Environment o; DefaultContext := DefaultContext o;
     HorizonURLs := HorizonURLs o;
     DefaultTargetingKey := key |}.

(** ** Errors *)

(** Go error values: a leaf error with its message, the two sentinel errors
    of package [context], and an error that [fmt.Errorf] built with one
    [%w] verb, which keeps the wrapped error (possibly nil). *)
Inductive error : Type :=
| errorString (s : string)
| context_Canceled
| context_DeadlineExceeded
| wrapError (msg : string) (err : option error).

(** [err.Error()] *)
Definition Error (e : error) : string :=
  match e with
  | errorString s => s
  | context_Canceled => "context canceled"
  | context_DeadlineExceeded => "context deadline exceeded"
  | wrapError msg _ => msg
  end.

(** [errors.Unwrap(err)] *)
Definition Unwrap (e : error) : option error :=
  match e with
  | wrapError _ err => err
  | _ => None
  end.

Global Instance error_eq_dec : EqDecision error.
Proof.
  refine (fix go (x y : error) : Decision (x = y) :=
    match x, y with
    | errorString s1, errorString s2 => cast_if (decide (s1 = s2))
    | context_Canceled, context_Canceled => left _
    | context_DeadlineExceeded, context_DeadlineExceeded => left _
    | wrapError m1 None, wrapError m2 None => cast_if (decide (m1 = m2))
    | wrapError m1 (Some e1), wrapError m2 (Some e2) =>
        cast_if_and (decide (m1 = m2)) (go e1 e2)
    | _, _ => right _
    end); abstract congruence.
Defined.

(** [errors.Is(err, target)] along the chain of wrapped errors. *)
Fixpoint errors_Is (e target : error) : bool :=
  bool_decide (e = target)
  || match e with
     | wrapError _ (Some inner) => errors_Is inner target
     | _ => false
     end.

(** What the [%w] verb prints. *)
Definition verb_w (err : option error) : string :=
  match err with
  | Some e => Error e
  | None => "%!w(<nil>)"
  end.

(** ** The HTTP client (internal/client/client.go) *)

(** A [context.Context], known by a handle; the runtime decides when it is
    done. *)
Definition context_Context : Type := nat.

(** [client.Client]: the timeout of its [http.Client], in seconds, and the
    base URL. *)
Record Client := {
  httpTimeout : Z;
  baseURL : string;
}.

Definition NewClient (base : string) : Client :=
  {| httpTimeout := 30; baseURL := base |}.

(** An [http.Request] as [do] builds it. *)
Record Request := {
  reqCtx : context_Context;
  reqMethod : string;
  reqURL : string;
  reqBody : option string;
  reqHeader : gmap string string;
}.

(** What [httpClient.Do] hands back: the status line, the headers, and the
    outcome of reading the body to its end with [io.ReadAll]. *)
Record http_Response := {
  rawStatusCode : Z;
  rawStatus : string;
  rawHeader : gmap string (list string);
  rawBody : error + string;
}.

(** [client.Response] *)
Record Response := {
  StatusCode : Z;
  Status : string;
  Headers : gmap string (list string);
  Body : string;
}.

(** [client.CreateHeaders] *)
Definition CreateHeaders (apiKey : string) : gmap string string :=
  let headers : gmap string string :=
    <["Accept" := "application/json"]>
      (<["Content-Type" := "application/json"]> ∅) in
  if decide (apiKey = "") then headers
  else <["x-api-key" := apiKey]> headers.

(** What is observed of a run of the client: the requests it asks the HTTP
    client for and the errors it hands to the error handler, in order. *)
Inductive event : Type :=
| Requested (method url : string)
| Notified (err : error).

(** ** The runtime the client runs against

    The process environment, the random source of [math/rand], the JSON
    codec and the network are outside the repository.  They are taken as an
    interface; every property below holds for every implementation. *)
Class Runtime := {
  World : Type;
  os_Getenv : string → World → string;
  rand_Int63 : World → Z * World;
  json_Marshal : toggleEvaluation → error + string;
  json_Unmarshal : string → error + EvaluationResponse;
  http_NewRequestWithContext :
    context_Context → string → string → option string → option error;
  httpClient_Do : Client → Request → World → (error + http_Response) * World;
}.

Section Monad.
Context `{RT : Runtime}.

(** The state of a run: the world and the events observed so far. *)
Record Sys := {
  world : World;
  trace : list event;
}.

(** Stateful computations. *)
Definition M (A : Type) : Type := Sys → A * Sys.

Definition ret {A} (a : A) : M A := λ s, (a, s).

Definition bind {A B} (m : M A) (k : A → M B) : M B :=
  λ s, let '(a, s') := m s in k a s'.

Definition liftWorld {A} (f : World → A * World) : M A :=
  λ s, let '(a, w) := f (world s) in (a, {| world := w; trace := trace s |}).

Definition readWorld {A} (f : World → A) : M A :=
  λ s, (f (world s), s).

Definition emit (e : event) : M unit :=
  λ s, (tt, {| world := world s; trace := trace s ++ [e] |}).

End Monad.

Notation "'let!' x ':=' m 'in' k" := (bind m (λ x, k))
  (at level 10, x name, m at level 100, k at level 200, only parsing).
Notation "'let!' ' p ':=' m 'in' k" := (bind m (λ x, let p := x in k))
  (at level 10, p strict pattern, m at level 100, k at level 200,
   only parsing).

(** ** The client *)

Section Client.
Context `{RT : Runtime}.

(** [fmt.Errorf(prefix + "%w", err)] *)
Definition Errorf_w (prefix : string) (err : option error) : error :=
  wrapError (prefix +:+ verb_w err) err.

(** [Client.do].  Header names are kept as written; custom headers
    replace the defaults of the same name.  The trace of the run records
    the call. *)
Definition do (c : Client) (ctx : context_Context) (method url : string)
    (body : option toggleEvaluation) (headers : gmap string string)
    : M (error + Response) :=
  let! _ := emit (Requested method url) in
  let marshalled : error + option string :=
    match body with
    | Some b =>
        match json_Marshal b with
        | inl err => inl err
        | inr jsonData => inr (Some jsonData)
        end
    | None => inr None
    end in
  match marshalled with
  | inl err => ret (inl (Errorf_w "failed to marshal request body: " (Some err)))
  | inr reqBody_ =>
      match http_NewRequestWithContext ctx method url reqBody_ with
      | Some err => ret (inl (Errorf_w "failed to create request: " (Some err)))
      | None =>
          let req :=
            {| reqCtx := ctx; reqMethod := method; reqURL := url;
               reqBody := reqBody_;
               reqHeader :=
                 headers ∪ <["Accept" := "application/json"]>
                             (<["Content-Type" := "application/json"]> ∅) |} in
          let! r := liftWorld (httpClient_Do c req) in
          match r with
          | inl err => ret (inl (Errorf_w "request failed: " (Some err)))
          | inr resp =>
              match rawBody resp with
              | inl err =>
                  ret (inl (Errorf_w "failed to read response body: " (Some err)))
              | inr respBody =>
                  ret (inr {| StatusCode := rawStatusCode resp;
                              Status := rawStatus resp;
                              Headers := rawHeader resp;
                              Body := respBody |})
              end
          end
      end
  end.

(** [Client.Post] *)
Definition Post (c : Client) (ctx : context_Context) (url : string)
    (body : toggleEvaluation) (headers : gmap string string)
    : M (error + Response) :=
  do c ctx "POST" url (Some body) headers.

(** [Toggle]: the error handler is a callback that acts on the world. *)
Record Toggle := {
  publicAPIKey : string;
  organizationID : string;
  applicationID : string;
  environment : string;
  horizonURLs : list string;
  defaultContext : option Context;
  defaultTargetingKey : string;
  client : Client;
  errorHandler : option (error → World → World);
}.

(** [generateTargetKey] *)
Definition generateTargetKey (applicationID_ environment_ : string)
    : M string :=
  let! r := liftWorld rand_Int63 in
  let randomSuffix : string := pretty r in
  let components : list string := [] in
  let components :=
    if decide (applicationID_ = "") then components
    else components ++ [applicationID_] in
  let components :=
    if decide (environment_ = "") then components
    else components ++ [environment_] in
  let components := components ++ [randomSuffix] in
  ret (strings.Join components "-").

(** [getTargetingKey] *)
Definition getTargetingKey (ctx : Context)
    (applicationID_ environment_ : string) : M string :=
  if decide (TargetingKey ctx = "") then
    match CtxUser ctx with
    | Some u =>
        if decide (ID u = "")
        then generateTargetKey applicationID_ environment_
        else ret (ID u)
    | None => generateTargetKey applicationID_ environment_
    end
  else ret (TargetingKey ctx).

(** The loop of [New] that applies the options to [&Options{}]. *)
Definition applyOptions (options : list Option) : Options :=
  fold_left (λ o (opt : Option), opt o) options emptyOptions.

(** [New] *)
Definition New (options : list Option) : M (Toggle * option error) :=
  let opts := applyOptions options in
  let! publicAPIKey_ :=
    (if decide (PublicAPIKey opts = "")
     then readWorld (os_Getenv "HYPHEN_PUBLIC_API_KEY")
     else ret (PublicAPIKey opts)) in
  let! applicationID_ :=
    (if decide (ApplicationID opts = "")
     then readWorld (os_Getenv "HYPHEN_APPLICATION_ID")
     else ret (ApplicationID opts)) in
  let environment_ :=
    if decide (Environment opts = "") then "development"
    else Environment opts in
  let organizationID_ :=
    if decide (publicAPIKey_ = "") then ""
    else getOrgIDFromPublicKey publicAPIKey_ in
  let horizonURLs_ :=
    if decide (length (HorizonURLs opts) = 0%nat)
    then getDefaultHorizonURLs publicAPIKey_
    else HorizonURLs opts in
  let! defaultTargetingKey_ :=
    (if decide (DefaultTargetingKey opts = "") then
       match DefaultContext opts with
       | Some dctx => getTargetingKey dctx applicationID_ environment_
       | None => generateTargetKey applicationID_ environment_
       end
     else ret (DefaultTargetingKey opts)) in
  ret ({| publicAPIKey := publicAPIKey_;
          organizationID := organizationID_;
          applicationID := applicationID_;
          environment := environment_;
          horizonURLs := horizonURLs_;
          defaultContext := DefaultContext opts;
          defaultTargetingKey := defaultTargetingKey_;
          client := NewClient "";
          errorHandler := None |}, None).

(** [SetErrorHandler] *)
Definition SetErrorHandler (t : Toggle)
    (handler : option (error → World → World)) : Toggle :=
  {| publicAPIKey := publicAPIKey t;
     organizationID := organizationID t;
     applicationID := applicationID t;
     environment := environment t;
     horizonURLs := horizonURLs t;
     defaultContext := defaultContext t;
     defaultTargetingKey := defaultTargetingKey t;
     client := client t;
     errorHandler := handler |}.

(** [emitError] *)
Definition emitError (t : Toggle) (err : error) : M unit :=
  match errorHandler t with
  | Some handler =>
      let! _ := emit (Notified err) in
      liftWorld (λ w, (tt, handler err w))
  | None => ret tt
  end.

(** [buildEvaluationContext] *)
Definition buildEvaluationContext (t : Toggle)
    (contextOverride : option Context) : M toggleEvaluation :=
  let ctx :=
    match contextOverride with
    | Some c => Some c
    | None => defaultContext t
    end in
  let eval :=
    match ctx with
    | Some c =>
        {| reqApplication := applicationID t;
           reqEnvironment := environment t;
           reqTargetingKey := TargetingKey c;
           reqIPAddress := IPAddress c;
           reqCustomAttributes := CtxCustomAttributes c;
           reqUser := CtxUser c |}
    | None =>
        {| reqApplication := applicationID t;
           reqEnvironment := environment t;
           reqTargetingKey := "";
           reqIPAddress := "";
           reqCustomAttributes := ∅;
           reqUser := None |}
    end in
  if decide (reqTargetingKey eval = "") then
    let! key :=
      match ctx with
      | Some c => getTargetingKey c (applicationID t) (environment t)
      | None => ret (defaultTargetingKey t)
      end in
    ret {| reqApplication := reqApplication eval;
           reqEnvironment := reqEnvironment eval;
           reqTargetingKey := key;
           reqIPAddress := reqIPAddress eval;
           reqCustomAttributes := reqCustomAttributes eval;
           reqUser := reqUser eval |}
  else ret eval.

(** [fmt.Sprintf("%s/toggle/evaluate", strings.TrimSuffix(baseURL, "/"))] *)
Definition evaluateURL (baseURL_ : string) : string :=
  strings.TrimSuffix baseURL_ "/" +:+ "/toggle/evaluate".

(** The loop of [Get] over the endpoints that are left, with the error of
    the last failed attempt; when none is left, the code after the loop. *)
Fixpoint tryHorizonURLs (t : Toggle) (ctx : context_Context)
    (toggleKey : string) (defaultValue : Value)
    (evalContext : toggleEvaluation) (headers : gmap string string)
    (urls : list string) (lastErr : option error)
    : M (Value * option error) :=
  match urls with
  | [] =>
      let err := Errorf_w "all horizon URLs failed. Last error: " lastErr in
      let! _ := emitError t err in
      ret (defaultValue, Some err)
  | baseURL_ :: rest =>
      let url := evaluateURL baseURL_ in
      let! r := Post (client t) ctx url evalContext headers in
      match r with
      | inl err =>
          tryHorizonURLs t ctx toggleKey defaultValue evalContext headers rest
            (Some (wrapError ("request to " +:+ baseURL_ +:+ " failed: "
                              +:+ Error err) (Some err)))
      | inr resp =>
          if decide (StatusCode resp = 200) then
            match json_Unmarshal (Body resp) with
            | inl err =>
                tryHorizonURLs t ctx toggleKey defaultValue evalContext
                  headers rest
                  (Some (Errorf_w "failed to unmarshal response: " (Some err)))
            | inr evalResp =>
                match Toggles evalResp !! toggleKey with
                | Some toggle => ret (EvalValue toggle, None)
                | None => ret (defaultValue, None)
                end
            end
          else
            tryHorizonURLs t ctx toggleKey defaultValue evalContext headers
              rest
              (Some (errorString ("HTTP " +:+ pretty (StatusCode resp)
                                  +:+ ": " +:+ Status resp)))
      end
  end.

(** [Get] *)
Definition Get (t : Toggle) (ctx : context_Context) (toggleKey : string)
    (defaultValue : Value) (contextOverride : option Context)
    : M (Value * option error) :=
  let! evalContext := buildEvaluationContext t contextOverride in
  let headers := CreateHeaders (publicAPIKey t) in
  tryHorizonURLs t ctx toggleKey defaultValue evalContext headers
    (horizonURLs t) None.

(** [GetBoolean] *)
Definition GetBoolean (t : Toggle) (ctx : context_Context)
    (toggleKey : string) (defaultValue : bool)
    (contextOverride : option Context) : M bool :=
  let! '(val, err) := Get t ctx toggleKey (VBool defaultValue) contextOverride in
  match err with
  | Some _ => ret defaultValue
  | None =>
      match assertBool val with
      | Some boolVal => ret boolVal
      | None => ret defaultValue
      end
  end.

(** [GetString] *)
Definition GetString (t : Toggle) (ctx : context_Context)
    (toggleKey : string) (defaultValue : string)
    (contextOverride : option Context) : M string :=
  let! '(val, err) := Get t ctx toggleKey (VString defaultValue) contextOverride in
  match err with
  | Some _ => ret defaultValue
  | None =>
      match assertString val with
      | Some strVal => ret strVal
      | None => ret defaultValue
      end
  end.

(** [GetNumber] *)
Definition GetNumber (t : Toggle) (ctx : context_Context)
    (toggleKey : string) (defaultValue : float64)
    (contextOverride : option Context) : M float64 :=
  let! '(val, err) := Get t ctx toggleKey (VNumber defaultValue) contextOverride in
  match err with
  | Some _ => ret defaultValue
  | None =>
      match assertFloat64 val with
      | Some numVal => ret numVal
      | None => ret defaultValue
      end
  end.

(** [GetObject] *)
Definition GetObject (t : Toggle) (ctx : context_Context)
    (toggleKey : string) (defaultValue : gmap string Value)
    (contextOverride : option Context) : M (gmap string Value) :=
  let! '(val, err) := Get t ctx toggleKey (VObject defaultValue) contextOverride in
  match err with
  | Some _ => ret defaultValue
  | None =>
      match assertObject val with
      | Some objVal => ret objVal
      | None => ret defaultValue
      end
  end.

End Client.

(** ** The other verbs of the HTTP client *)

Section Verbs.
Context `{RT : Runtime}.

(** [Client.do] for a body of any type, with the encoder [json.Marshal]
    uses for that type. *)
Definition doWith {B : Type} (marshal : B → error + string)
    (c : Client) (ctx : context_Context) (method url : string)
    (body : option B) (headers : gmap string string)
    : M (error + Response) :=
  let! _ := emit (Requested method url) in
  let marshalled : error + option string :=
    match body with
    | Some b =>
        match marshal b with
        | inl err => inl err
        | inr jsonData => inr (Some jsonData)
        end
    | None => inr None
    end in
  match marshalled with
  | inl err => ret (inl (Errorf_w "failed to marshal request body: " (Some err)))
  | inr reqBody_ =>
      match http_NewRequestWithContext ctx method url reqBody_ with
      | Some err => ret (inl (Errorf_w "failed to create request: " (Some err)))
      | None =>
          let req :=
            {| reqCtx := ctx; reqMethod := method; reqURL := url;
               reqBody := reqBody_;
               reqHeader :=
                 headers ∪ <["Accept" := "application/json"]>
                             (<["Content-Type" := "application/json"]> ∅) |} in
          let! r := liftWorld (httpClient_Do c req) in
          match r with
          | inl err => ret (inl (Errorf_w "request failed: " (Some err)))
          | inr resp =>
              match rawBody resp with
              | inl err =>
                  ret (inl (Errorf_w "failed to read response body: " (Some err)))
              | inr respBody =>
                  ret (inr {| StatusCode := rawStatusCode resp;
                              Status := rawStatus resp;
                              Headers := rawHeader resp;
                              Body := respBody |})
              end
          end
      end
  end.

(** [Client.Get] and [Client.Delete]: no body. *)
Definition Client_Get (c : Client) (ctx : context_Context) (url : string)
    (headers : gmap string string) : M (error + Response) :=
  doWith json_Marshal c ctx "GET" url None headers.

Definition Client_Delete (c : Client) (ctx : context_Context) (url : string)
    (headers : gmap string string) : M (error + Response) :=
  doWith json_Marshal c ctx "DELETE" url None headers.

(** [Client.Post], [Client.Put] and [Client.Patch] for a body of any type. *)
Definition Client_PostWith {B : Type} (marshal : B → error + string)
    (c : Client) (ctx : context_Context) (url : string) (body : B)
    (headers : gmap string string) : M (error + Response) :=
  doWith marshal c ctx "POST" url (Some body) headers.

Definition Client_PutWith {B : Type} (marshal : B → error + string)
    (c : Client) (ctx : context_Context) (url : string) (body : B)
    (headers : gmap string string) : M (error + Response) :=
  doWith marshal c ctx "PUT" url (Some body) headers.

Definition Client_PatchWith {B : Type} (marshal : B → error + string)
    (c : Client) (ctx : context_Context) (url : string) (body : B)
    (headers : gmap string string) : M (error + Response) :=
  doWith marshal c ctx "PATCH" url (Some body) headers.

End Verbs.

(** ** Reference definitions the properties are stated against *)

(** The text of [s] before its first [sep]; all of [s] when it has none. *)
Fixpoint textBefore (sep : ascii) (s : string) : string :=
  match s with
  | EmptyString => ""
  | String c r => if decide (c = sep) then "" else String c (textBefore sep r)
  end.

(** The non-empty members of a list of strings, joined by [sep]. *)
Definition joinNonEmpty (sep : string) (members : list string) : string :=
  strings.Join (filter (λ s, s ≠ "") members) sep.

(** The number of times the error handler was called in a trace. *)
Fixpoint notifications (tr : list event) : nat :=
  match tr with
  | [] => 0
  | Notified _ :: r => S (notifications r)
  | Requested _ _ :: r => notifications r
  end.

(** The URLs of the requests of a trace, in order. *)
Fixpoint requests (tr : list event) : list string :=
  match tr with
  | [] => []
  | Requested _ url :: r => url :: requests r
  | Notified _ :: r => requests r
  end.

Section Outcomes.
Context `{RT : Runtime}.

(** The three ways one attempt at an endpoint fails, with the error the
    evaluator records for it and the state the attempt leaves. *)
Inductive AttemptFails (c : Client) (ctx : context_Context)
    (req : toggleEvaluation) (headers : gmap string string)
    (baseURL_ : string) (s : Sys) : error → Sys → Prop :=
| TransportFailure err s' :
    Post c ctx (evaluateURL baseURL_) req headers s = (inl err, s') →
    AttemptFails c ctx req headers baseURL_ s
      (wrapError ("request to " +:+ baseURL_ +:+ " failed: " +:+ Error err)
                 (Some err)) s'
| UnexpectedStatus resp s' :
    Post c ctx (evaluateURL baseURL_) req headers s = (inr resp, s') →
    StatusCode resp ≠ 200 →
    AttemptFails c ctx req headers baseURL_ s
      (errorString ("HTTP " +:+ pretty (StatusCode resp) +:+ ": "
                    +:+ Status resp)) s'
| MalformedResponse resp err s' :
    Post c ctx (evaluateURL baseURL_) req headers s = (inr resp, s') →
    StatusCode resp = 200 →
    json_Unmarshal (Body resp) = inl err →
    AttemptFails c ctx req headers baseURL_ s
      (Errorf_w "failed to unmarshal response: " (Some err)) s'.

(** An attempt succeeds: status 200 and a body that parses. *)
Definition AttemptSucceeds (c : Client) (ctx : context_Context)
    (req : toggleEvaluation) (headers : gmap string string)
    (baseURL_ : string) (s : Sys) (evalResp : EvaluationResponse) (s' : Sys)
    : Prop :=
  ∃ resp, Post c ctx (evaluateURL baseURL_) req headers s = (inr resp, s')
          ∧ StatusCode resp = 200
          ∧ json_Unmarshal (Body resp) = inr evalResp.

(** Every endpoint of a list fails, one after the other: from state [s] and
    last error [last] to state [s'] and last error [last']. *)
Inductive FailsThrough (c : Client) (ctx : context_Context)
    (req : toggleEvaluation) (headers : gmap string string)
    : list string → Sys → option error → Sys → option error → Prop :=
| FailsThrough_nil s last :
    FailsThrough c ctx req headers [] s last s last
| FailsThrough_cons u us s last err s1 s' last' :
    AttemptFails c ctx req headers u s err s1 →
    FailsThrough c ctx req headers us s1 (Some err) s' last' →
    FailsThrough c ctx req headers (u :: us) s last s' last'.

(** What the typed accessors promise, for an accessor [get] whose type
    assertion is [assert]: when some endpoint answers after all before it
    failed, the flag's value if the response has the key and the value has
    the accessor's type, and the caller's default if the key is absent or the
    value has another type; the caller's default when all endpoints fail; in
    every case one of the two, and never an error. *)
Definition accessor_contract {A : Type}
    (get : Toggle → context_Context → string → A → option Context → M A)
    (assert : Value → option A) : Prop :=
  ∀ (t : Toggle) (ctx : context_Context) (toggleKey : string)
    (defaultValue : A) (override : option Context) (s : Sys)
    (req : toggleEvaluation) (s0 : Sys),
    buildEvaluationContext t override s = (req, s0) →
    let headers := CreateHeaders (publicAPIKey t) in
    (∀ pre u post s1 last1 evalResp s2,
       horizonURLs t = pre ++ u :: post →
       FailsThrough (client t) ctx req headers pre s0 None s1 last1 →
       AttemptSucceeds (client t) ctx req headers u s1 evalResp s2 →
       (∀ toggle a,
          Toggles evalResp !! toggleKey = Some toggle →
          assert (EvalValue toggle) = Some a →
          get t ctx toggleKey defaultValue override s = (a, s2))
       ∧ (∀ toggle,
            Toggles evalResp !! toggleKey = Some toggle →
            assert (EvalValue toggle) = None →
            get t ctx toggleKey defaultValue override s = (defaultValue, s2))
       ∧ (Toggles evalResp !! toggleKey = None →
          get t ctx toggleKey defaultValue override s = (defaultValue, s2)))
    ∧ (∀ s1 last1,
         FailsThrough (client t) ctx req headers (horizonURLs t) s0 None s1 last1 →
         (get t ctx toggleKey defaultValue override s).1 = defaultValue)
    ∧ ((get t ctx toggleKey defaultValue override s).1 = defaultValue
       ∨ ∃ pre u post s1 last1 evalResp s2 toggle,
           horizonURLs t = pre ++ u :: post
           ∧ FailsThrough (client t) ctx req headers pre s0 None s1 last1
           ∧ AttemptSucceeds (client t) ctx req headers u s1 evalResp s2
           ∧ Toggles evalResp !! toggleKey = Some toggle
           ∧ assert (EvalValue toggle)
             = Some (get t ctx toggleKey defaultValue override s).1).

(** The same promise in the words of the values: the accessor's type is the
    type of the values [inj a], so that a value has the accessor's type when
    it is [inj a] for some [a], which the accessor then returns, and has
    another type when it is [inj a] for no [a]. *)
Definition typed_accessor_contract {A : Type}
    (get : Toggle → context_Context → string → A → option Context → M A)
    (inj : A → Value) : Prop :=
  ∀ (t : Toggle) (ctx : context_Context) (toggleKey : string)
    (defaultValue : A) (override : option Context) (s : Sys)
    (req : toggleEvaluation) (s0 : Sys),
    buildEvaluationContext t override s = (req, s0) →
    let headers := CreateHeaders (publicAPIKey t) in
    (∀ pre u post s1 last1 evalResp s2,
       horizonURLs t = pre ++ u :: post →
       FailsThrough (client t) ctx req headers pre s0 None s1 last1 →
       AttemptSucceeds (client t) ctx req headers u s1 evalResp s2 →
       (∀ toggle a,
          Toggles evalResp !! toggleKey = Some toggle →
          EvalValue toggle = inj a →
          get t ctx toggleKey defaultValue override s = (a, s2))
       ∧ (∀ toggle,
            Toggles evalResp !! toggleKey = Some toggle →
            (∀ a, EvalValue toggle ≠ inj a) →
            get t ctx toggleKey defaultValue override s = (defaultValue, s2))
       ∧ (Toggles evalResp !! toggleKey = None →
          get t ctx toggleKey defaultValue override s = (defaultValue, s2)))
    ∧ (∀ s1 last1,
         FailsThrough (client t) ctx req headers (horizonURLs t) s0 None s1 last1 →
         (get t ctx toggleKey defaultValue override s).1 = defaultValue)
    ∧ ((get t ctx toggleKey defaultValue override s).1 = defaultValue
       ∨ ∃ pre u post s1 last1 evalResp s2 toggle,
           horizonURLs t = pre ++ u :: post
           ∧ FailsThrough (client t) ctx req headers pre s0 None s1 last1
           ∧ AttemptSucceeds (client t) ctx req headers u s1 evalResp s2
           ∧ Toggles evalResp !! toggleKey = Some toggle
           ∧ EvalValue toggle
             = inj (get t ctx toggleKey defaultValue override s).1).

(** The state in which [emitError] leaves the run. *)
Definition notified (t : Toggle) (err : error) (s : Sys) : Sys :=
  match errorHandler t with
  | Some handler =>
      {| world := handler err (world s); trace := trace s ++ [Notified err] |}
  | None => s
  end.

End Outcomes.

(** The statement that a cancelled calling context ends the call at the
    endpoint being tried: when the attempt at the first endpoint fails with
    [context.Canceled], an error is returned and [Post] is called for no
    later endpoint. *)
Definition cancellation_stops_the_loop : Prop :=
  ∀ (RT : Runtime) (t : Toggle) (ctx : context_Context) (toggleKey : string)
    (defaultValue : Value) (req : toggleEvaluation)
    (headers : gmap string string) (u : string) (rest : list string)
    (last : option error) (s s1 : Sys) (err : error),
    Post (client t) ctx (evaluateURL u) req headers s = (inl err, s1) →
    errors_Is err context_Canceled = true →
    let '(_, oerr, s') :=
      tryHorizonURLs t ctx toggleKey defaultValue req headers (u :: rest) last s in
    is_Some oerr ∧ requests (trace s') = requests (trace s) ++ [evaluateURL u].

(** ** A scripted runtime for the examples

    The network answers from a script, one entry per request, and refuses
    the connection once the script is used up.  The environment is empty,
    the random source is constant, and a body parses when it is one of two
    fixed texts. *)
Definition scripted_Do (c : Client) (req : Request)
    (w : list (error + http_Response))
    : (error + http_Response) * list (error + http_Response) :=
  match w with
  | r :: w' => (r, w')
  | [] => (inl (errorString "connection refused"), [])
  end.

Definition flagEntry (v : Value) (ty : string) : Evaluation :=
  {| Key := "feature-flag"; EvalValue := v; Type_ := ty;
     Reason := VNil; ErrorMessage := "" |}.

Definition scripted_Unmarshal (body : string) : error + EvaluationResponse :=
  if decide (body = "{toggles:{feature-flag:{value:true}}}")
  then inr {| Toggles := {["feature-flag" := flagEntry (VBool true) "boolean"]} |}
  else if decide (body = "{toggles:{}}")
  then inr {| Toggles := ∅ |}
  else inl (errorString "invalid character").

Definition scripted : Runtime :=
  {| World := list (error + http_Response);
     os_Getenv := λ _ _, "";
     rand_Int63 := λ w, (4037200794235010051, w);
     json_Marshal := λ _, inr "{}";
     json_Unmarshal := scripted_Unmarshal;
     http_NewRequestWithContext := λ _ _ _ _, None;
     httpClient_Do := scripted_Do |}.

Definition reply (code : Z) (status body : string) : error + http_Response :=
  inr {| rawStatusCode := code; rawStatus := status; rawHeader := ∅;
         rawBody := inr body |}.

(** What [httpClient.Do] returns for a cancelled context: a [*url.Error]
    around [context.Canceled]. *)
Definition canceledReply : error + http_Response :=
  inl (wrapError "Post: context canceled" (Some context_Canceled)).

Definition startOf (w : list (error + http_Response)) : @Sys scripted :=
  @Build_Sys scripted w [].

(** The client of the repository's tests: tenant "test-org", no explicit
    endpoints. *)
Definition exampleToggle : @Toggle scripted :=
  (@New scripted [WithPublicAPIKey "public_dGVzdC1vcmc6c2VjcmV0";
                  WithApplicationID "anApplicationID"] (startOf [])).1.1.

Definition flagOn : string := "{toggles:{feature-flag:{value:true}}}".

(** The state of a scripted run that began with no events, after requests
    to [urls] have left [script] of the script. *)
Definition afterRequests (script : list (error + http_Response))
    (urls : list string) : @Sys scripted :=
  @Build_Sys scripted script ((λ u, Requested "POST" u) <$> urls).

(** The error of [Post] when the script is used up, and the error [Get]
    records for a failed request to [baseURL_]. *)
Definition refused : error :=
  wrapError "request failed: connection refused"
    (Some (errorString "connection refused")).

Definition requestFailed (baseURL_ : string) (err : error) : error :=
  wrapError ("request to " +:+ baseURL_ +:+ " failed: " +:+ Error err)
    (Some err).

Definition primaryURL : string := "https://test-org.toggle.hyphen.cloud".
Definition secondaryURL : string := "https://toggle.hyphen.cloud".

Definition flagOnResponse : EvaluationResponse :=
  {| Toggles := {["feature-flag" := flagEntry (VBool true) "boolean"]} |}.

(** The same client with an error handler that leaves the world alone. *)
Definition exampleToggleWithHandler : @Toggle scripted :=
  @SetErrorHandler scripted exampleToggle (Some (λ _ w, w)).

(** The request [exampleToggle] builds for a call without a context. *)
Definition exampleRequest : toggleEvaluation :=
  (@buildEvaluationContext scripted exampleToggle None (startOf [])).1.

(** A runtime whose responses decode to one flag of each type. *)
Definition typedEntry (key : string) (v : Value) (ty : string) : Evaluation :=
  {| Key := key; EvalValue := v; Type_ := ty; Reason := VNil;
     ErrorMessage := "" |}.

Definition typedFlags : EvaluationResponse :=
  {| Toggles :=
       list_to_map
         [("flag-bool", typedEntry "flag-bool" (VBool true) "boolean");
          ("flag-text", typedEntry "flag-text" (VString "blue") "string");
          ("flag-number",
           typedEntry "flag-number" (VNumber (S754_finite false 3 (-1)))
             "number");
          ("flag-object",
           typedEntry "flag-object" (VObject {["k" := VBool true]})
             "object")] |}.

Definition typed : Runtime :=
  {| World := list (error + http_Response);
     os_Getenv := λ _ _, "";
     rand_Int63 := λ w, (4037200794235010051, w);
     json_Marshal := λ _, inr "{}";
     json_Unmarshal := λ _, inr typedFlags;
     http_NewRequestWithContext := λ _ _ _ _, None;
     httpClient_Do := scripted_Do |}.

Definition typedToggle : @Toggle typed :=
  (@New typed [WithPublicAPIKey "public_dGVzdC1vcmc6c2VjcmV0";
               WithApplicationID "anApplicationID"]
     (@Build_Sys typed [] [])).1.1.

(** The state before the one response of a run on [typed], and after it. *)
Definition typedStart : @Sys typed :=
  @Build_Sys typed [reply 200 "200 OK" "{}"] [].

Definition typedEnd : @Sys typed :=
  @Build_Sys typed []
    [Requested "POST" "https://test-org.toggle.hyphen.cloud/toggle/evaluate"].

(** A runtime in which the calling context stays cancelled: every round
    trip fails with [context.Canceled]. *)
Definition cancelling : Runtime :=
  {| World := unit;
     os_Getenv := λ _ _, "";
     rand_Int63 := λ w, (4037200794235010051, w);
     json_Marshal := λ _, inr "{}";
     json_Unmarshal := scripted_Unmarshal;
     http_NewRequestWithContext := λ _ _ _ _, None;
     httpClient_Do := λ _ _ w,
       (inl (wrapError "Post: context canceled" (Some context_Canceled)), w) |}.

Definition cancellingToggle : @Toggle cancelling :=
  (@New cancelling [WithPublicAPIKey "public_dGVzdC1vcmc6c2VjcmV0";
                    WithApplicationID "anApplicationID"]
     (@Build_Sys cancelling tt [])).1.1.

(** ** The toggle package under its name

    The packages below have options and constructors of the same names as
    the toggle package; these are the toggle package's. *)
Module toggle.
Abbreviation Options := Options.
Abbreviation Option := Option.
Abbreviation WithPublicAPIKey := WithPublicAPIKey.
Abbreviation WithApplicationID := WithApplicationID.
Abbreviation WithEnvironment := WithEnvironment.
Abbreviation WithDefaultContext := WithDefaultContext.
Abbreviation WithHorizonURLs := WithHorizonURLs.
Abbreviation WithDefaultTargetingKey := WithDefaultTargetingKey.
Abbreviation Toggle := Toggle.
Abbreviation New := New.
Abbreviation applyOptions := applyOptions.
End toggle.

(** ** More of [strings] *)

(** [strings.Index(s, substr)]: the first position of [substr], [None] for
    -1. *)
Fixpoint strings_Index (s substr : string) : option nat :=
  if strings.HasPrefix s substr then Some O
  else match s with
       | EmptyString => None
       | String _ r => S <$> strings_Index r substr
       end.

(** [strings.Replace(s, old, new, 1)]: the first [old] of [s] becomes
    [new]. *)
Definition strings_Replace1 (s old new : string) : string :=
  match strings_Index s old with
  | None => s
  | Some j =>
      strings.take j s +:+ new
      +:+ strings.drop (j + String.length old) s
  end.

(** The outcome of code that may stop with a run-time panic. *)
Inductive outcome (A : Type) : Type :=
| Returned (a : A)
| Panicked (msg : string).
Global Arguments Returned {A} a.
Global Arguments Panicked {A} msg.

(** ** The NetInfo client (pkg/netinfo) *)

Module netinfo.

Record Location := {
  Country : string;
  Region : string;
  City : string;
  Lat : float64;
  Lng : float64;
  PostalCode : string;
  Timezone : string;
  GeonameID : Z;
}.

Record IPInfo := {
  IP : string;
  IPType : string;
  IPLocation : Location;
}.

Record Options := {
  APIKey : string;
  BaseURI : string;
}.

Definition emptyOptions : Options := {| APIKey := ""; BaseURI := "" |}.

Definition Option : Type := Options → Options.

Definition WithAPIKey (key : string) : Option := λ o,
  {| APIKey := key; BaseURI := BaseURI o |}.

Definition WithBaseURI (uri : string) : Option := λ o,
  {| APIKey := APIKey o; BaseURI := uri |}.

Definition applyOptions (options : list Option) : Options :=
  fold_left (λ o (opt : Option), opt o) options emptyOptions.

Section NetInfo.
Context `{RT : Runtime}.

Record NetInfo := {
  apiKey : string;
  baseURI : string;
  client : Client;
  errorHandler : option (error → World → World);
}.

(** [netinfo.New]: the client, or the error. *)
Definition New (options : list Option) : M (error + NetInfo) :=
  let opts := applyOptions options in
  let! apiKey_ :=
    (if decide (APIKey opts = "")
     then readWorld (os_Getenv "HYPHEN_API_KEY")
     else ret (APIKey opts)) in
  if decide (apiKey_ = "") then
    ret (inl (errorString "API key is required. Please provide it via options or set the HYPHEN_API_KEY environment variable"))
  else if strings.HasPrefix apiKey_ "public_" then
    ret (inl (errorString "the provided API key is a public API key. Please provide a valid non-public API key for authentication"))
  else
    let baseURI_ :=
      if decide (BaseURI opts = "") then "https://net.info"
      else BaseURI opts in
    ret (inr {| apiKey := apiKey_; baseURI := baseURI_;
                client := NewClient baseURI_; errorHandler := None |}).

Definition SetErrorHandler (n : NetInfo)
    (handler : option (error → World → World)) : NetInfo :=
  {| apiKey := apiKey n; baseURI := baseURI n; client := client n;
     errorHandler := handler |}.

Definition emitError (n : NetInfo) (err : error) : M unit :=
  match errorHandler n with
  | Some handler =>
      let! _ := emit (Notified err) in
      liftWorld (λ w, (tt, handler err w))
  | None => ret tt
  end.

(** The decoders of the two response shapes and the encoder of a list of
    addresses: [encoding/json] at the types [IPInfo], [IPInfosResponse] (of
    which [Data] is kept) and [[]string]. *)
Variable json_Unmarshal_IPInfo : string → error + IPInfo.
Variable json_Unmarshal_IPInfos : string → error + list Value.
Variable json_Marshal_strings : list string → error + string.

(** [GetIPInfo] *)
Definition GetIPInfo (n : NetInfo) (ctx : context_Context) (ip : string)
    : M (error + IPInfo) :=
  let url := strings.TrimSuffix (baseURI n) "/" +:+ "/ip/" +:+ ip in
  let headers := CreateHeaders (apiKey n) in
  let! r := Client_Get (client n) ctx url headers in
  match r with
  | inl err =>
      let err := Errorf_w "failed to fetch ip info: " (Some err) in
      let! _ := emitError n err in
      ret (inl err)
  | inr resp =>
      if decide (StatusCode resp = 200) then
        match json_Unmarshal_IPInfo (Body resp) with
        | inl err =>
            let err := Errorf_w "failed to unmarshal response: " (Some err) in
            let! _ := emitError n err in
            ret (inl err)
        | inr ipInfo => ret (inr ipInfo)
        end
      else
        let err := errorString ("failed to fetch ip info: HTTP "
                                +:+ pretty (StatusCode resp) +:+ ": "
                                +:+ Status resp) in
        let! _ := emitError n err in
        ret (inl err)
  end.

(** [GetIPInfos] *)
Definition GetIPInfos (n : NetInfo) (ctx : context_Context)
    (ips : list string) : M (error + list Value) :=
  if decide (length ips = 0%nat) then
    let err := errorString "the provided IPs array is invalid. It should be a non-empty array of strings" in
    let! _ := emitError n err in
    ret (inl err)
  else
    let url := strings.TrimSuffix (baseURI n) "/" +:+ "/ip" in
    let headers := CreateHeaders (apiKey n) in
    let! r := Client_PostWith json_Marshal_strings (client n) ctx url ips
                headers in
    match r with
    | inl err =>
        let err := Errorf_w "failed to fetch ip infos: " (Some err) in
        let! _ := emitError n err in
        ret (inl err)
    | inr resp =>
        if decide (StatusCode resp = 200) then
          match json_Unmarshal_IPInfos (Body resp) with
          | inl err =>
              let err := Errorf_w "failed to unmarshal response: " (Some err) in
              let! _ := emitError n err in
              ret (inl err)
          | inr data => ret (inr data)
          end
        else
          let err := errorString ("failed to fetch ip infos: HTTP "
                                  +:+ pretty (StatusCode resp) +:+ ": "
                                  +:+ Status resp) in
          let! _ := emitError n err in
          ret (inl err)
    end.

End NetInfo.
End netinfo.

(** ** The Link client (pkg/link): construction, URIs and deletion *)

Module link.

Record Options := {
  URIs : list string;
  OrganizationID : string;
  APIKey : string;
}.

Definition emptyOptions : Options :=
  {| URIs := []; OrganizationID := ""; APIKey := "" |}.

Definition Option : Type := Options → Options.

Definition WithAPIKey (key : string) : Option := λ o,
  {| URIs := URIs o; OrganizationID := OrganizationID o; APIKey := key |}.

Definition WithOrganizationID (id : string) : Option := λ o,
  {| URIs := URIs o; OrganizationID := id; APIKey := APIKey o |}.

Definition WithURIs (uris : list string) : Option := λ o,
  {| URIs := uris; OrganizationID := OrganizationID o; APIKey := APIKey o |}.

Definition applyOptions (options : list Option) : Options :=
  fold_left (λ o (opt : Option), opt o) options emptyOptions.

Definition defaultLinkURIs : list string :=
  ["https://api.hyphen.ai/api/organizations/{organizationId}/link/codes/"].

(** The double quote, for messages that hold one. *)
Definition quote : string := String "034"%char "".

Section Link.
Context `{RT : Runtime}.

(** The field [client] has the interface type [client.HTTPClient]; the
    package has one implementation of it, [*client.Client], which is what
    [New] puts there. *)
Record Link := {
  uris : list string;
  organizationID : string;
  apiKey : string;
  client : Client;
  errorHandler : option (error → World → World);
}.

(** [link.New]: the client, or the error. *)
Definition New (options : list Option) : M (error + Link) :=
  let opts := applyOptions options in
  let! apiKey_ :=
    (if decide (APIKey opts = "")
     then readWorld (os_Getenv "HYPHEN_API_KEY")
     else ret (APIKey opts)) in
  if negb (bool_decide (apiKey_ = "")) && strings.HasPrefix apiKey_ "public_"
  then
    ret (inl (errorString ("API key cannot start with " +:+ quote
                           +:+ "public_" +:+ quote)))
  else
    let! organizationID_ :=
      (if decide (OrganizationID opts = "")
       then readWorld (os_Getenv "HYPHEN_ORGANIZATION_ID")
       else ret (OrganizationID opts)) in
    let uris_ :=
      if decide (length (URIs opts) = 0%nat) then defaultLinkURIs
      else URIs opts in
    ret (inr {| uris := uris_; organizationID := organizationID_;
                apiKey := apiKey_; client := NewClient "";
                errorHandler := None |}).

Definition SetErrorHandler (l : Link)
    (handler : option (error → World → World)) : Link :=
  {| uris := uris l; organizationID := organizationID l; apiKey := apiKey l;
     client := client l; errorHandler := handler |}.

Definition emitError (l : Link) (err : error) : M unit :=
  match errorHandler l with
  | Some handler =>
      let! _ := emit (Notified err) in
      liftWorld (λ w, (tt, handler err w))
  | None => ret tt
  end.

(** One of the three steps of [getURI] that append a path segment. *)
Definition appendPrefix (uri prefix : string) : string :=
  if decide (prefix = "") then uri
  else if strings.HasSuffix uri "/" then uri +:+ prefix +:+ "/"
  else uri +:+ "/" +:+ prefix.

(** [getURI]: the URI, or the error; [l.uris[0]] panics when the client has
    no URI. *)
Definition getURI (l : Link) (prefix1 prefix2 prefix3 : string)
    : outcome (error + string) :=
  if decide (organizationID l = "") then
    Returned (inl (errorString "organization ID is required"))
  else
    match uris l with
    | [] => Panicked "index out of range [0] with length 0"
    | uri0 :: _ =>
        let uri := strings_Replace1 uri0 "{organizationId}" (organizationID l) in
        let uri := appendPrefix uri prefix1 in
        let uri := appendPrefix uri prefix2 in
        let uri := appendPrefix uri prefix3 in
        Returned (inr (strings.TrimSuffix uri "/"))
    end.

(** The common body of [DeleteShortCode] and [DeleteQRCode], which differ in
    the URI and in the words of the error. *)
Definition deleteAt (l : Link) (ctx : context_Context)
    (uri : outcome (error + string)) (what : string)
    : M (outcome (option error)) :=
  match uri with
  | Panicked msg => ret (Panicked msg)
  | Returned (inl err) =>
      let! _ := emitError l err in
      ret (Returned (Some err))
  | Returned (inr uri_) =>
      let headers := CreateHeaders (apiKey l) in
      let! r := Client_Delete (client l) ctx uri_ headers in
      match r with
      | inl err =>
          let err := Errorf_w ("failed to delete " +:+ what +:+ ": ") (Some err) in
          let! _ := emitError l err in
          ret (Returned (Some err))
      | inr resp =>
          if decide (StatusCode resp = 204) then ret (Returned None)
          else
            let err := errorString ("failed to delete " +:+ what +:+ ": HTTP "
                                    +:+ pretty (StatusCode resp) +:+ ": "
                                    +:+ Status resp) in
            let! _ := emitError l err in
            ret (Returned (Some err))
      end
  end.

(** [DeleteShortCode] *)
Definition DeleteShortCode (l : Link) (ctx : context_Context) (code : string)
    : M (outcome (option error)) :=
  deleteAt l ctx (getURI l code "" "") "short code".

(** [DeleteQRCode] *)
Definition DeleteQRCode (l : Link) (ctx : context_Context) (code qrID : string)
    : M (outcome (option error)) :=
  deleteAt l ctx (getURI l code "qrs" qrID) "QR code".

End Link.
End link.

(** ** The SDK's entry points (package hyphen) *)

Module hyphen.

Record Options := {
  APIKey : string;
  PublicAPIKey : string;
  ApplicationID : string;
  Environment : string;
  DefaultContext : option Context;
  HorizonURLs : list string;
  DefaultTargetingKey : string;
  NetInfoBaseURI : string;
  OrganizationID : string;
  LinkURIs : list string;
}.

Definition emptyOptions : Options :=
  {| APIKey := "";
     PublicAPIKey := "";
     ApplicationID := "";
     Environment := "";
     DefaultContext := None;
     HorizonURLs := [];
     DefaultTargetingKey := "";
     NetInfoBaseURI := "";
     OrganizationID := "";
     LinkURIs := [] |}.

Definition Option : Type := Options → Options.

(** [hyphen.WithAPIKey] *)
Definition WithAPIKey (key : string) : Option := λ o,
  {| APIKey := key;
     PublicAPIKey := PublicAPIKey o;
     ApplicationID := ApplicationID o;
     Environment := Environment o;
     DefaultContext := DefaultContext o;
     HorizonURLs := HorizonURLs o;
     DefaultTargetingKey := DefaultTargetingKey o;
     NetInfoBaseURI := NetInfoBaseURI o;
     OrganizationID := OrganizationID o;
     LinkURIs := LinkURIs o |}.

(** [hyphen.WithPublicAPIKey] *)
Definition WithPublicAPIKey (key : string) : Option := λ o,
  {| APIKey := APIKey o;
     PublicAPIKey := key;
     ApplicationID := ApplicationID o;
     Environment := Environment o;
     DefaultContext := DefaultContext o;
     HorizonURLs := HorizonURLs o;
     DefaultTargetingKey := DefaultTargetingKey o;
     NetInfoBaseURI := NetInfoBaseURI o;
     OrganizationID := OrganizationID o;
     LinkURIs := LinkURIs o |}.

(** [hyphen.WithApplicationID] *)
Definition WithApplicationID (id : string) : Option := λ o,
  {| APIKey := APIKey o;
     PublicAPIKey := PublicAPIKey o;
     ApplicationID := id;
     Environment := Environment o;
     DefaultContext := DefaultContext o;
     HorizonURLs := HorizonURLs o;
     DefaultTargetingKey := DefaultTargetingKey o;
     NetInfoBaseURI := NetInfoBaseURI o;
     OrganizationID := OrganizationID o;
     LinkURIs := LinkURIs o |}.

(** [hyphen.WithEnvironment] *)
Definition WithEnvironment (env : string) : Option := λ o,
  {| APIKey := APIKey o;
     PublicAPIKey := PublicAPIKey o;
     ApplicationID := ApplicationID o;
     Environment := env;
     DefaultContext := DefaultContext o;
     HorizonURLs := HorizonURLs o;
     DefaultTargetingKey := DefaultTargetingKey o;
     NetInfoBaseURI := NetInfoBaseURI o;
     OrganizationID := OrganizationID o;
     LinkURIs := LinkURIs o |}.

(** [hyphen.WithOrganizationID] *)
Definition WithOrganizationID (id : string) : Option := λ o,
  {| APIKey := APIKey o;
     PublicAPIKey := PublicAPIKey o;
     ApplicationID := ApplicationID o;
     Environment := Environment o;
     DefaultContext := DefaultContext o;
     HorizonURLs := HorizonURLs o;
     DefaultTargetingKey := DefaultTargetingKey o;
     NetInfoBaseURI := NetInfoBaseURI o;
     OrganizationID := id;
     LinkURIs := LinkURIs o |}.

(** [hyphen.WithDefaultContext] *)
Definition WithDefaultContext (ctx : option Context) : Option := λ o,
  {| APIKey := APIKey o;
     PublicAPIKey := PublicAPIKey o;
     ApplicationID := ApplicationID o;
     Environment := Environment o;
     DefaultContext := ctx;
     HorizonURLs := HorizonURLs o;
     DefaultTargetingKey := DefaultTargetingKey o;
     NetInfoBaseURI := NetInfoBaseURI o;
     OrganizationID := OrganizationID o;
     LinkURIs := LinkURIs o |}.

(** [hyphen.WithHorizonURLs] *)
Definition WithHorizonURLs (urls : list string) : Option := λ o,
  {| APIKey := APIKey o;
     PublicAPIKey := PublicAPIKey o;
     ApplicationID := ApplicationID o;
     Environment := Environment o;
     DefaultContext := DefaultContext o;
     HorizonURLs := urls;
     DefaultTargetingKey := DefaultTargetingKey o;
     NetInfoBaseURI := NetInfoBaseURI o;
     OrganizationID := OrganizationID o;
     LinkURIs := LinkURIs o |}.

(** [hyphen.WithDefaultTargetingKey] *)
Definition WithDefaultTargetingKey (key : string) : Option := λ o,
  {| APIKey := APIKey o;
     PublicAPIKey := PublicAPIKey o;
     ApplicationID := ApplicationID o;
     Environment := Environment o;
     DefaultContext := DefaultContext o;
     HorizonURLs := HorizonURLs o;
     DefaultTargetingKey := key;
     NetInfoBaseURI := NetInfoBaseURI o;
     OrganizationID := OrganizationID o;
     LinkURIs := LinkURIs o |}.

(** [hyphen.WithNetInfoBaseURI] *)
Definition WithNetInfoBaseURI (uri : string) : Option := λ o,
  {| APIKey := APIKey o;
     PublicAPIKey := PublicAPIKey o;
     ApplicationID := ApplicationID o;
     Environment := Environment o;
     DefaultContext := DefaultContext o;
     HorizonURLs := HorizonURLs o;
     DefaultTargetingKey := DefaultTargetingKey o;
     NetInfoBaseURI := uri;
     OrganizationID := OrganizationID o;
     LinkURIs := LinkURIs o |}.

(** [hyphen.WithLinkURIs] *)
Definition WithLinkURIs (uris : list string) : Option := λ o,
  {| APIKey := APIKey o;
     PublicAPIKey := PublicAPIKey o;
     ApplicationID := ApplicationID o;
     Environment := Environment o;
     DefaultContext := DefaultContext o;
     HorizonURLs := HorizonURLs o;
     DefaultTargetingKey := DefaultTargetingKey o;
     NetInfoBaseURI := NetInfoBaseURI o;
     OrganizationID := OrganizationID o;
     LinkURIs := uris |}.

Definition applyOptions (options : list Option) : Options :=
  fold_left (λ o (opt : Option), opt o) options emptyOptions.

(** The options [NewToggle] hands to the toggle package: one for each
    setting that is not empty. *)
Definition toggleOptions (opts : Options) : list toggle.Option :=
  let toggleOpts : list toggle.Option := [] in
  let toggleOpts :=
    if decide (PublicAPIKey opts = "") then toggleOpts
    else toggleOpts ++ [toggle.WithPublicAPIKey (PublicAPIKey opts)] in
  let toggleOpts :=
    if decide (ApplicationID opts = "") then toggleOpts
    else toggleOpts ++ [toggle.WithApplicationID (ApplicationID opts)] in
  let toggleOpts :=
    if decide (Environment opts = "") then toggleOpts
    else toggleOpts ++ [toggle.WithEnvironment (Environment opts)] in
  let toggleOpts :=
    match DefaultContext opts with
    | None => toggleOpts
    | Some _ => toggleOpts ++ [toggle.WithDefaultContext (DefaultContext opts)]
    end in
  let toggleOpts :=
    if decide (0 < length (HorizonURLs opts))%nat
    then toggleOpts ++ [toggle.WithHorizonURLs (HorizonURLs opts)]
    else toggleOpts in
  let toggleOpts :=
    if decide (DefaultTargetingKey opts = "") then toggleOpts
    else toggleOpts
         ++ [toggle.WithDefaultTargetingKey (DefaultTargetingKey opts)] in
  toggleOpts.

(** The options [NewNetInfo] hands to the netinfo package. *)
Definition netinfoOptions (opts : Options) : list netinfo.Option :=
  let netinfoOpts : list netinfo.Option := [] in
  let netinfoOpts :=
    if decide (APIKey opts = "") then netinfoOpts
    else netinfoOpts ++ [netinfo.WithAPIKey (APIKey opts)] in
  let netinfoOpts :=
    if decide (NetInfoBaseURI opts = "") then netinfoOpts
    else netinfoOpts ++ [netinfo.WithBaseURI (NetInfoBaseURI opts)] in
  netinfoOpts.

(** The options [NewLink] hands to the link package. *)
Definition linkOptions (opts : Options) : list link.Option :=
  let linkOpts : list link.Option := [] in
  let linkOpts :=
    if decide (APIKey opts = "") then linkOpts
    else linkOpts ++ [link.WithAPIKey (APIKey opts)] in
  let linkOpts :=
    if decide (OrganizationID opts = "") then linkOpts
    else linkOpts ++ [link.WithOrganizationID (OrganizationID opts)] in
  let linkOpts :=
    if decide (0 < length (LinkURIs opts))%nat
    then linkOpts ++ [link.WithURIs (LinkURIs opts)]
    else linkOpts in
  linkOpts.

Section Hyphen.
Context `{RT : Runtime}.

(** [hyphen.Client]: a service that was not set up is [None]. *)
Record Client := {
  ClientToggle : option toggle.Toggle;
  ClientNetInfo : option netinfo.NetInfo;
  ClientLink : option link.Link;
  options : Options;
}.

(** [NewToggle] *)
Definition NewToggle (options : list Option)
    : M (toggle.Toggle * option error) :=
  toggle.New (toggleOptions (applyOptions options)).

(** [NewNetInfo] *)
Definition NewNetInfo (options : list Option) : M (error + netinfo.NetInfo) :=
  netinfo.New (netinfoOptions (applyOptions options)).

(** [NewLink] *)
Definition NewLink (options : list Option) : M (error + link.Link) :=
  link.New (linkOptions (applyOptions options)).

(** [hyphen.New]: the client, or the error. *)
Definition New (options_ : list Option) : M (error + Client) :=
  let opts := applyOptions options_ in
  let! toggled :=
    (if decide (PublicAPIKey opts = "") then ret (inr None)
     else
       let! '(t, err) := NewToggle options_ in
       match err with
       | Some e => ret (inl e)
       | None => ret (inr (Some t))
       end) in
  match toggled with
  | inl e => ret (inl e)
  | inr toggle_ =>
      let! netinfo_ :=
        (if decide (APIKey opts = "") then ret None
         else
           let! r := NewNetInfo options_ in
           match r with
           | inr n => ret (Some n)
           | inl _ => ret None
           end) in
      let! link_ :=
        (if decide (APIKey opts = "") then ret None
         else
           let! r := NewLink options_ in
           match r with
           | inr l => ret (Some l)
           | inl _ => ret None
           end) in
      ret (inr {| ClientToggle := toggle_; ClientNetInfo := netinfo_;
                  ClientLink := link_; options := opts |})
  end.

End Hyphen.
End hyphen.

(** ** Reference definitions for the further properties *)

(** The path segment [getURI] adds for a prefix. *)
Definition segment (prefix : string) : string :=
  if decide (prefix = "") then "" else "/" +:+ prefix.

(** [uri] stands for the path [x]: it is [x] followed by a slash, or [x]
    itself when [x] does not end with a slash. *)
Definition stands_for (uri x : string) : Prop :=
  uri = x +:+ "/" ∨ (uri = x ∧ strings.HasSuffix x "/" = false).

Section DeleteContract.
Context `{RT : Runtime}.

(** What a deletion at [uri] that ran from [s] to the result [r] has done:
    one DELETE call for [uri], then word to the error handler of the error
    it returns; and it returns no error exactly when the call was answered
    with status 204. *)
Definition delete_contract (l : link.Link) (ctx : context_Context)
    (uri : string) (s : Sys) (r : outcome (option error) * Sys) : Prop :=
  trace r.2
  = trace s ++ Requested "DELETE" uri
               :: match r.1, link.errorHandler l with
                  | Returned (Some err), Some _ => [Notified err]
                  | _, _ => []
                  end
  ∧ (∃ e, r.1 = Returned e)
  ∧ (r.1 = Returned None
     ↔ ∃ resp s', Client_Delete (link.client l) ctx uri
                    (CreateHeaders (link.apiKey l)) s = (inr resp, s')
                  ∧ StatusCode resp = 204).

End DeleteContract.

(** ** More objects for the examples *)

(** The zero value of [Toggle], with a client in the place of the nil
    pointer. *)
Definition zeroToggle : @Toggle scripted :=
  {| publicAPIKey := ""; organizationID := ""; applicationID := "";
     environment := ""; horizonURLs := []; defaultContext := None;
     defaultTargetingKey := ""; client := NewClient "";
     errorHandler := None |}.

(** A runtime whose random source counts up. *)
Definition counting : Runtime :=
  {| World := Z;
     os_Getenv := λ _ _, "";
     rand_Int63 := λ w, (w, w + 1);
     json_Marshal := λ _, inr "{}";
     json_Unmarshal := scripted_Unmarshal;
     http_NewRequestWithContext := λ _ _ _ _, None;
     httpClient_Do := λ _ _ w, (inl (errorString "connection refused"), w) |}.

(** The link client of the repository's tests (pkg/link/link_test.go), with
    a client in the place of the nil interface. *)
Definition exampleLink : @link.Link scripted :=
  {| link.uris := ["https://api.test.com/{organizationId}/codes/"];
     link.organizationID := "theOrgId";
     link.apiKey := "";
     link.client := NewClient "";
     link.errorHandler := None |}.

(** The error of [Post] when the script answers with a cancelled context. *)
Definition cancelled : error :=
  wrapError "request failed: Post: context canceled"
    (Some (wrapError "Post: context canceled" (Some context_Canceled))).

(** * Properties *)

(** ** Strings *)

Lemma app_String c s t : String c s +:+ t = String c (s +:+ t).
Proof. reflexivity. Qed.

Lemma app_empty_l s : "" +:+ s = s.
Proof. reflexivity. Qed.

Lemma app_empty_r s : s +:+ "" = s.
Proof. induction s as [|c s IH]; [done|]. by rewrite app_String, IH. Qed.

Lemma app_assoc s t u : (s +:+ t) +:+ u = s +:+ t +:+ u.
Proof. induction s as [|c s IH]; [done|]. by rewrite !app_String, IH. Qed.

Lemma app_length s t :
  String.length (s +:+ t) = (String.length s + String.length t)%nat.
Proof. induction s as [|c s IH]; [done|]. rewrite app_String. simpl. lia. Qed.

Lemma app_eq_empty s t : s +:+ t = "" → s = "" ∧ t = "".
Proof. destruct s; [done|]. by rewrite app_String. Qed.

Lemma take_app s t : strings.take (String.length s) (s +:+ t) = s.
Proof. induction s as [|c s IH]; simpl; [by destruct t|]. by rewrite IH. Qed.

Lemma drop_app s t : strings.drop (String.length s) (s +:+ t) = t.
Proof. induction s as [|c s IH]; [done|]. apply IH. Qed.

Lemma HasPrefix_app pre s : strings.HasPrefix (pre +:+ s) pre = true.
Proof.
  unfold strings.HasPrefix. rewrite take_app, app_length.
  rewrite !bool_decide_eq_true_2; [done..|lia].
Qed.

Lemma TrimPrefix_app pre s : strings.TrimPrefix (pre +:+ s) pre = s.
Proof. unfold strings.TrimPrefix. by rewrite HasPrefix_app, drop_app. Qed.

Lemma take_drop n s : strings.take n s +:+ strings.drop n s = s.
Proof.
  revert s. induction n as [|n IH]; intros [|c s]; simpl; try done.
  by rewrite app_String, IH.
Qed.

Lemma HasPrefix_inv s pre :
  strings.HasPrefix s pre = true →
  s = pre +:+ strings.drop (String.length pre) s.
Proof.
  unfold strings.HasPrefix.
  intros [_ Ht%bool_decide_eq_true]%andb_true_iff.
  rewrite <- (take_drop (String.length pre) s) at 1. by rewrite Ht.
Qed.

Lemma IndexByte_None_Count s sep :
  strings.IndexByte s sep = None ↔ strings.Count s sep = 0%nat.
Proof.
  induction s as [|c s IH]; simpl; [done|].
  destruct (decide (c = sep)); [done|].
  rewrite <- IH. by destruct (strings.IndexByte s sep).
Qed.

Lemma textBefore_IndexByte_None s sep :
  strings.IndexByte s sep = None → textBefore sep s = s.
Proof.
  induction s as [|c s IH]; simpl; [done|].
  destruct (decide (c = sep)); [done|].
  destruct (strings.IndexByte s sep) eqn:E; [done|]. intros _. by rewrite IH.
Qed.

Lemma textBefore_IndexByte_Some s sep m :
  strings.IndexByte s sep = Some m → strings.take m s = textBefore sep s.
Proof.
  revert m. induction s as [|c s IH]; intros m; simpl; [done|].
  destruct (decide (c = sep)); [by intros [= <-]|].
  destruct (strings.IndexByte s sep) eqn:E; [|done].
  intros [= <-]. simpl. f_equal. by apply IH.
Qed.

Lemma genSplit_nonempty n s sep : strings.genSplit n s sep ≠ [].
Proof. destruct n; simpl; [done|]. by destruct (strings.IndexByte s sep). Qed.

Lemma Split_nonempty s sep : strings.Split s sep ≠ [].
Proof. apply genSplit_nonempty. Qed.

(** The first piece of a split is the text before the first separator. *)
Lemma Split_head s sep :
  ∃ rest, strings.Split s sep = textBefore sep s :: rest.
Proof.
  unfold strings.Split. destruct (strings.Count s sep) as [|n] eqn:Hn; simpl.
  - exists []. apply IndexByte_None_Count in Hn.
    by rewrite textBefore_IndexByte_None.
  - destruct (strings.IndexByte s sep) as [m|] eqn:Hm.
    + eexists. by rewrite (textBefore_IndexByte_Some _ _ _ Hm).
    + apply IndexByte_None_Count in Hm. congruence.
Qed.

Lemma textBefore_app sep s t :
  strings.IndexByte s sep = None →
  textBefore sep (s +:+ String sep t) = s.
Proof.
  induction s as [|c s IH]; simpl.
  - intros _. by rewrite decide_True.
  - destruct (decide (c = sep)); [done|].
    destruct (strings.IndexByte s sep) eqn:E; [done|]. intros _.
    by rewrite IH.
Qed.

Lemma textBefore_empty_iff sep s :
  textBefore sep s = "" ↔ s = "" ∨ ∃ r, s = String sep r.
Proof.
  destruct s as [|c s]; simpl; [by split; [left|]|].
  destruct (decide (c = sep)) as [->|Hne].
  - split; [right; by eexists|done].
  - split; [done|]. intros [?|[r ?]]; simplify_eq.
Qed.

(** ** Base64 *)

Lemma byteZ_land c : Z.land (base64.byteZ c) 255 = base64.byteZ c.
Proof.
  unfold base64.byteZ. change 255 with (Z.ones 8).
  rewrite Z.land_ones by lia. apply Z.mod_small.
  pose proof (N_ascii_bounded c). lia.
Qed.

Lemma byte_land x c : Z.land x 255 = base64.byteZ c → base64.byte x = c.
Proof.
  unfold base64.byte, base64.byteZ. intros ->.
  by rewrite N2Z.id, ascii_N_embedding.
Qed.

Lemma decodeMap_encodeMap i :
  0 ≤ i < 64 → base64.decodeMap (base64.encodeMap i) = i.
Proof.
  intros Hi. rewrite <- (Z2Nat.id i) by lia.
  assert (Z.to_nat i < 64)%nat as Hn by lia.
  generalize dependent (Z.to_nat i). clear. intros n Hn.
  do 64 (destruct n as [|n]; [by vm_compute|]). lia.
Qed.

Lemma decodeMap_sextet val k :
  base64.decodeMap (base64.sextet val k) = Z.land (Z.shiftr val k) 63
  ∧ base64.decodeMap (base64.sextet val k) ≠ 255.
Proof.
  assert (0 ≤ Z.land (Z.shiftr val k) 63 < 64) as Hr.
  { change 63 with (Z.ones 6). rewrite Z.land_ones by lia.
    apply Z.mod_pos_bound. lia. }
  unfold base64.sextet. rewrite decodeMap_encodeMap by done. lia.
Qed.

Ltac quantum_bits :=
  cbv zeta; change 255 with (Z.ones 8); change 63 with (Z.ones 6);
  prove_Zeq_bitwise.prove_Zeq_bitwise.

Lemma bits3_first A B C :
  let val := Z.lor (Z.lor (Z.shiftl (Z.land A 255) 16)
                          (Z.shiftl (Z.land B 255) 8)) (Z.land C 255) in
  Z.land (Z.shiftr
            (Z.lor (Z.lor (Z.lor (Z.shiftl (Z.land (Z.shiftr val 18) 63) 18)
                                 (Z.shiftl (Z.land (Z.shiftr val 12) 63) 12))
                          (Z.shiftl (Z.land (Z.shiftr val 6) 63) 6))
                   (Z.land (Z.shiftr val 0) 63)) 16) 255
  = Z.land A 255.
Proof. quantum_bits. Qed.

Lemma bits3_second A B C :
  let val := Z.lor (Z.lor (Z.shiftl (Z.land A 255) 16)
                          (Z.shiftl (Z.land B 255) 8)) (Z.land C 255) in
  Z.land (Z.shiftr
            (Z.lor (Z.lor (Z.lor (Z.shiftl (Z.land (Z.shiftr val 18) 63) 18)
                                 (Z.shiftl (Z.land (Z.shiftr val 12) 63) 12))
                          (Z.shiftl (Z.land (Z.shiftr val 6) 63) 6))
                   (Z.land (Z.shiftr val 0) 63)) 8) 255
  = Z.land B 255.
Proof. quantum_bits. Qed.

Lemma bits3_third A B C :
  let val := Z.lor (Z.lor (Z.shiftl (Z.land A 255) 16)
                          (Z.shiftl (Z.land B 255) 8)) (Z.land C 255) in
  Z.land (Z.lor (Z.lor (Z.lor (Z.shiftl (Z.land (Z.shiftr val 18) 63) 18)
                              (Z.shiftl (Z.land (Z.shiftr val 12) 63) 12))
                       (Z.shiftl (Z.land (Z.shiftr val 6) 63) 6))
                (Z.land (Z.shiftr val 0) 63)) 255
  = Z.land C 255.
Proof. quantum_bits. Qed.

Lemma bits2_first A B :
  let val := Z.lor (Z.shiftl (Z.land A 255) 16) (Z.shiftl (Z.land B 255) 8) in
  Z.land (Z.shiftr
            (Z.lor (Z.lor (Z.lor (Z.shiftl (Z.land (Z.shiftr val 18) 63) 18)
                                 (Z.shiftl (Z.land (Z.shiftr val 12) 63) 12))
                          (Z.shiftl (Z.land (Z.shiftr val 6) 63) 6))
                   0) 16) 255
  = Z.land A 255.
Proof. quantum_bits. Qed.

Lemma bits2_second A B :
  let val := Z.lor (Z.shiftl (Z.land A 255) 16) (Z.shiftl (Z.land B 255) 8) in
  Z.land (Z.shiftr
            (Z.lor (Z.lor (Z.lor (Z.shiftl (Z.land (Z.shiftr val 18) 63) 18)
                                 (Z.shiftl (Z.land (Z.shiftr val 12) 63) 12))
                          (Z.shiftl (Z.land (Z.shiftr val 6) 63) 6))
                   0) 8) 255
  = Z.land B 255.
Proof. quantum_bits. Qed.

Lemma bits1_first A :
  let val := Z.shiftl (Z.land A 255) 16 in
  Z.land (Z.shiftr
            (Z.lor (Z.lor (Z.lor (Z.shiftl (Z.land (Z.shiftr val 18) 63) 18)
                                 (Z.shiftl (Z.land (Z.shiftr val 12) 63) 12))
                          (Z.shiftl 0 6))
                   0) 16) 255
  = Z.land A 255.
Proof. quantum_bits. Qed.

Lemma quantum_full a b c :
  let val := Z.lor (Z.lor (Z.shiftl (base64.byteZ a) 16)
                          (Z.shiftl (base64.byteZ b) 8)) (base64.byteZ c) in
  base64.quantum [Z.land (Z.shiftr val 18) 63; Z.land (Z.shiftr val 12) 63;
                  Z.land (Z.shiftr val 6) 63; Z.land (Z.shiftr val 0) 63] 4
  = String a (String b (String c "")).
Proof.
  intros val. subst val. unfold base64.quantum. cbn [strings.take nth Nat.sub].
  f_equal; [|f_equal; [|f_equal]]; apply byte_land;
    rewrite <- (byteZ_land a), <- (byteZ_land b), <- (byteZ_land c).
  - apply bits3_first.
  - apply bits3_second.
  - apply bits3_third.
Qed.

Lemma quantum_two a b :
  let val := Z.lor (Z.shiftl (base64.byteZ a) 16)
                   (Z.shiftl (base64.byteZ b) 8) in
  base64.quantum [Z.land (Z.shiftr val 18) 63; Z.land (Z.shiftr val 12) 63;
                  Z.land (Z.shiftr val 6) 63] 3
  = String a (String b "").
Proof.
  intros val. subst val. unfold base64.quantum. cbn [strings.take nth Nat.sub].
  f_equal; [|f_equal]; apply byte_land;
    rewrite <- (byteZ_land a), <- (byteZ_land b).
  - apply bits2_first.
  - apply bits2_second.
Qed.

Lemma quantum_one a :
  let val := Z.shiftl (base64.byteZ a) 16 in
  base64.quantum [Z.land (Z.shiftr val 18) 63; Z.land (Z.shiftr val 12) 63] 2
  = String a "".
Proof.
  intros val. subst val. unfold base64.quantum. cbn [strings.take nth Nat.sub].
  f_equal. apply byte_land. rewrite <- (byteZ_land a). apply bits1_first.
Qed.

(** One step of the decoder on a character of the alphabet. *)
Lemma decode_sextet dbuf val k rest :
  base64.decode dbuf (String (base64.sextet val k) rest) =
  if decide (length (dbuf ++ [Z.land (Z.shiftr val k) 63]) = 4%nat)
  then (λ tl, base64.quantum (dbuf ++ [Z.land (Z.shiftr val k) 63]) 4 +:+ tl)
         <$> base64.decode [] rest
  else base64.decode (dbuf ++ [Z.land (Z.shiftr val k) 63]) rest.
Proof.
  destruct (decodeMap_sextet val k) as [Heq Hne].
  cbn [base64.decode]. rewrite decide_False by done. by rewrite Heq.
Qed.

Lemma decode_padding_two s0 s1 :
  base64.decode [s0; s1] (String base64.padChar (String base64.padChar ""))
  = Some (base64.quantum [s0; s1] 2).
Proof. reflexivity. Qed.

Lemma decode_padding_one s0 s1 s2 :
  base64.decode [s0; s1; s2] (String base64.padChar "")
  = Some (base64.quantum [s0; s1; s2] 3).
Proof. reflexivity. Qed.

Lemma string_ind3 (P : string → Prop) :
  P "" →
  (∀ a, P (String a "")) →
  (∀ a b, P (String a (String b ""))) →
  (∀ a b c r, P r → P (String a (String b (String c r)))) →
  ∀ s, P s.
Proof.
  intros H0 H1 H2 H3.
  refine (fix go s := match s with
                     | String a (String b (String c r)) => H3 a b c r (go r)
                     | String a (String b EmptyString) => H2 a b
                     | String a EmptyString => H1 a
                     | EmptyString => H0
                     end).
Qed.

(** Decoding inverts encoding. *)
Lemma DecodeString_EncodeToString s :
  base64.DecodeString (base64.EncodeToString s) = Some s.
Proof.
  unfold base64.DecodeString.
  induction s as [|a|a b|a b c r IH] using string_ind3.
  - done.
  - cbn [base64.EncodeToString]. rewrite !decode_sextet.
    cbn [app length]. rewrite !decide_False by done.
    rewrite decode_padding_two. by rewrite quantum_one.
  - cbn [base64.EncodeToString]. rewrite !decode_sextet.
    cbn [app length]. rewrite !decide_False by done.
    rewrite decode_padding_one. by rewrite quantum_two.
  - cbn [base64.EncodeToString]. rewrite !decode_sextet.
    cbn [app length]. rewrite !decide_False by done.
    rewrite decide_True by done.
    rewrite IH. cbn [fmap option_fmap option_map]. by rewrite quantum_full.
Qed.

(** ** Key decoder *)

Lemma getOrgID_no_prefix key :
  strings.HasPrefix key "public_" = false → getOrgIDFromPublicKey key = "".
Proof. unfold getOrgIDFromPublicKey. by intros ->. Qed.

Lemma getOrgID_prefixed payload :
  getOrgIDFromPublicKey ("public_" +:+ payload) =
  match base64.DecodeString payload with
  | None => ""
  | Some decoded => textBefore ":" decoded
  end.
Proof.
  unfold getOrgIDFromPublicKey.
  rewrite TrimPrefix_app, HasPrefix_app. cbn [negb].
  destruct (base64.DecodeString payload) as [decoded|]; [|done].
  by destruct (Split_head decoded ":") as [rest ->].
Qed.

Lemma getOrgID_encoded tenant secret :
  strings.IndexByte tenant ":" = None →
  getOrgIDFromPublicKey
    ("public_" +:+ base64.EncodeToString (tenant +:+ ":" +:+ secret)) = tenant.
Proof.
  intros Hcolon. rewrite getOrgID_prefixed, DecodeString_EncodeToString.
  by apply textBefore_app.
Qed.

(** C7: a credential that does not begin with the marker "public_" yields no
    tenant id (the empty string); the credential public_<base64(tenant:secret)>
    of a tenant id, which as the first member of a colon-separated pair holds
    no colon, yields that tenant id. *)
Theorem key_decoding_inverts_embedding :
  (∀ key, (∀ rest, key ≠ "public_" +:+ rest) →
          getOrgIDFromPublicKey key = "")
  ∧ (∀ tenant secret,
       strings.IndexByte tenant ":" = None →
       getOrgIDFromPublicKey
         ("public_" +:+ base64.EncodeToString (tenant +:+ ":" +:+ secret))
       = tenant).
Proof.
  split.
  - intros key Hkey. apply getOrgID_no_prefix.
    destruct (strings.HasPrefix key "public_") eqn:Hp; [|done].
    apply HasPrefix_inv in Hp. by destruct (Hkey _ Hp).
  - apply getOrgID_encoded.
Qed.

Lemma key_decoding_inverts_embedding_witness :
  getOrgIDFromPublicKey "invalid_key" = ""
  ∧ getOrgIDFromPublicKey "public_dGVzdC1vcmc6c2VjcmV0" = "test-org".
Proof.
  destruct key_decoding_inverts_embedding as [Hnone Hsome]. split.
  - apply Hnone. intros rest. discriminate.
  - exact (Hsome "test-org" "secret" eq_refl).
Defined.

(** C10: for a credential "public_" followed by valid standard base64, the
    decoder returns the decoded text before its first colon: all of it when
    it holds no colon, and the empty "not found" result exactly when the
    decoded text is empty or begins with a colon.  A split never returns an
    empty list, so the branch for no segments is never taken. *)
Theorem key_decoding_returns_text_before_colon :
  (∀ payload decoded,
     base64.DecodeString payload = Some decoded →
     getOrgIDFromPublicKey ("public_" +:+ payload) = textBefore ":" decoded
     ∧ (strings.IndexByte decoded ":" = None →
        getOrgIDFromPublicKey ("public_" +:+ payload) = decoded)
     ∧ (getOrgIDFromPublicKey ("public_" +:+ payload) = ""
        ↔ decoded = "" ∨ ∃ r, decoded = String ":" r))
  ∧ (∀ s sep, strings.Split s sep ≠ []).
Proof.
  split; [|apply Split_nonempty].
  intros payload decoded Hdec. rewrite getOrgID_prefixed, Hdec.
  split; [done|]. split.
  - apply textBefore_IndexByte_None.
  - apply textBefore_empty_iff.
Qed.

Lemma key_decoding_returns_text_before_colon_witness :
  getOrgIDFromPublicKey "public_dGVzdC1vcmc6c2VjcmV0" = "test-org"
  ∧ getOrgIDFromPublicKey "public_dGVuYW50" = "tenant"
  ∧ getOrgIDFromPublicKey "public_OnNlY3JldA==" = "".
Proof.
  destruct key_decoding_returns_text_before_colon as [Hdec _].
  split; [|split].
  - exact (proj1 (Hdec "dGVzdC1vcmc6c2VjcmV0" "test-org:secret" eq_refl)).
  - exact (proj1 (proj2 (Hdec "dGVuYW50" "tenant" eq_refl)) eq_refl).
  - apply (proj2 (proj2 (Hdec "OnNlY3JldA==" ":secret" eq_refl))).
    right. by eexists.
Defined.

(** ** Endpoint resolver *)

Lemma getOrgID_empty_key : getOrgIDFromPublicKey "" = "".
Proof. reflexivity. Qed.

Lemma tenant_URL_not_default tenant :
  "https://" +:+ tenant +:+ ".toggle.hyphen.cloud"
  ≠ "https://toggle.hyphen.cloud".
Proof.
  change "https://toggle.hyphen.cloud" with ("https://" +:+ "toggle.hyphen.cloud").
  intros Heq%(inj (String.app "https://")).
  apply (f_equal String.length) in Heq. rewrite app_length in Heq.
  simpl in Heq. lia.
Qed.

Lemma getDefaultHorizonURLs_tenant key tenant :
  tenant ≠ "" →
  getOrgIDFromPublicKey key = tenant →
  getDefaultHorizonURLs key =
    ["https://" +:+ tenant +:+ ".toggle.hyphen.cloud";
     "https://toggle.hyphen.cloud"].
Proof.
  intros Hne Horg. unfold getDefaultHorizonURLs, getDefaultHorizonURL.
  destruct (decide (key = "")) as [->|_].
  { rewrite getOrgID_empty_key in Horg. congruence. }
  rewrite Horg. rewrite (decide_False (P := tenant = "")) by done.
  rewrite decide_False by apply tenant_URL_not_default. done.
Qed.

Lemma getDefaultHorizonURLs_unknown key :
  key = "" ∨ getOrgIDFromPublicKey key = "" →
  getDefaultHorizonURLs key = ["https://toggle.hyphen.cloud"].
Proof.
  intros Hkey. unfold getDefaultHorizonURLs, getDefaultHorizonURL.
  destruct (decide (key = "")) as [->|Hk]; [done|].
  destruct Hkey as [? | ->]; [done|]. done.
Qed.

Lemma getDefaultHorizonURLs_length key :
  length (getDefaultHorizonURLs key) = 1%nat
  ∨ length (getDefaultHorizonURLs key) = 2%nat.
Proof.
  unfold getDefaultHorizonURLs. repeat case_decide; auto.
Qed.

(** ** Targeting key resolver *)

Lemma pretty_N_go_length x s :
  (String.length s ≤ String.length (pretty_N_go x s))%nat.
Proof.
  revert s. induction (N.lt_wf_0 x) as [x _ IH]; intros s.
  assert (x = 0 ∨ 0 < x)%N as [->|Hx] by lia.
  - by rewrite pretty_N_go_0.
  - rewrite pretty_N_go_step by done.
    etrans; [|apply IH; by apply N.div_lt]. simpl. lia.
Qed.

Lemma pretty_positive_nonempty (p : positive) : pretty (N.pos p) ≠ "".
Proof.
  unfold pretty, pretty_N. rewrite decide_False by done.
  rewrite pretty_N_go_step by done. intros Heq.
  pose proof (pretty_N_go_length (N.pos p `div` 10)
                (String (pretty_N_char (N.pos p `mod` 10)) "")) as Hlen.
  rewrite Heq in Hlen. simpl in Hlen. lia.
Qed.

(** What [%d] prints is never empty. *)
Lemma pretty_Z_nonempty (z : Z) : pretty z ≠ "".
Proof.
  unfold pretty, pretty_Z. destruct z as [|p|p]; [done| |done].
  apply pretty_positive_nonempty.
Qed.

Lemma joinRest_app l1 l2 sep :
  strings.joinRest (l1 ++ l2) sep
  = strings.joinRest l1 sep +:+ strings.joinRest l2 sep.
Proof.
  induction l1 as [|x l1 IH]; [done|]. cbn [app strings.joinRest].
  rewrite IH. by rewrite !app_assoc.
Qed.

Lemma Join_nonempty_last l x sep :
  x ≠ "" → strings.Join (l ++ [x]) sep ≠ "".
Proof.
  intros Hx. destruct l as [|y l]; cbn [app strings.Join strings.joinRest].
  - by rewrite app_empty_r.
  - rewrite joinRest_app. cbn [strings.joinRest].
    intros [_ H1]%app_eq_empty. apply app_eq_empty in H1 as [_ H1].
    apply app_eq_empty in H1 as [_ H1]. apply app_eq_empty in H1 as [H1 _].
    done.
Qed.

Section Construction.
Context `{RT : Runtime}.

(** The generated key: one draw from the random source, and the non-empty
    members of application id, environment and the drawn integer, joined. *)
Lemma generateTargetKey_eq app env s :
  generateTargetKey app env s =
  (joinNonEmpty "-" [app; env; pretty (rand_Int63 (world s)).1],
   {| world := (rand_Int63 (world s)).2; trace := trace s |}).
Proof.
  unfold generateTargetKey, bind, liftWorld, ret, joinNonEmpty.
  destruct (rand_Int63 (world s)) as [r w] eqn:Hr. cbn [fst snd].
  f_equal. pose proof (pretty_Z_nonempty r) as Hr'.
  rewrite !filter_cons, filter_nil.
  repeat case_decide; simplify_eq; done.
Qed.

Lemma generateTargetKey_nonempty app env s :
  (generateTargetKey app env s).1 ≠ "".
Proof.
  rewrite generateTargetKey_eq. cbn [fst]. unfold joinNonEmpty.
  pose proof (pretty_Z_nonempty (rand_Int63 (world s)).1) as Hr.
  replace (filter (λ s0, s0 ≠ "") [app; env; pretty (rand_Int63 (world s)).1])
    with (filter (λ s0, s0 ≠ "") [app; env] ++ [pretty (rand_Int63 (world s)).1]).
  - by apply Join_nonempty_last.
  - rewrite !filter_cons, !filter_nil. repeat case_decide; done.
Qed.

Lemma getTargetingKey_nonempty ctx app env s :
  (getTargetingKey ctx app env s).1 ≠ "".
Proof.
  unfold getTargetingKey.
  destruct (decide (TargetingKey ctx = "")); [|done].
  destruct (CtxUser ctx) as [u|]; [|apply generateTargetKey_nonempty].
  destruct (decide (ID u = "")); [apply generateTargetKey_nonempty|done].
Qed.

(** C6: the targeting key of a context is its own non-empty targeting key;
    failing that the non-empty id of its user; failing that a generated key,
    which joins with "-" the non-empty members of application id, environment
    and a random integer, and is never empty. *)
Theorem targeting_key_precedence (ctx : Context) (app env : string) (s : Sys) :
  (TargetingKey ctx ≠ "" →
   getTargetingKey ctx app env s = (TargetingKey ctx, s))
  ∧ (TargetingKey ctx = "" →
     ∀ u, CtxUser ctx = Some u → ID u ≠ "" →
          getTargetingKey ctx app env s = (ID u, s))
  ∧ (TargetingKey ctx = "" →
     (CtxUser ctx = None ∨ ∃ u, CtxUser ctx = Some u ∧ ID u = "") →
     getTargetingKey ctx app env s = generateTargetKey app env s)
  ∧ (generateTargetKey app env s).1
    = joinNonEmpty "-" [app; env; pretty (rand_Int63 (world s)).1]
  ∧ (generateTargetKey app env s).1 ≠ "".
Proof.
  unfold getTargetingKey. repeat split.
  - intros Hk. by rewrite decide_False.
  - intros Hk u -> Hu. by rewrite decide_True, decide_False.
  - intros Hk Hu. rewrite decide_True by done.
    destruct Hu as [->|(u & -> & Hu)]; [done|]. by rewrite decide_True.
  - by rewrite generateTargetKey_eq.
  - apply generateTargetKey_nonempty.
Qed.

(** What [New] builds. *)
Lemma New_eq options s :
  let opts := applyOptions options in
  let key := if decide (PublicAPIKey opts = "")
             then os_Getenv "HYPHEN_PUBLIC_API_KEY" (world s)
             else PublicAPIKey opts in
  let app := if decide (ApplicationID opts = "")
             then os_Getenv "HYPHEN_APPLICATION_ID" (world s)
             else ApplicationID opts in
  let env := if decide (Environment opts = "") then "development"
             else Environment opts in
  let dkey : string * Sys :=
    if decide (DefaultTargetingKey opts = "") then
      match DefaultContext opts with
      | Some dctx => getTargetingKey dctx app env s
      | None => generateTargetKey app env s
      end
    else (DefaultTargetingKey opts, s) in
  New options s =
  ({| publicAPIKey := key;
      organizationID := if decide (key = "") then ""
                        else getOrgIDFromPublicKey key;
      applicationID := app;
      environment := env;
      horizonURLs := if decide (length (HorizonURLs opts) = 0%nat)
                     then getDefaultHorizonURLs key
                     else HorizonURLs opts;
      defaultContext := DefaultContext opts;
      defaultTargetingKey := dkey.1;
      client := NewClient "";
      errorHandler := None |}, None, dkey.2).
Proof.
  intros opts key app env dkey. unfold New, bind, ret, readWorld.
  fold opts. subst key app env dkey.
  destruct (decide (PublicAPIKey opts = "")),
    (decide (ApplicationID opts = "")),
    (decide (DefaultTargetingKey opts = "")); cbn [fst snd];
    try done;
    (destruct (DefaultContext opts) as [dctx|];
     [by destruct (getTargetingKey dctx _ _ s)
     |by destruct (generateTargetKey _ _ s)]).
Qed.

Lemma New_defaultTargetingKey_nonempty options s :
  defaultTargetingKey (New options s).1.1 ≠ "".
Proof.
  rewrite New_eq. cbn [fst defaultTargetingKey].
  destruct (decide (DefaultTargetingKey (applyOptions options) = ""));
    [|done].
  destruct (DefaultContext (applyOptions options)).
  - apply getTargetingKey_nonempty.
  - apply generateTargetKey_nonempty.
Qed.

Lemma New_horizonURLs_nonempty options s :
  horizonURLs (New options s).1.1 ≠ [].
Proof.
  rewrite New_eq. cbn [fst horizonURLs].
  destruct (decide (length (HorizonURLs (applyOptions options)) = 0%nat))
    as [_|Hlen].
  - intros Heq. destruct (getDefaultHorizonURLs_length
      (if decide (PublicAPIKey (applyOptions options) = "")
       then os_Getenv "HYPHEN_PUBLIC_API_KEY" (world s)
       else PublicAPIKey (applyOptions options))) as [Hl|Hl];
      rewrite Heq in Hl; done.
  - intros Heq. by rewrite Heq in Hlen.
Qed.

(** The key the builder puts into the request. *)
Lemma buildEvaluationContext_key t override s :
  reqTargetingKey (buildEvaluationContext t override s).1 =
  match (match override with Some c => Some c | None => defaultContext t end)
  with
  | Some c =>
      if decide (TargetingKey c = "")
      then (getTargetingKey c (applicationID t) (environment t) s).1
      else TargetingKey c
  | None => defaultTargetingKey t
  end.
Proof.
  unfold buildEvaluationContext, bind, ret.
  destruct (match override with Some c => Some c | None => defaultContext t end)
    as [c|]; cbn [reqTargetingKey].
  - destruct (decide (TargetingKey c = "")); [|done].
    by destruct (getTargetingKey c (applicationID t) (environment t) s).
  - by rewrite decide_True.
Qed.

(** C1: whether or not a context is passed with the call and whether or not
    a default context is configured, the request built for a client that
    [New] constructed carries a non-empty targeting key: the active
    context's own key when it is non-empty, otherwise the key the resolver
    derives from the active context, and with no active context the default
    targeting key fixed at construction, which is never empty. *)
Theorem evaluation_request_has_targeting_key
    (options : list Option) (s0 : Sys)
    (handler : option (error → World → World))
    (override : option Context) (s : Sys) :
  let t := SetErrorHandler (New options s0).1.1 handler in
  let req := (buildEvaluationContext t override s).1 in
  reqTargetingKey req ≠ ""
  ∧ defaultTargetingKey t ≠ ""
  ∧ match (match override with Some c => Some c | None => defaultContext t end)
    with
    | Some c =>
        (TargetingKey c ≠ "" → reqTargetingKey req = TargetingKey c)
        ∧ (TargetingKey c = "" →
           reqTargetingKey req
           = (getTargetingKey c (applicationID t) (environment t) s).1)
    | None => reqTargetingKey req = defaultTargetingKey t
    end.
Proof.
  intros t req.
  assert (defaultTargetingKey t ≠ "") as Hd
    by apply New_defaultTargetingKey_nonempty.
  subst req. rewrite buildEvaluationContext_key.
  destruct (match override with Some c => Some c | None => defaultContext t end)
    as [c|].
  - destruct (decide (TargetingKey c = "")) as [Hk|Hk].
    + split; [apply getTargetingKey_nonempty|]. by split.
    + by repeat split.
  - by repeat split.
Qed.

End Construction.

(** ** Evaluator *)

Lemma requests_app tr1 tr2 : requests (tr1 ++ tr2) = requests tr1 ++ requests tr2.
Proof.
  induction tr1 as [|[m u|e] tr1 IH]; cbn [app requests]; [done| |done].
  by rewrite IH.
Qed.

Lemma notifications_app tr1 tr2 :
  notifications (tr1 ++ tr2) = (notifications tr1 + notifications tr2)%nat.
Proof.
  induction tr1 as [|[m u|e] tr1 IH]; cbn [app notifications]; [done..|].
  by rewrite IH.
Qed.

Section Evaluation.
Context `{RT : Runtime}.

(** A call of [Post] asks for exactly one request and calls no handler. *)
Lemma Post_trace c ctx url req headers s r s' :
  Post c ctx url req headers s = (r, s') →
  trace s' = trace s ++ [Requested "POST" url].
Proof.
  unfold Post, do, bind, emit, liftWorld, ret. cbn [world trace].
  destruct (json_Marshal req) as [e|data]; [by intros [= <- <-]|].
  destruct (http_NewRequestWithContext ctx "POST" url (Some data)) as [e|];
    [by intros [= <- <-]|].
  match goal with |- context [httpClient_Do ?c ?r ?w] =>
    destruct (httpClient_Do c r w) as [[e|resp] w'] end;
    [by intros [= <- <-]|].
  destruct (rawBody resp) as [e|body]; by intros [= <- <-].
Qed.

Lemma buildEvaluationContext_trace t override s :
  trace (buildEvaluationContext t override s).2 = trace s.
Proof.
  unfold buildEvaluationContext, bind, ret.
  destruct (match override with Some c => Some c | None => defaultContext t end)
    as [c|]; cbn [reqTargetingKey].
  - destruct (decide (TargetingKey c = "")); [|done].
    unfold getTargetingKey. rewrite decide_True by done.
    destruct (CtxUser c) as [u|].
    + destruct (decide (ID u = "")); [|done].
      by rewrite generateTargetKey_eq.
    + by rewrite generateTargetKey_eq.
  - by rewrite decide_True.
Qed.

Lemma AttemptFails_trace c ctx req headers u s err s' :
  AttemptFails c ctx req headers u s err s' →
  trace s' = trace s ++ [Requested "POST" (evaluateURL u)].
Proof. intros [e s1 H|resp s1 H _|resp e s1 H _ _]; by eapply Post_trace. Qed.

Lemma AttemptSucceeds_trace c ctx req headers u s resp s' :
  AttemptSucceeds c ctx req headers u s resp s' →
  trace s' = trace s ++ [Requested "POST" (evaluateURL u)].
Proof. intros (r & H & _). by eapply Post_trace. Qed.

Lemma FailsThrough_trace c ctx req headers urls s last s' last' :
  FailsThrough c ctx req headers urls s last s' last' →
  trace s' = trace s ++ ((λ u, Requested "POST" (evaluateURL u)) <$> urls).
Proof.
  induction 1 as [s last|u us s last err s1 s' last' Hu _ IH]; cbn [fmap list_fmap].
  - by rewrite app_nil_r.
  - rewrite IH, (AttemptFails_trace _ _ _ _ _ _ _ _ Hu).
    by rewrite <- List.app_assoc.
Qed.

Lemma FailsThrough_app c ctx req headers pre post s last s1 last1 s2 last2 :
  FailsThrough c ctx req headers pre s last s1 last1 →
  FailsThrough c ctx req headers post s1 last1 s2 last2 →
  FailsThrough c ctx req headers (pre ++ post) s last s2 last2.
Proof.
  induction 1 as [|u us s last err sa sb lastb Hu _ IH]; [done|].
  intros Hpost. cbn [app]. eapply FailsThrough_cons; [done|]. by apply IH.
Qed.

(** When a non-empty list has failed throughout, the last error is the
    failure of its last endpoint. *)
Lemma FailsThrough_last c ctx req headers urls s last s' last' :
  FailsThrough c ctx req headers urls s last s' last' →
  urls ≠ [] →
  ∃ pre u s1 last1 err,
    urls = pre ++ [u]
    ∧ FailsThrough c ctx req headers pre s last s1 last1
    ∧ AttemptFails c ctx req headers u s1 err s'
    ∧ last' = Some err.
Proof.
  induction 1 as [|u us s last err s1 s' last' Hu Hus IH]; [done|].
  intros _. destruct us as [|u2 us].
  - inversion Hus; subst. exists [], u, s, last, err.
    repeat split; [constructor|done].
  - destruct IH as (pre & ul & sa & la & e & Heq & Hpre & Hul & ->); [done|].
    exists (u :: pre), ul, sa, la, e. rewrite Heq. repeat split; [|done].
    by eapply FailsThrough_cons.
Qed.

(** Every attempt either fails in one of the three ways or succeeds. *)
Lemma attempt_cases c ctx req headers u s :
  (∃ err s', AttemptFails c ctx req headers u s err s')
  ∨ (∃ resp s', AttemptSucceeds c ctx req headers u s resp s').
Proof.
  destruct (Post c ctx (evaluateURL u) req headers s) as [[e|resp] s'] eqn:HP.
  - left. eexists _, _. by apply TransportFailure.
  - destruct (decide (StatusCode resp = 200)) as [H200|H200].
    + destruct (json_Unmarshal (Body resp)) as [e|evalResp] eqn:HU.
      * left. eexists _, _. by eapply MalformedResponse.
      * right. exists evalResp, s', resp. done.
    + left. eexists _, _. by eapply UnexpectedStatus.
Qed.

Section Loop.
Variables (t : Toggle) (ctx : context_Context) (toggleKey : string)
  (defaultValue : Value) (req : toggleEvaluation)
  (headers : gmap string string).

Local Abbreviation loop :=
  (tryHorizonURLs t ctx toggleKey defaultValue req headers).

(** A failed attempt is recorded and the loop goes on with the next
    endpoint. *)
Lemma loop_attempt_fails u rest last s err s1 :
  AttemptFails (client t) ctx req headers u s err s1 →
  loop (u :: rest) last s = loop rest (Some err) s1.
Proof.
  intros [e s' HP|resp s' HP Hcode|resp e s' HP Hcode HU];
    cbn [tryHorizonURLs]; unfold bind at 1; rewrite HP.
  - done.
  - by rewrite decide_False.
  - by rewrite decide_True, HU.
Qed.

Lemma loop_fails_through pre rest last s s1 last1 :
  FailsThrough (client t) ctx req headers pre s last s1 last1 →
  loop (pre ++ rest) last s = loop rest last1 s1.
Proof.
  induction 1 as [|u us s last err sa sb lastb Hu _ IH]; [done|].
  cbn [app]. by rewrite (loop_attempt_fails _ _ _ _ _ _ Hu).
Qed.

(** A successful attempt ends the loop with the flag's value, or with the
    default when the response has no entry for the key. *)
Lemma loop_attempt_succeeds u rest last s evalResp s1 :
  AttemptSucceeds (client t) ctx req headers u s evalResp s1 →
  loop (u :: rest) last s =
  (match Toggles evalResp !! toggleKey with
   | Some toggle => EvalValue toggle
   | None => defaultValue
   end, None, s1).
Proof.
  intros (resp & HP & Hcode & HU).
  cbn [tryHorizonURLs]; unfold bind at 1; rewrite HP.
  rewrite decide_True, HU by done.
  by destruct (Toggles evalResp !! toggleKey).
Qed.

(** With no endpoint left the aggregate error goes to the handler and comes
    back with the default. *)
Lemma loop_exhausted last s :
  loop [] last s =
  let err := Errorf_w "all horizon URLs failed. Last error: " last in
  (defaultValue, Some err, notified t err s).
Proof.
  cbn [tryHorizonURLs]. unfold bind, emitError, notified, emit, liftWorld, ret.
  by destruct (errorHandler t).
Qed.

(** The loop ends in one of two ways: some endpoint answers after all
    before it failed, or all fail. *)
Lemma loop_cases urls last s :
  (∃ pre u post s1 last1 evalResp s2,
     urls = pre ++ u :: post
     ∧ FailsThrough (client t) ctx req headers pre s last s1 last1
     ∧ AttemptSucceeds (client t) ctx req headers u s1 evalResp s2
     ∧ loop urls last s =
       (match Toggles evalResp !! toggleKey with
        | Some toggle => EvalValue toggle
        | None => defaultValue
        end, None, s2))
  ∨ (∃ s1 last1,
       FailsThrough (client t) ctx req headers urls s last s1 last1
       ∧ loop urls last s =
         (defaultValue,
          Some (Errorf_w "all horizon URLs failed. Last error: " last1),
          notified t (Errorf_w "all horizon URLs failed. Last error: " last1) s1)).
Proof.
  revert last s. induction urls as [|u urls IH]; intros last s.
  - right. exists s, last. split; [constructor|apply loop_exhausted].
  - destruct (attempt_cases (client t) ctx req headers u s)
      as [(err & s1 & Hf)|(resp & s1 & Hs)].
    + rewrite (loop_attempt_fails _ _ _ _ _ _ Hf).
      destruct (IH (Some err) s1)
        as [(pre & v & post & sa & la & r & sb & -> & Hpre & Hv & Heq)
           |(sa & la & Hall & Heq)].
      * left. exists (u :: pre), v, post, sa, la, r, sb.
        repeat split; [|done..]. by eapply FailsThrough_cons.
      * right. exists sa, la. split; [|done]. by eapply FailsThrough_cons.
    + left. exists [], u, urls, s, last, resp, s1.
      repeat split; [constructor|done|]. by apply loop_attempt_succeeds.
Qed.

End Loop.
End Evaluation.

Section Evaluate.
Context `{RT : Runtime}.

Lemma Get_eq t ctx toggleKey defaultValue override s :
  Get t ctx toggleKey defaultValue override s =
  tryHorizonURLs t ctx toggleKey defaultValue
    (buildEvaluationContext t override s).1 (CreateHeaders (publicAPIKey t))
    (horizonURLs t) None (buildEvaluationContext t override s).2.
Proof.
  unfold Get, bind. by destruct (buildEvaluationContext t override s).
Qed.

Lemma FailsThrough_counts c ctx req headers urls s last s' last' :
  FailsThrough c ctx req headers urls s last s' last' →
  notifications (trace s') = notifications (trace s)
  ∧ requests (trace s') = requests (trace s) ++ (evaluateURL <$> urls).
Proof.
  intros H%FailsThrough_trace. rewrite H, notifications_app, requests_app.
  clear H. induction urls as [|u urls [IH1 IH2]]; cbn; [by rewrite Nat.add_0_r|].
  split; [done|]. do 2 f_equal. by apply app_inv_head in IH2.
Qed.

Lemma AttemptSucceeds_counts c ctx req headers u s resp s' :
  AttemptSucceeds c ctx req headers u s resp s' →
  notifications (trace s') = notifications (trace s)
  ∧ requests (trace s') = requests (trace s) ++ [evaluateURL u].
Proof.
  intros H%AttemptSucceeds_trace. rewrite H, notifications_app, requests_app.
  cbn. by rewrite Nat.add_0_r.
Qed.

Lemma notified_counts t err s :
  notifications (trace (notified t err s))
  = (notifications (trace s) + if errorHandler t is Some _ then 1 else 0)%nat
  ∧ requests (trace (notified t err s)) = requests (trace s).
Proof.
  unfold notified. destruct (errorHandler t); cbn [trace].
  - rewrite notifications_app, requests_app. cbn. by rewrite app_nil_r.
  - by rewrite Nat.add_0_r.
Qed.

Lemma Get_served t ctx toggleKey defaultValue override s req s0
    pre u post s1 last1 evalResp s2 :
  buildEvaluationContext t override s = (req, s0) →
  horizonURLs t = pre ++ u :: post →
  FailsThrough (client t) ctx req (CreateHeaders (publicAPIKey t)) pre
    s0 None s1 last1 →
  AttemptSucceeds (client t) ctx req (CreateHeaders (publicAPIKey t)) u
    s1 evalResp s2 →
  Get t ctx toggleKey defaultValue override s =
  (match Toggles evalResp !! toggleKey with
   | Some toggle => EvalValue toggle
   | None => defaultValue
   end, None, s2).
Proof.
  intros Hbuild Hurls Hpre Hu. rewrite Get_eq, Hbuild, Hurls. cbn [fst snd].
  rewrite (loop_fails_through _ _ _ _ _ _ _ _ _ _ _ _ Hpre).
  by apply loop_attempt_succeeds.
Qed.

Lemma Get_all_failed t ctx toggleKey defaultValue override s req s0 s1 last1 :
  buildEvaluationContext t override s = (req, s0) →
  FailsThrough (client t) ctx req (CreateHeaders (publicAPIKey t))
    (horizonURLs t) s0 None s1 last1 →
  Get t ctx toggleKey defaultValue override s =
  (defaultValue,
   Some (Errorf_w "all horizon URLs failed. Last error: " last1),
   notified t (Errorf_w "all horizon URLs failed. Last error: " last1) s1).
Proof.
  intros Hbuild Hall. rewrite Get_eq, Hbuild. cbn [fst snd].
  rewrite <- (app_nil_r (horizonURLs t)).
  rewrite (loop_fails_through _ _ _ _ _ _ _ _ _ _ _ _ Hall).
  apply loop_exhausted.
Qed.

(** [Get] ends in one of the two ways. *)
Lemma Get_cases t ctx override s req s0 :
  buildEvaluationContext t override s = (req, s0) →
  (∃ pre u post s1 last1 evalResp s2,
     horizonURLs t = pre ++ u :: post
     ∧ FailsThrough (client t) ctx req (CreateHeaders (publicAPIKey t)) pre
         s0 None s1 last1
     ∧ AttemptSucceeds (client t) ctx req (CreateHeaders (publicAPIKey t)) u
         s1 evalResp s2)
  ∨ (∃ s1 last1,
       FailsThrough (client t) ctx req (CreateHeaders (publicAPIKey t))
         (horizonURLs t) s0 None s1 last1).
Proof.
  intros Hbuild.
  destruct (loop_cases t ctx "" VNil req
              (CreateHeaders (publicAPIKey t)) (horizonURLs t) None s0)
    as [(pre & u & post & s1 & l1 & r & s2 & H1 & H2 & H3 & _)
       |(s1 & l1 & H1 & _)].
  - left. by exists pre, u, post, s1, l1, r, s2.
  - right. by exists s1, l1.
Qed.

(** C4: a failed attempt at an endpoint is recorded as the last error and the
    loop goes on with the next endpoint; the failures before the first
    endpoint that answers leave no mark on the result: no error, and no call
    of the error handler.  In particular, when the primary endpoint answers
    HTTP 500 and the secondary answers HTTP 200 with the requested key in its
    response, [Get] returns the secondary's value for the key with no error,
    after one request to each, and the error handler is not called. *)
Theorem endpoint_failure_moves_to_next_endpoint
    (t : Toggle) (ctx : context_Context) (toggleKey : string)
    (defaultValue : Value) (override : option Context) (s : Sys)
    (req : toggleEvaluation) (s0 : Sys) :
  buildEvaluationContext t override s = (req, s0) →
  let headers := CreateHeaders (publicAPIKey t) in
  (∀ u rest lastErr sa err sb,
     AttemptFails (client t) ctx req headers u sa err sb →
     tryHorizonURLs t ctx toggleKey defaultValue req headers (u :: rest) lastErr sa
     = tryHorizonURLs t ctx toggleKey defaultValue req headers rest (Some err) sb)
  ∧ (∀ pre u post s1 last1 evalResp s2,
       horizonURLs t = pre ++ u :: post →
       FailsThrough (client t) ctx req headers pre s0 None s1 last1 →
       AttemptSucceeds (client t) ctx req headers u s1 evalResp s2 →
       Get t ctx toggleKey defaultValue override s
       = (match Toggles evalResp !! toggleKey with
          | Some toggle => EvalValue toggle
          | None => defaultValue
          end, None, s2)
       ∧ notifications (trace s2) = notifications (trace s)
       ∧ requests (trace s2)
         = requests (trace s) ++ (evaluateURL <$> pre ++ [u]))
  ∧ (∀ primary secondary resp1 s1 resp2 s2 evalResp toggle,
       horizonURLs t = [primary; secondary] →
       Post (client t) ctx (evaluateURL primary) req headers s0 = (inr resp1, s1) →
       StatusCode resp1 = 500 →
       Post (client t) ctx (evaluateURL secondary) req headers s1 = (inr resp2, s2) →
       StatusCode resp2 = 200 →
       json_Unmarshal (Body resp2) = inr evalResp →
       Toggles evalResp !! toggleKey = Some toggle →
       Get t ctx toggleKey defaultValue override s = (EvalValue toggle, None, s2)
       ∧ notifications (trace s2) = notifications (trace s)
       ∧ requests (trace s2)
         = requests (trace s) ++ [evaluateURL primary; evaluateURL secondary]).
Proof.
  intros Hbuild headers.
  pose proof (buildEvaluationContext_trace t override s) as Htr.
  rewrite Hbuild in Htr. cbn [snd] in Htr.
  assert (∀ pre u post s1 last1 evalResp s2,
    horizonURLs t = pre ++ u :: post →
    FailsThrough (client t) ctx req headers pre s0 None s1 last1 →
    AttemptSucceeds (client t) ctx req headers u s1 evalResp s2 →
    Get t ctx toggleKey defaultValue override s
    = (match Toggles evalResp !! toggleKey with
       | Some toggle => EvalValue toggle
       | None => defaultValue
       end, None, s2)
    ∧ notifications (trace s2) = notifications (trace s)
    ∧ requests (trace s2) = requests (trace s) ++ (evaluateURL <$> pre ++ [u]))
    as Hserved.
  { intros pre u post s1 last1 evalResp s2 Hurls Hpre Hu.
    split; [by eapply Get_served|].
    destruct (FailsThrough_counts _ _ _ _ _ _ _ _ _ Hpre) as [Hn1 Hr1].
    destruct (AttemptSucceeds_counts _ _ _ _ _ _ _ _ Hu) as [Hn2 Hr2].
    rewrite Hn2, Hn1, Hr2, Hr1, Htr, fmap_app, <- List.app_assoc. done. }
  split; [intros; by apply loop_attempt_fails|]. split; [exact Hserved|].
  intros primary secondary resp1 s1 resp2 s2 evalResp toggle
    Hurls HP1 H500 HP2 H200 HU Hkey.
  assert (AttemptFails (client t) ctx req headers primary s0
            (errorString ("HTTP " +:+ pretty (StatusCode resp1) +:+ ": "
                          +:+ Status resp1)) s1) as Hf.
  { apply UnexpectedStatus; [done|]. rewrite H500. done. }
  assert (AttemptSucceeds (client t) ctx req headers secondary s1 evalResp s2)
    as Hs by (by exists resp2).
  destruct (Hserved [primary] secondary [] s1
              (Some (errorString ("HTTP " +:+ pretty (StatusCode resp1)
                                  +:+ ": " +:+ Status resp1))) evalResp s2)
    as (HGet & Hn & Hr); [done| |done|].
  { eapply FailsThrough_cons; [exact Hf|apply FailsThrough_nil]. }
  by rewrite HGet, Hkey.
Qed.

(** C3: when the attempts at all configured endpoints fail, [Get] returns the
    caller's default together with an aggregate error that wraps the failure
    of the last endpoint, and the error handler, when one is set, is called
    exactly once, with that aggregate error. *)
Theorem all_endpoints_failed_reports_once
    (t : Toggle) (ctx : context_Context) (toggleKey : string)
    (defaultValue : Value) (override : option Context) (s : Sys)
    (req : toggleEvaluation) (s0 s2 : Sys) (lastErr : option error) :
  buildEvaluationContext t override s = (req, s0) →
  horizonURLs t ≠ [] →
  FailsThrough (client t) ctx req (CreateHeaders (publicAPIKey t))
    (horizonURLs t) s0 None s2 lastErr →
  ∃ ulast s1 err,
    last (horizonURLs t) = Some ulast
    ∧ AttemptFails (client t) ctx req (CreateHeaders (publicAPIKey t)) ulast
        s1 err s2
    ∧ lastErr = Some err
    ∧ let agg := Errorf_w "all horizon URLs failed. Last error: " (Some err) in
      let s3 := (Get t ctx toggleKey defaultValue override s).2 in
      Get t ctx toggleKey defaultValue override s = (defaultValue, Some agg, s3)
      ∧ Unwrap agg = Some err
      ∧ match errorHandler t with
        | Some handler =>
            trace s3 = trace s2 ++ [Notified agg]
            ∧ world s3 = handler agg (world s2)
            ∧ notifications (trace s3) = S (notifications (trace s))
        | None => s3 = s2 ∧ notifications (trace s3) = notifications (trace s)
        end.
Proof.
  intros Hbuild Hne Hall.
  destruct (FailsThrough_last _ _ _ _ _ _ _ _ _ Hall Hne)
    as (pre & ulast & s1 & last1 & err & Hurls & Hpre & Hlast & ->).
  exists ulast, s1, err. rewrite Hurls, last_snoc.
  split; [done|]. split; [done|]. split; [done|]. intros agg s3.
  assert (Get t ctx toggleKey defaultValue override s
          = (defaultValue, Some agg, notified t agg s2)) as HGet
    by (by apply (Get_all_failed _ _ _ _ _ _ req s0)).
  subst s3. rewrite HGet. cbn [snd]. split; [done|]. split; [done|].
  pose proof (buildEvaluationContext_trace t override s) as Htr.
  rewrite Hbuild in Htr. cbn [snd] in Htr.
  destruct (FailsThrough_counts _ _ _ _ _ _ _ _ _ Hall) as [Hn _].
  rewrite Htr in Hn.
  unfold notified. destruct (errorHandler t) as [handler|]; cbn [trace world].
  - repeat split. rewrite notifications_app, Hn. cbn. lia.
  - done.
Qed.

Ltac accessor_served Hbuild :=
  let Hurls := fresh "Hurls" in
  let Hpre := fresh "Hpre" in
  let Hu := fresh "Hu" in
  intros ? ? ? ? ? ? ? Hurls Hpre Hu;
  rewrite (Get_served _ _ _ _ _ _ _ _ _ _ _ _ _ _ _ Hbuild Hurls Hpre Hu);
  split; [|split];
  [ by intros ? ? -> -> | by intros ? -> -> | by intros -> ].

Ltac accessor_default_or_value ctx Hbuild :=
  let Hurls := fresh "Hurls" in
  let Hpre := fresh "Hpre" in
  let Hu := fresh "Hu" in
  let Hall := fresh "Hall" in
  let Hk := fresh "Hk" in
  let Hv := fresh "Hv" in
  destruct (Get_cases _ ctx _ _ _ _ Hbuild)
    as [(pre & u & post & s1 & l1 & r & s2 & Hurls & Hpre & Hu)
       |(s1 & l1 & Hall)];
  [ rewrite (Get_served _ _ _ _ _ _ _ _ _ _ _ _ _ _ _ Hbuild Hurls Hpre Hu);
    destruct (Toggles r !! _) as [toggle|] eqn:Hk; [|by left];
    match goal with
    | |- context [match ?a with Some _ => _ | None => _ end] =>
        destruct a as [v|] eqn:Hv
    end; [|by left];
    right; by exists pre, u, post, s1, l1, r, s2, toggle
  | left; by rewrite (Get_all_failed _ _ _ _ _ _ _ _ _ _ Hbuild Hall) ].

Ltac accessor_contract get :=
  let Hbuild := fresh "Hbuild" in
  let Hall := fresh "Hall" in
  intros t ctx toggleKey defaultValue override s req s0 Hbuild headers;
  subst headers; unfold get, bind;
  split; [|split];
  [ accessor_served Hbuild
  | intros ? ? Hall;
    by rewrite (Get_all_failed _ _ _ _ _ _ _ _ _ _ Hbuild Hall)
  | accessor_default_or_value ctx Hbuild ].

Lemma GetBoolean_contract : accessor_contract GetBoolean assertBool.
Proof. accessor_contract (@GetBoolean). Qed.

Lemma GetString_contract : accessor_contract GetString assertString.
Proof. accessor_contract (@GetString). Qed.

Lemma GetNumber_contract : accessor_contract GetNumber assertFloat64.
Proof. accessor_contract (@GetNumber). Qed.

Lemma GetObject_contract : accessor_contract GetObject assertObject.
Proof. accessor_contract (@GetObject). Qed.

(** A type assertion that accepts exactly the values [inj a], and returns
    [a] for them, turns the promise about the assertion into the promise
    about the values. *)
Lemma accessor_contract_typed {A : Type}
    (get : Toggle → context_Context → string → A → option Context → M A)
    (assert : Value → option A) (inj : A → Value) :
  (∀ v a, assert v = Some a ↔ v = inj a) →
  accessor_contract get assert →
  typed_accessor_contract get inj.
Proof.
  intros Hassert Hc t ctx toggleKey defaultValue override s req s0 Hbuild.
  destruct (Hc t ctx toggleKey defaultValue override s req s0 Hbuild)
    as (Hserved & Hfail & Hany).
  cbv zeta. split; [|split; [exact Hfail|]].
  - intros pre u post s1 last1 evalResp s2 Hurls Hpre Hu.
    destruct (Hserved pre u post s1 last1 evalResp s2 Hurls Hpre Hu)
      as (Hv & Hm & Ha).
    split; [|split; [|exact Ha]].
    + intros toggle a Hk Hval. apply (Hv toggle a Hk). by apply Hassert.
    + intros toggle Hk Hno. apply (Hm toggle Hk).
      destruct (assert (EvalValue toggle)) as [a|] eqn:E; [|done].
      apply Hassert in E. by destruct (Hno a).
  - destruct Hany
      as [Hd|(pre & u & post & s1 & last1 & evalResp & s2 & toggle
              & H1 & H2 & H3 & H4 & H5)]; [by left|].
    right. exists pre, u, post, s1, last1, evalResp, s2, toggle.
    repeat split; try done. by apply Hassert.
Qed.

(** C2: each typed accessor returns the server's value when the key is in
    the response of the endpoint that answered and the value has the
    accessor's type (a boolean for [GetBoolean], a string for [GetString], a
    number for [GetNumber], an object for [GetObject]), and the caller's
    default when the key is absent, when the value has another type, or when
    all endpoints fail.  Its result is a plain value: no error reaches the
    caller. *)
Theorem typed_accessors_fall_back_to_default :
  typed_accessor_contract GetBoolean VBool
  ∧ typed_accessor_contract GetString VString
  ∧ typed_accessor_contract GetNumber VNumber
  ∧ typed_accessor_contract GetObject VObject.
Proof.
  split; [|split; [|split]].
  - apply (accessor_contract_typed _ assertBool); [|apply GetBoolean_contract].
    intros v a. split; [by destruct v; intros [= ->]|by intros ->].
  - apply (accessor_contract_typed _ assertString); [|apply GetString_contract].
    intros v a. split; [by destruct v; intros [= ->]|by intros ->].
  - apply (accessor_contract_typed _ assertFloat64); [|apply GetNumber_contract].
    intros v a. split; [by destruct v; intros [= ->]|by intros ->].
  - apply (accessor_contract_typed _ assertObject); [|apply GetObject_contract].
    intros v a. split; [by destruct v; intros [= ->]|by intros ->].
Qed.

(** The requests of a run of the loop: to a non-empty initial stretch of the
    endpoints, in order, and to all of them when an error comes back. *)
Lemma loop_requests t ctx toggleKey defaultValue req headers urls last s :
  let result := tryHorizonURLs t ctx toggleKey defaultValue req headers urls last s in
  ∃ n, (n ≤ length urls)%nat
       ∧ (urls ≠ [] → (0 < n)%nat)
       ∧ (is_Some result.1.2 → n = length urls)
       ∧ requests (trace result.2)
         = requests (trace s) ++ (evaluateURL <$> take n urls).
Proof.
  intros result. subst result.
  destruct (loop_cases t ctx toggleKey defaultValue req headers urls last s)
    as [(pre & u & post & s1 & l1 & r & s2 & -> & Hpre & Hu & ->)
       |(s1 & l1 & Hall & ->)]; cbn [fst snd].
  - exists (S (length pre)). rewrite length_app. cbn [length].
    split; [lia|]. split; [lia|]. split; [by intros [? [=]]|].
    destruct (FailsThrough_counts _ _ _ _ _ _ _ _ _ Hpre) as [_ H1].
    destruct (AttemptSucceeds_counts _ _ _ _ _ _ _ _ Hu) as [_ H2].
    rewrite H2, H1, <- List.app_assoc. f_equal.
    replace (S (length pre)) with (length (pre ++ [u]))
      by (rewrite length_app; cbn; lia).
    rewrite (cons_middle u pre post), List.app_assoc, take_app_length.
    by rewrite fmap_app.
  - exists (length urls). split; [done|].
    split; [destruct urls; [done|cbn; lia]|]. split; [done|].
    destruct (FailsThrough_counts _ _ _ _ _ _ _ _ _ Hall) as [_ H1].
    destruct (notified_counts t
      (Errorf_w "all horizon URLs failed. Last error: " l1) s1) as [_ H2].
    by rewrite H2, H1, firstn_all.
Qed.

(** When all endpoints of a list fail, the loop returns the default and the
    aggregate error, after telling the handler. *)
Lemma loop_all_failed t ctx toggleKey defaultValue req headers urls last s
    s1 last1 :
  FailsThrough (client t) ctx req headers urls s last s1 last1 →
  tryHorizonURLs t ctx toggleKey defaultValue req headers urls last s
  = (defaultValue,
     Some (Errorf_w "all horizon URLs failed. Last error: " last1),
     notified t (Errorf_w "all horizon URLs failed. Last error: " last1) s1).
Proof.
  intros Hall.
  assert (urls = urls ++ []) as Heq by (by rewrite app_nil_r).
  rewrite Heq.
  rewrite (loop_fails_through _ _ _ _ _ _ _ _ _ _ _ _ Hall).
  apply loop_exhausted.
Qed.

(** While the context stays cancelled every attempt fails, each with an
    error that wraps [context.Canceled]. *)
Lemma FailsThrough_cancelled c ctx req headers urls :
  (∀ url s', ∃ err' s'',
     Post c ctx url req headers s' = (inl err', s'')
     ∧ errors_Is err' context_Canceled = true) →
  ∀ s e, errors_Is e context_Canceled = true →
    ∃ s' e', FailsThrough c ctx req headers urls s (Some e) s' (Some e')
             ∧ errors_Is e' context_Canceled = true.
Proof.
  intros Hall. induction urls as [|u urls IH]; intros s e He.
  - exists s, e. split; [constructor|done].
  - destruct (Hall (evaluateURL u) s) as (err' & s'' & HP & Hc).
    destruct (IH s'' (wrapError ("request to " +:+ u +:+ " failed: "
                                 +:+ Error err') (Some err')))
      as (s' & e' & HF & He').
    { cbn [errors_Is]. rewrite Hc. apply orb_true_r. }
    exists s', e'. split; [|done].
    eapply FailsThrough_cons; [|exact HF]. by apply TransportFailure.
Qed.

(** C8, as the code has it: a failure of the attempt at an endpoint that comes
    from the cancelled calling context is a transport failure like any other.
    It is recorded (the recorded error still wraps [context.Canceled]) and
    the loop goes on with the endpoints that are left: the next endpoint in
    the list, if there is one, is tried, [Post] being called for it right
    after the cancelled call.  An error is returned exactly when every
    endpoint that was left has been tried and has failed as well; it is then
    the aggregate error, returned with the default after a call of [Post] for
    every endpoint.  In particular an error is returned, and wraps
    [context.Canceled], when the cancelled attempt was at the last endpoint,
    and when the context stays cancelled for the attempts that follow. *)
Theorem cancelled_attempt_is_recorded_and_next_endpoint_tried
    (t : Toggle) (ctx : context_Context) (toggleKey : string)
    (defaultValue : Value) (req : toggleEvaluation)
    (headers : gmap string string) (u : string) (rest : list string)
    (last : option error) (s s1 : Sys) (err : error) :
  Post (client t) ctx (evaluateURL u) req headers s = (inl err, s1) →
  errors_Is err context_Canceled = true →
  let recorded :=
    wrapError ("request to " +:+ u +:+ " failed: " +:+ Error err) (Some err) in
  let aggregate (lastErr : option error) :=
    Errorf_w "all horizon URLs failed. Last error: " lastErr in
  let posts (urls : list string) :=
    (λ v, Requested "POST" (evaluateURL v)) <$> urls in
  let result :=
    tryHorizonURLs t ctx toggleKey defaultValue req headers (u :: rest) last s in
  (AttemptFails (client t) ctx req headers u s recorded s1
   ∧ result
     = tryHorizonURLs t ctx toggleKey defaultValue req headers rest
         (Some recorded) s1
   ∧ errors_Is recorded context_Canceled = true)
  ∧ (∀ u2 rest2, rest = u2 :: rest2 →
       ((∃ err2 s2,
           AttemptFails (client t) ctx req headers u2 s1 err2 s2
           ∧ result
             = tryHorizonURLs t ctx toggleKey defaultValue req headers rest2
                 (Some err2) s2)
        ∨ (∃ evalResp s2,
             AttemptSucceeds (client t) ctx req headers u2 s1 evalResp s2
             ∧ result
               = (match Toggles evalResp !! toggleKey with
                  | Some toggle => EvalValue toggle
                  | None => defaultValue
                  end, None, s2)))
       ∧ (∃ more, trace result.2 = trace s ++ posts [u; u2] ++ more)
       ∧ ∃ more, requests (trace result.2)
                 = requests (trace s) ++ evaluateURL u :: evaluateURL u2 :: more)
  ∧ (∀ agg, result.1.2 = Some agg
       ↔ ∃ s2 last2,
           FailsThrough (client t) ctx req headers rest s1 (Some recorded)
             s2 last2
           ∧ agg = aggregate last2)
  ∧ (∀ s2 last2,
       FailsThrough (client t) ctx req headers rest s1 (Some recorded) s2 last2 →
       FailsThrough (client t) ctx req headers (u :: rest) s last s2 last2
       ∧ result = (defaultValue, Some (aggregate last2),
                   notified t (aggregate last2) s2)
       ∧ trace result.2
         = trace s ++ posts (u :: rest)
           ++ (if errorHandler t is Some _ then [Notified (aggregate last2)]
               else []))
  ∧ (is_Some result.1.2 →
     requests (trace result.2) = requests (trace s) ++ (evaluateURL <$> u :: rest))
  ∧ (rest = [] →
     result = (defaultValue, Some (aggregate (Some recorded)),
               notified t (aggregate (Some recorded)) s1)
     ∧ errors_Is (aggregate (Some recorded)) context_Canceled = true)
  ∧ ((∀ url s', ∃ err' s'',
        Post (client t) ctx url req headers s' = (inl err', s'')
        ∧ errors_Is err' context_Canceled = true) →
     ∃ agg s2,
       result = (defaultValue, Some agg, notified t agg s2)
       ∧ errors_Is agg context_Canceled = true
       ∧ trace s2 = trace s ++ posts (u :: rest)).
Proof.
  intros HP Hc recorded aggregate posts result.
  assert (AttemptFails (client t) ctx req headers u s recorded s1) as Hf
    by (by apply TransportFailure).
  assert (result = tryHorizonURLs t ctx toggleKey defaultValue req headers
                     rest (Some recorded) s1) as Hstep
    by (by apply loop_attempt_fails).
  assert (errors_Is recorded context_Canceled = true) as Hrec.
  { subst recorded. cbn [errors_Is]. rewrite Hc. apply orb_true_r. }
  pose proof (AttemptFails_trace _ _ _ _ _ _ _ _ Hf) as Htr.
  assert (∀ s2 last2,
            FailsThrough (client t) ctx req headers rest s1 (Some recorded)
              s2 last2 →
            FailsThrough (client t) ctx req headers (u :: rest) s last s2 last2
            ∧ result = (defaultValue, Some (aggregate last2),
                        notified t (aggregate last2) s2)
            ∧ trace result.2
              = trace s ++ posts (u :: rest)
                ++ (if errorHandler t is Some _
                    then [Notified (aggregate last2)] else [])) as Hfailed.
  { intros s2 last2 Hrest.
    assert (FailsThrough (client t) ctx req headers (u :: rest) s last s2 last2)
      as Hall by (by eapply FailsThrough_cons).
    split; [done|].
    assert (result = (defaultValue, Some (aggregate last2),
                      notified t (aggregate last2) s2)) as Hres
      by (by apply loop_all_failed).
    split; [done|]. rewrite Hres. cbn [snd]. unfold notified. subst posts.
    cbv beta.
    destruct (errorHandler t); cbn [trace];
      rewrite (FailsThrough_trace _ _ _ _ _ _ _ _ _ Hall);
      [by rewrite <- List.app_assoc|by rewrite !app_nil_r]. }
  assert (is_Some result.1.2 →
          requests (trace result.2)
          = requests (trace s) ++ (evaluateURL <$> u :: rest)) as Hreqs.
  { intros Herr.
    destruct (loop_requests t ctx toggleKey defaultValue req headers
                (u :: rest) last s) as (n & _ & _ & Hall & Hreq).
    fold result in Hall, Hreq. rewrite Hreq, (Hall Herr). by rewrite firstn_all. }
  split; [done|]. split; [|split; [|split; [done|split; [done|split]]]].
  - intros u2 rest2 ->. split; [|split].
    + destruct (attempt_cases (client t) ctx req headers u2 s1)
        as [(err2 & s2 & Hf2)|(evalResp & s2 & Hs2)].
      * left. exists err2, s2. split; [done|]. rewrite Hstep.
        by apply loop_attempt_fails.
      * right. exists evalResp, s2. split; [done|]. rewrite Hstep.
        by apply loop_attempt_succeeds.
    + rewrite Hstep.
      destruct (attempt_cases (client t) ctx req headers u2 s1)
        as [(err2 & s2 & Hf2)|(evalResp & s2 & Hs2)].
      * rewrite (loop_attempt_fails _ _ _ _ _ _ _ _ _ _ _ _ Hf2).
        pose proof (AttemptFails_trace _ _ _ _ _ _ _ _ Hf2) as Htr2.
        destruct (loop_cases t ctx toggleKey defaultValue req headers rest2
                    (Some err2) s2)
          as [(pre & v & post & sa & la & r & sb & _ & Hpre & Hv & ->)
             |(sa & la & Hall & ->)]; cbn [snd].
        -- rewrite (AttemptSucceeds_trace _ _ _ _ _ _ _ _ Hv),
             (FailsThrough_trace _ _ _ _ _ _ _ _ _ Hpre), Htr2, Htr.
           subst posts. cbn [fmap list_fmap].
           rewrite <- !List.app_assoc. by eexists.
        -- unfold notified.
           destruct (errorHandler t); cbn [trace];
             rewrite (FailsThrough_trace _ _ _ _ _ _ _ _ _ Hall), Htr2, Htr;
             subst posts; cbn [fmap list_fmap];
             rewrite <- !List.app_assoc; by eexists.
      * rewrite (loop_attempt_succeeds _ _ _ _ _ _ _ _ _ _ _ _ Hs2). cbn [snd].
        rewrite (AttemptSucceeds_trace _ _ _ _ _ _ _ _ Hs2), Htr.
        subst posts. cbn [fmap list_fmap].
        rewrite <- !List.app_assoc. by exists [].
    + rewrite Hstep.
      destruct (loop_requests t ctx toggleKey defaultValue req headers
                  (u2 :: rest2) (Some recorded) s1)
        as (n & _ & Hpos & _ & Hreq).
      destruct n as [|n]; [by specialize (Hpos ltac:(done)); lia|].
      cbn [take fmap list_fmap] in Hreq. rewrite Hreq, Htr, requests_app.
      cbn [requests]. rewrite <- List.app_assoc. by eexists.
  - intros agg. split.
    + intros Hagg. rewrite Hstep in Hagg.
      destruct (loop_cases t ctx toggleKey defaultValue req headers rest
                  (Some recorded) s1)
        as [(pre & v & post & sa & la & r & sb & _ & _ & _ & Heq)
           |(sa & la & Hall & Heq)]; rewrite Heq in Hagg; [done|].
      exists sa, la. split; [done|]. cbn [fst snd] in Hagg. by simplify_eq.
    + intros (s2 & last2 & Hrest & ->).
      destruct (Hfailed s2 last2 Hrest) as (_ & -> & _). done.
  - intros ->.
    destruct (Hfailed s1 (Some recorded)) as (_ & Hres & _); [constructor|].
    split; [done|]. subst aggregate. unfold Errorf_w. cbn [errors_Is].
    cbn [errors_Is] in Hrec. rewrite Hrec. by rewrite !orb_true_r.
  - intros Hstays.
    destruct (FailsThrough_cancelled (client t) ctx req headers rest Hstays
                s1 recorded Hrec) as (s2 & e' & Hrest & He').
    destruct (Hfailed s2 (Some e') Hrest) as (Hall & Hres & _).
    exists (aggregate (Some e')), s2. split; [done|]. split.
    + subst aggregate. unfold Errorf_w. cbn [errors_Is]. rewrite He'.
      apply orb_true_r.
    + apply (FailsThrough_trace _ _ _ _ _ _ _ _ _ Hall).
Qed.

End Evaluate.

(** ** Construction *)

Section Constructed.
Context `{RT : Runtime}.

(** C5: an explicit, non-empty endpoint list is used as it is, whatever the
    credential; without one, a credential that yields the tenant id t gives
    the tenant's endpoint followed by the global one, and an empty
    credential, or one that yields no tenant id, gives the global endpoint
    alone.  The credential is the configured one, or that of the environment
    when none is configured. *)
Theorem endpoint_resolution (options : list Option) (s0 : Sys) :
  let opts := applyOptions options in
  let t := (New options s0).1.1 in
  (HorizonURLs opts ≠ [] → horizonURLs t = HorizonURLs opts)
  ∧ (HorizonURLs opts = [] →
     ∀ tenant, tenant ≠ "" →
       getOrgIDFromPublicKey (publicAPIKey t) = tenant →
       horizonURLs t = ["https://" +:+ tenant +:+ ".toggle.hyphen.cloud";
                        "https://toggle.hyphen.cloud"])
  ∧ (HorizonURLs opts = [] →
     ∀ tenant secret, tenant ≠ "" →
       strings.IndexByte tenant ":" = None →
       publicAPIKey t
       = "public_" +:+ base64.EncodeToString (tenant +:+ ":" +:+ secret) →
       horizonURLs t = ["https://" +:+ tenant +:+ ".toggle.hyphen.cloud";
                        "https://toggle.hyphen.cloud"])
  ∧ (HorizonURLs opts = [] →
     publicAPIKey t = "" ∨ getOrgIDFromPublicKey (publicAPIKey t) = "" →
     horizonURLs t = ["https://toggle.hyphen.cloud"])
  ∧ publicAPIKey t = (if decide (PublicAPIKey opts = "")
                      then os_Getenv "HYPHEN_PUBLIC_API_KEY" (world s0)
                      else PublicAPIKey opts).
Proof.
  intros opts t. subst t. rewrite New_eq. fold opts.
  cbn [fst horizonURLs publicAPIKey].
  split; [|split; [|split; [|split]]].
  - intros Hne. rewrite decide_False; [done|]. by destruct (HorizonURLs opts).
  - intros -> tenant Hne Horg. cbn [length]. rewrite decide_True by done.
    by apply getDefaultHorizonURLs_tenant.
  - intros -> tenant secret Hne Hcolon Hkey. cbn [length].
    rewrite decide_True by done. apply getDefaultHorizonURLs_tenant; [done|].
    rewrite Hkey. by apply getOrgID_encoded.
  - intros -> Hkey. cbn [length]. rewrite decide_True by done.
    by apply getDefaultHorizonURLs_unknown.
  - done.
Qed.

(** C9: a client that [New] constructed has at least one endpoint, and one or
    two when no explicit list was given.  So a call of [Get] sends at least
    one request, and an aggregate error it returns wraps the failure of an
    attempt, that at the last endpoint. *)
Theorem constructed_client_has_endpoints
    (options : list Option) (s0 : Sys)
    (handler : option (error → World → World))
    (ctx : context_Context) (toggleKey : string) (defaultValue : Value)
    (override : option Context) (s : Sys) :
  let t := SetErrorHandler (New options s0).1.1 handler in
  let req := (buildEvaluationContext t override s).1 in
  let result := Get t ctx toggleKey defaultValue override s in
  horizonURLs t ≠ []
  ∧ (HorizonURLs (applyOptions options) = [] →
     length (horizonURLs t) = 1%nat ∨ length (horizonURLs t) = 2%nat)
  ∧ (∃ url more,
       requests (trace result.2) = requests (trace s) ++ url :: more)
  ∧ (∀ agg, result.1.2 = Some agg →
       ∃ ulast s1 err s2,
         last (horizonURLs t) = Some ulast
         ∧ AttemptFails (client t) ctx req (CreateHeaders (publicAPIKey t))
             ulast s1 err s2
         ∧ agg = Errorf_w "all horizon URLs failed. Last error: " (Some err)
         ∧ Unwrap agg = Some err).
Proof.
  intros t req result.
  assert (horizonURLs t ≠ []) as Hne by apply New_horizonURLs_nonempty.
  split; [done|]. split.
  { intros Hnil. subst t. cbn [SetErrorHandler horizonURLs].
    rewrite New_eq. cbn [fst horizonURLs]. rewrite Hnil. cbn [length].
    rewrite decide_True by done. apply getDefaultHorizonURLs_length. }
  subst result req. rewrite Get_eq.
  set (req := (buildEvaluationContext t override s).1).
  set (s' := (buildEvaluationContext t override s).2).
  assert (trace s' = trace s) as Htr by apply buildEvaluationContext_trace.
  split.
  - destruct (loop_requests t ctx toggleKey defaultValue req
                (CreateHeaders (publicAPIKey t)) (horizonURLs t) None s')
      as (n & _ & Hpos & _ & Hreq).
    rewrite Hreq, Htr. specialize (Hpos Hne).
    destruct (horizonURLs t) as [|u us]; [done|].
    destruct n as [|n]; [lia|]. cbn [take fmap list_fmap]. by eexists _, _.
  - intros agg Hagg.
    destruct (loop_cases t ctx toggleKey defaultValue req
                (CreateHeaders (publicAPIKey t)) (horizonURLs t) None s')
      as [(pre & u & post & s1 & l1 & r & s2 & _ & _ & _ & Heq)
         |(s1 & l1 & Hall & Heq)]; rewrite Heq in Hagg; cbn [fst snd] in Hagg;
      [done|].
    destruct (FailsThrough_last _ _ _ _ _ _ _ _ _ Hall Hne)
      as (pre & ulast & sa & la & err & Hurls & _ & Hlast & ->).
    exists ulast, sa, err, s1. rewrite Hurls, last_snoc.
    by simplify_eq.
Qed.

End Constructed.

(** ** Examples on the scripted runtime *)

(** C8, as stated, fails: with two endpoints and a cancelled context, the
    attempt at the first endpoint fails with [context.Canceled] and the
    second endpoint is tried all the same; the error comes back only after
    that second attempt has failed too. *)
Lemma cancellation_does_not_stop_the_loop : ¬ cancellation_stops_the_loop.
Proof.
  intros H.
  pose proof (H scripted exampleToggle 0%nat "feature-flag" VNil
                exampleRequest (CreateHeaders (publicAPIKey exampleToggle))
                "https://test-org.toggle.hyphen.cloud"
                ["https://toggle.hyphen.cloud"] None
                (startOf [canceledReply; canceledReply]) _ _
                eq_refl eq_refl) as Hstop.
  vm_compute in Hstop. destruct Hstop as [_ Hreq]. discriminate Hreq.
Qed.

Lemma cancelled_attempt_is_recorded_and_next_endpoint_tried_witness :
  (@tryHorizonURLs scripted exampleToggle 0%nat "feature-flag" VNil
     exampleRequest (CreateHeaders (publicAPIKey exampleToggle))
     ["https://test-org.toggle.hyphen.cloud"; "https://toggle.hyphen.cloud"]
     None (startOf [canceledReply; canceledReply]))
  = (VNil,
     Some (wrapError
             ("all horizon URLs failed. Last error: "
              +:+ Error (requestFailed secondaryURL
                           (wrapError "request failed: Post: context canceled"
                              (Some (wrapError "Post: context canceled"
                                       (Some context_Canceled))))))
             (Some (requestFailed secondaryURL
                      (wrapError "request failed: Post: context canceled"
                         (Some (wrapError "Post: context canceled"
                                  (Some context_Canceled))))))),
     afterRequests [] [evaluateURL primaryURL; evaluateURL secondaryURL])
  ∧ ∃ agg s2,
      (@tryHorizonURLs cancelling cancellingToggle 0%nat "feature-flag" VNil
         exampleRequest (CreateHeaders (publicAPIKey cancellingToggle))
         ["https://test-org.toggle.hyphen.cloud"; "https://toggle.hyphen.cloud"]
         None (@Build_Sys cancelling tt []))
      = (VNil, Some agg, s2)
      ∧ errors_Is agg context_Canceled = true
      ∧ trace s2
        = [Requested "POST" "https://test-org.toggle.hyphen.cloud/toggle/evaluate";
           Requested "POST" "https://toggle.hyphen.cloud/toggle/evaluate"].
Proof.
  split.
  - destruct (@cancelled_attempt_is_recorded_and_next_endpoint_tried scripted
                exampleToggle 0%nat "feature-flag" VNil exampleRequest
                (CreateHeaders (publicAPIKey exampleToggle))
                "https://test-org.toggle.hyphen.cloud"
                ["https://toggle.hyphen.cloud"] None
                (startOf [canceledReply; canceledReply])
                (afterRequests [canceledReply] [evaluateURL primaryURL])
                (wrapError "request failed: Post: context canceled"
                   (Some (wrapError "Post: context canceled"
                            (Some context_Canceled)))))
      as (_ & _ & _ & Hfailed & _); [by vm_compute..|].
    destruct (Hfailed
                (afterRequests [] [evaluateURL primaryURL; evaluateURL secondaryURL])
                (Some (requestFailed secondaryURL
                         (wrapError "request failed: Post: context canceled"
                            (Some (wrapError "Post: context canceled"
                                     (Some context_Canceled)))))))
      as (_ & Hres & _).
    { eapply FailsThrough_cons; [|apply FailsThrough_nil].
      apply (TransportFailure _ _ _ _ secondaryURL
               (afterRequests [canceledReply] [evaluateURL primaryURL])
               (wrapError "request failed: Post: context canceled"
                  (Some (wrapError "Post: context canceled"
                           (Some context_Canceled))))
               (afterRequests [] [evaluateURL primaryURL; evaluateURL secondaryURL])).
      by vm_compute. }
    exact Hres.
  - destruct (@cancelled_attempt_is_recorded_and_next_endpoint_tried cancelling
                cancellingToggle 0%nat "feature-flag" VNil exampleRequest
                (CreateHeaders (publicAPIKey cancellingToggle))
                "https://test-org.toggle.hyphen.cloud"
                ["https://toggle.hyphen.cloud"] None
                (@Build_Sys cancelling tt [])
                (@Build_Sys cancelling tt
                   [Requested "POST"
                      "https://test-org.toggle.hyphen.cloud/toggle/evaluate"])
                (wrapError "request failed: Post: context canceled"
                   (Some (wrapError "Post: context canceled"
                            (Some context_Canceled)))))
      as (_ & _ & _ & _ & _ & _ & Hstays); [by vm_compute..|].
    destruct Hstays as (agg & s2 & Hres & Hagg & Htr).
    { intros url [[] tr].
      exists (wrapError "request failed: Post: context canceled"
                (Some (wrapError "Post: context canceled"
                         (Some context_Canceled)))),
             (@Build_Sys cancelling tt (tr ++ [Requested "POST" url])).
      split; by vm_compute. }
    exists agg, s2. split; [|split; [exact Hagg|exact Htr]].
    rewrite Hres. reflexivity.
Defined.

Lemma evaluation_request_has_targeting_key_witness :
  reqTargetingKey exampleRequest = "anApplicationID-development-4037200794235010051".
Proof.
  destruct (@evaluation_request_has_targeting_key scripted
              [WithPublicAPIKey "public_dGVzdC1vcmc6c2VjcmV0";
               WithApplicationID "anApplicationID"]
              (startOf []) None None (startOf [])) as (_ & _ & Hkey).
  exact Hkey.
Defined.

Lemma targeting_key_precedence_witness :
  (@getTargetingKey scripted
     {| TargetingKey := "user-123"; IPAddress := "";
        CtxCustomAttributes := ∅;
        CtxUser := Some {| ID := "u-1"; Email := ""; Name := "";
                           UserCustomAttributes := ∅ |} |}
     "app" "env" (startOf [])).1 = "user-123"
  ∧ (@getTargetingKey scripted
       {| TargetingKey := ""; IPAddress := ""; CtxCustomAttributes := ∅;
          CtxUser := Some {| ID := "u-1"; Email := ""; Name := "";
                             UserCustomAttributes := ∅ |} |}
       "app" "env" (startOf [])).1 = "u-1"
  ∧ (@getTargetingKey scripted
       {| TargetingKey := ""; IPAddress := ""; CtxCustomAttributes := ∅;
          CtxUser := None |}
       "app" "" (startOf [])).1 = "app-4037200794235010051".
Proof.
  split; [|split].
  - destruct (@targeting_key_precedence scripted
                {| TargetingKey := "user-123"; IPAddress := "";
                   CtxCustomAttributes := ∅;
                   CtxUser := Some {| ID := "u-1"; Email := ""; Name := "";
                                      UserCustomAttributes := ∅ |} |}
                "app" "env" (startOf [])) as (H & _).
    by rewrite H.
  - destruct (@targeting_key_precedence scripted
                {| TargetingKey := ""; IPAddress := ""; CtxCustomAttributes := ∅;
                   CtxUser := Some {| ID := "u-1"; Email := ""; Name := "";
                                      UserCustomAttributes := ∅ |} |}
                "app" "env" (startOf [])) as (_ & H & _).
    by rewrite (H eq_refl _ eq_refl).
  - destruct (@targeting_key_precedence scripted
                {| TargetingKey := ""; IPAddress := ""; CtxCustomAttributes := ∅;
                   CtxUser := None |}
                "app" "" (startOf [])) as (_ & _ & H & Hgen & _).
    rewrite (H eq_refl (or_introl eq_refl)), Hgen. reflexivity.
Defined.

Lemma endpoint_resolution_witness :
  horizonURLs exampleToggle
  = ["https://test-org.toggle.hyphen.cloud"; "https://toggle.hyphen.cloud"]
  ∧ horizonURLs (@New scripted [WithPublicAPIKey "public_dGVzdC1vcmc6c2VjcmV0";
                                WithHorizonURLs ["http://localhost:8080"]]
                   (startOf [])).1.1
    = ["http://localhost:8080"]
  ∧ horizonURLs (@New scripted [WithPublicAPIKey "invalid_key"]
                   (startOf [])).1.1
    = ["https://toggle.hyphen.cloud"].
Proof.
  split; [|split].
  - destruct (@endpoint_resolution scripted
                [WithPublicAPIKey "public_dGVzdC1vcmc6c2VjcmV0";
                 WithApplicationID "anApplicationID"] (startOf []))
      as (_ & _ & H & _).
    exact (H eq_refl "test-org" "secret" ltac:(discriminate) eq_refl eq_refl).
  - destruct (@endpoint_resolution scripted
                [WithPublicAPIKey "public_dGVzdC1vcmc6c2VjcmV0";
                 WithHorizonURLs ["http://localhost:8080"]] (startOf []))
      as (H & _).
    exact (H ltac:(discriminate)).
  - destruct (@endpoint_resolution scripted
                [WithPublicAPIKey "invalid_key"] (startOf []))
      as (_ & _ & _ & H & _).
    exact (H eq_refl (or_intror eq_refl)).
Defined.

Lemma endpoint_failure_moves_to_next_endpoint_witness :
  (@Get scripted exampleToggle 0%nat "feature-flag" (VBool false) None
     (startOf [reply 500 "500 Internal Server Error" "oops";
               reply 200 "200 OK" flagOn])).1
  = (VBool true, None).
Proof.
  destruct (@endpoint_failure_moves_to_next_endpoint scripted exampleToggle
              0%nat "feature-flag" (VBool false) None
              (startOf [reply 500 "500 Internal Server Error" "oops";
                        reply 200 "200 OK" flagOn])
              exampleRequest
              (startOf [reply 500 "500 Internal Server Error" "oops";
                        reply 200 "200 OK" flagOn]))
    as (_ & _ & H); [by vm_compute|].
  destruct (H primaryURL secondaryURL
              {| StatusCode := 500; Status := "500 Internal Server Error";
                 Headers := ∅; Body := "oops" |}
              (afterRequests [reply 200 "200 OK" flagOn]
                 [evaluateURL primaryURL])
              {| StatusCode := 200; Status := "200 OK"; Headers := ∅;
                 Body := flagOn |}
              (afterRequests [] [evaluateURL primaryURL; evaluateURL secondaryURL])
              flagOnResponse (flagEntry (VBool true) "boolean"))
    as (HGet & _); [by vm_compute..|].
  by rewrite HGet.
Defined.

Lemma all_endpoints_failed_reports_once_witness :
  (@Get scripted exampleToggleWithHandler 0%nat "any-key" (VBool false) None
     (startOf [])).1.1 = VBool false
  ∧ notifications
      (trace (@Get scripted exampleToggleWithHandler 0%nat "any-key"
                (VBool false) None (startOf [])).2) = 1%nat.
Proof.
  destruct (@all_endpoints_failed_reports_once scripted
              exampleToggleWithHandler 0%nat "any-key" (VBool false) None
              (startOf []) exampleRequest (startOf [])
              (afterRequests [] [evaluateURL primaryURL; evaluateURL secondaryURL])
              (Some (requestFailed secondaryURL refused)))
    as (ulast & s1 & err & _ & _ & _ & HGet & _ & Hh).
  - by vm_compute.
  - discriminate.
  - eapply FailsThrough_cons.
    { apply (TransportFailure _ _ _ _ primaryURL (startOf []) refused
               (afterRequests [] [evaluateURL primaryURL])).
      by vm_compute. }
    eapply FailsThrough_cons; [|apply FailsThrough_nil].
    apply (TransportFailure _ _ _ _ secondaryURL _ refused). by vm_compute.
  - split; [by rewrite HGet|].
    cbn [errorHandler exampleToggleWithHandler SetErrorHandler] in Hh.
    by destruct Hh as (_ & _ & ->).
Defined.

Lemma typed_accessors_fall_back_to_default_witness :
  (@GetBoolean scripted exampleToggle 0%nat "feature-flag" false None
     (startOf [reply 200 "200 OK" flagOn])).1 = true
  ∧ (@GetString scripted exampleToggle 0%nat "feature-flag" "fallback" None
       (startOf [reply 200 "200 OK" flagOn])).1 = "fallback"
  ∧ (@GetBoolean scripted exampleToggle 0%nat "other-flag" true None
       (startOf [reply 200 "200 OK" flagOn])).1 = true
  ∧ (@GetBoolean scripted exampleToggle 0%nat "any-key" false None
       (startOf [])).1 = false
  ∧ (@GetBoolean typed typedToggle 0%nat "flag-bool" false None typedStart).1
    = true
  ∧ (@GetString typed typedToggle 0%nat "flag-text" "fallback" None
       typedStart).1 = "blue"
  ∧ (@GetNumber typed typedToggle 0%nat "flag-number" (S754_zero false) None
       typedStart).1 = S754_finite false 3 (-1)
  ∧ (@GetObject typed typedToggle 0%nat "flag-object" ∅ None typedStart).1
    = {["k" := VBool true]}
  ∧ (@GetString typed typedToggle 0%nat "flag-number" "fallback" None
       typedStart).1 = "fallback".
Proof.
  destruct (@typed_accessors_fall_back_to_default scripted)
    as (HB & HS & _ & _).
  assert (@AttemptSucceeds scripted (client exampleToggle) 0%nat exampleRequest
            (CreateHeaders (publicAPIKey exampleToggle)) primaryURL
            (startOf [reply 200 "200 OK" flagOn]) flagOnResponse
            (afterRequests [] [evaluateURL primaryURL]))
    as Hok.
  { exists {| StatusCode := 200; Status := "200 OK"; Headers := ∅;
              Body := flagOn |}.
    repeat split; by vm_compute. }
  split; [|split; [|split; [|split]]].
  - destruct (HB exampleToggle 0%nat "feature-flag" false None
                (startOf [reply 200 "200 OK" flagOn]) exampleRequest
                (startOf [reply 200 "200 OK" flagOn]))
      as (Hserved & _); [by vm_compute|].
    destruct (Hserved [] primaryURL [secondaryURL]
                (startOf [reply 200 "200 OK" flagOn]) None flagOnResponse
                (afterRequests [] [evaluateURL primaryURL]))
      as (Hvalue & _); [by vm_compute|apply FailsThrough_nil|exact Hok|].
    rewrite (Hvalue (flagEntry (VBool true) "boolean") true);
      [done|by vm_compute..].
  - destruct (HS exampleToggle 0%nat "feature-flag" "fallback" None
                (startOf [reply 200 "200 OK" flagOn]) exampleRequest
                (startOf [reply 200 "200 OK" flagOn]))
      as (Hserved & _); [by vm_compute|].
    destruct (Hserved [] primaryURL [secondaryURL]
                (startOf [reply 200 "200 OK" flagOn]) None flagOnResponse
                (afterRequests [] [evaluateURL primaryURL]))
      as (_ & Hmismatch & _); [by vm_compute|apply FailsThrough_nil|exact Hok|].
    rewrite (Hmismatch (flagEntry (VBool true) "boolean"));
      [done|by vm_compute..].
  - destruct (HB exampleToggle 0%nat "other-flag" true None
                (startOf [reply 200 "200 OK" flagOn]) exampleRequest
                (startOf [reply 200 "200 OK" flagOn]))
      as (Hserved & _); [by vm_compute|].
    destruct (Hserved [] primaryURL [secondaryURL]
                (startOf [reply 200 "200 OK" flagOn]) None flagOnResponse
                (afterRequests [] [evaluateURL primaryURL]))
      as (_ & _ & Habsent); [by vm_compute|apply FailsThrough_nil|exact Hok|].
    rewrite Habsent; [done|by vm_compute].
  - destruct (HB exampleToggle 0%nat "any-key" false None (startOf [])
                exampleRequest (startOf []))
      as (_ & Hfail & _); [by vm_compute|].
    apply (Hfail (afterRequests [] [evaluateURL primaryURL; evaluateURL secondaryURL])
             (Some (requestFailed secondaryURL refused))).
    eapply FailsThrough_cons.
    { apply (TransportFailure _ _ _ _ primaryURL (startOf []) refused
               (afterRequests [] [evaluateURL primaryURL])).
      by vm_compute. }
    eapply FailsThrough_cons; [|apply FailsThrough_nil].
    apply (TransportFailure _ _ _ _ secondaryURL _ refused). by vm_compute.
  - clear HB HS Hok.
    destruct (@typed_accessors_fall_back_to_default typed)
      as (HB & HS & HN & HO).
    assert (@AttemptSucceeds typed (client typedToggle) 0%nat exampleRequest
              (CreateHeaders (publicAPIKey typedToggle)) primaryURL
              typedStart typedFlags typedEnd) as Hok.
    { exists {| StatusCode := 200; Status := "200 OK"; Headers := ∅;
                Body := "{}" |}.
      repeat split; by vm_compute. }
    split; [|split; [|split; [|split]]].
    + destruct (HB typedToggle 0%nat "flag-bool" false None typedStart
                  exampleRequest typedStart) as (Hserved & _); [by vm_compute|].
      destruct (Hserved [] primaryURL [secondaryURL] typedStart None
                  typedFlags typedEnd) as (Hvalue & _);
        [by vm_compute|apply FailsThrough_nil|exact Hok|].
      rewrite (Hvalue (typedEntry "flag-bool" (VBool true) "boolean") true);
        [done|by vm_compute..].
    + destruct (HS typedToggle 0%nat "flag-text" "fallback" None typedStart
                  exampleRequest typedStart) as (Hserved & _); [by vm_compute|].
      destruct (Hserved [] primaryURL [secondaryURL] typedStart None
                  typedFlags typedEnd) as (Hvalue & _);
        [by vm_compute|apply FailsThrough_nil|exact Hok|].
      rewrite (Hvalue (typedEntry "flag-text" (VString "blue") "string")
                 "blue"); [done|by vm_compute..].
    + destruct (HN typedToggle 0%nat "flag-number" (S754_zero false) None
                  typedStart exampleRequest typedStart) as (Hserved & _);
        [by vm_compute|].
      destruct (Hserved [] primaryURL [secondaryURL] typedStart None
                  typedFlags typedEnd) as (Hvalue & _);
        [by vm_compute|apply FailsThrough_nil|exact Hok|].
      rewrite (Hvalue (typedEntry "flag-number"
                         (VNumber (S754_finite false 3 (-1))) "number")
                 (S754_finite false 3 (-1))); [done|by vm_compute..].
    + destruct (HO typedToggle 0%nat "flag-object" ∅ None typedStart
                  exampleRequest typedStart) as (Hserved & _); [by vm_compute|].
      destruct (Hserved [] primaryURL [secondaryURL] typedStart None
                  typedFlags typedEnd) as (Hvalue & _);
        [by vm_compute|apply FailsThrough_nil|exact Hok|].
      rewrite (Hvalue (typedEntry "flag-object"
                         (VObject {["k" := VBool true]}) "object")
                 {["k" := VBool true]}); [done|by vm_compute..].
    + destruct (HS typedToggle 0%nat "flag-number" "fallback" None typedStart
                  exampleRequest typedStart) as (Hserved & _); [by vm_compute|].
      destruct (Hserved [] primaryURL [secondaryURL] typedStart None
                  typedFlags typedEnd) as (_ & Hmismatch & _);
        [by vm_compute|apply FailsThrough_nil|exact Hok|].
      rewrite (Hmismatch (typedEntry "flag-number"
                            (VNumber (S754_finite false 3 (-1))) "number"));
        [done|by vm_compute|by intros a].
Defined.

Lemma constructed_client_has_endpoints_witness :
  horizonURLs exampleToggleWithHandler ≠ [].
Proof.
  destruct (@constructed_client_has_endpoints scripted
              [WithPublicAPIKey "public_dGVzdC1vcmc6c2VjcmV0";
               WithApplicationID "anApplicationID"] (startOf [])
              (Some (λ _ w, w)) 0%nat "any-key" VNil None (startOf []))
    as (H & _).
  exact H.
Defined.

(** The cases of the repository's unit tests (pkg/toggle/toggle_test.go). *)

Example TestGetOrgIDFromPublicKey_valid :
  getOrgIDFromPublicKey "public_dGVzdC1vcmc6c2VjcmV0" = "test-org".
Proof. by vm_compute. Qed.

Example TestGetOrgIDFromPublicKey_invalid :
  getOrgIDFromPublicKey "invalid_key" = "".
Proof. by vm_compute. Qed.

Example TestNew_defaults :
  publicAPIKey exampleToggle = "public_dGVzdC1vcmc6c2VjcmV0"
  ∧ applicationID exampleToggle = "anApplicationID"
  ∧ environment exampleToggle = "development"
  ∧ organizationID exampleToggle = "test-org".
Proof. by vm_compute. Qed.

Example TestGetBoolean_successful :
  (@GetBoolean scripted
     (@New scripted [WithPublicAPIKey "public_dGVzdC1vcmc6c2VjcmV0";
                     WithApplicationID "theApplicationID";
                     WithHorizonURLs ["http://127.0.0.1:8080"]]
        (startOf [])).1.1
     0%nat "feature-flag" false None
     (startOf [reply 200 "200 OK" flagOn])).1 = true.
Proof. by vm_compute. Qed.

Example TestGetBoolean_request_fails :
  (@GetBoolean scripted
     (@New scripted [WithPublicAPIKey "public_dGVzdC1vcmc6c2VjcmV0";
                     WithApplicationID "anApplicationID";
                     WithHorizonURLs ["http://invalid-url-that-does-not-exist.local"]]
        (startOf [])).1.1
     0%nat "aToggleKey" false None (startOf [])).1 = false.
Proof. by vm_compute. Qed.

Example TestGenerateTargetKey :
  (@generateTargetKey scripted "theApp" "theEnv" (startOf [])).1
  = "theApp-theEnv-4037200794235010051".
Proof. by vm_compute. Qed.

Example DecodeString_padding :
  base64.DecodeString "QQ==" = Some "A"
  ∧ base64.DecodeString "QUI=" = Some "AB"
  ∧ base64.DecodeString "QUJD" = Some "ABC"
  ∧ base64.DecodeString "QQ=" = None
  ∧ base64.DecodeString "QQ==QQ==" = None
  ∧ base64.DecodeString "Q" = None.
Proof. by vm_compute. Qed.

(** * Further properties *)

(** ** Key decoder and endpoint resolver *)

Lemma textBefore_no_sep sep s :
  strings.IndexByte (textBefore sep s) sep = None.
Proof.
  induction s as [|c s IH]; simpl; [done|].
  destruct (decide (c = sep)); [done|]. simpl.
  rewrite decide_False by done. by rewrite IH.
Qed.

(** X1: the organization id that [getOrgIDFromPublicKey] returns never holds
    a colon, whatever the key; it is empty when what follows "public_" is
    not valid base64. *)
Theorem org_id_has_no_colon (key : string) :
  strings.IndexByte (getOrgIDFromPublicKey key) ":" = None
  ∧ (∀ payload, key = "public_" +:+ payload →
       base64.DecodeString payload = None →
       getOrgIDFromPublicKey key = "").
Proof.
  split.
  - destruct (strings.HasPrefix key "public_") eqn:Hp.
    + apply HasPrefix_inv in Hp. rewrite Hp, getOrgID_prefixed.
      destruct (base64.DecodeString _); [apply textBefore_no_sep|done].
    + by rewrite getOrgID_no_prefix.
  - intros payload -> Hdec. by rewrite getOrgID_prefixed, Hdec.
Qed.

Lemma org_id_has_no_colon_witness :
  getOrgIDFromPublicKey "public_YTpiOmM=" = "a"
  ∧ getOrgIDFromPublicKey "public_not base64!" = "".
Proof.
  split; [by vm_compute|].
  destruct (org_id_has_no_colon "public_not base64!") as [_ H].
  apply (H "not base64!"); by vm_compute.
Defined.

(** X2: the default endpoints begin with the endpoint [getDefaultHorizonURL]
    computes for the key, end with the global endpoint, and name no endpoint
    twice. *)
Theorem default_endpoints_end_with_global (key : string) :
  head (getDefaultHorizonURLs key) = Some (getDefaultHorizonURL key)
  ∧ last (getDefaultHorizonURLs key) = Some "https://toggle.hyphen.cloud"
  ∧ NoDup (getDefaultHorizonURLs key).
Proof.
  unfold getDefaultHorizonURLs.
  destruct (decide (key = "")) as [->|Hk].
  - split; [done|]. split; [done|]. apply NoDup_singleton.
  - destruct (decide (getDefaultHorizonURL key = "https://toggle.hyphen.cloud"))
      as [Heq|Hne].
    + split; [by rewrite Heq|]. split; [done|]. apply NoDup_singleton.
    + split; [done|]. split; [done|].
      apply NoDup_cons. split; [|apply NoDup_singleton].
      by intros Heq%list_elem_of_singleton.
Qed.

(** ** Construction of the toggle client *)

Section NewProperties.
Context `{RT : Runtime}.

Lemma getTargetingKey_trace ctx app env s :
  trace (getTargetingKey ctx app env s).2 = trace s.
Proof.
  unfold getTargetingKey.
  destruct (decide (TargetingKey ctx = "")); [|done].
  destruct (CtxUser ctx) as [u|]; [|by rewrite generateTargetKey_eq].
  destruct (decide (ID u = "")); [by rewrite generateTargetKey_eq|done].
Qed.

(** X3: [New] never returns an error and sends no request.  The client's
    environment is never empty ("development" unless one is configured), its
    application id is the configured one or else that of the process
    environment, its organization id is decoded from its credential, and it
    has no error handler. *)
Theorem New_never_fails (options : list Option) (s : Sys) :
  let opts := applyOptions options in
  let t := (New options s).1.1 in
  (New options s).1.2 = None
  ∧ trace (New options s).2 = trace s
  ∧ environment t ≠ ""
  ∧ environment t = (if decide (Environment opts = "") then "development"
                     else Environment opts)
  ∧ applicationID t = (if decide (ApplicationID opts = "")
                       then os_Getenv "HYPHEN_APPLICATION_ID" (world s)
                       else ApplicationID opts)
  ∧ organizationID t = getOrgIDFromPublicKey (publicAPIKey t)
  ∧ client t = NewClient ""
  ∧ errorHandler t = None.
Proof.
  intros opts t. subst t. rewrite New_eq. fold opts.
  cbn [fst snd environment applicationID organizationID publicAPIKey client
       errorHandler].
  split; [done|]. split.
  { destruct (decide (DefaultTargetingKey opts = "")); [|done].
    destruct (DefaultContext opts).
    - apply getTargetingKey_trace.
    - by rewrite generateTargetKey_eq. }
  split; [by destruct (decide (Environment opts = ""))|].
  split; [done|]. split; [done|]. split; [|done].
  by destruct (decide (_ = "")) as [->|].
Qed.

(** X4: the default targeting key of a client is the configured one; failing
    that the targeting key of the default context; failing that the id of the
    default context's user; only when none of these is there does [New] draw
    from the random source, once, and generate a key.  In the first three
    cases construction leaves the world as it was. *)
Theorem New_default_targeting_key (options : list Option) (s : Sys) :
  let opts := applyOptions options in
  let t := (New options s).1.1 in
  (DefaultTargetingKey opts ≠ "" →
   defaultTargetingKey t = DefaultTargetingKey opts ∧ (New options s).2 = s)
  ∧ (DefaultTargetingKey opts = "" →
     ∀ c, DefaultContext opts = Some c → TargetingKey c ≠ "" →
          defaultTargetingKey t = TargetingKey c ∧ (New options s).2 = s)
  ∧ (DefaultTargetingKey opts = "" →
     ∀ c u, DefaultContext opts = Some c → TargetingKey c = "" →
            CtxUser c = Some u → ID u ≠ "" →
            defaultTargetingKey t = ID u ∧ (New options s).2 = s)
  ∧ (DefaultTargetingKey opts = "" →
     (DefaultContext opts = None
      ∨ ∃ c, DefaultContext opts = Some c ∧ TargetingKey c = ""
             ∧ (CtxUser c = None ∨ ∃ u, CtxUser c = Some u ∧ ID u = "")) →
     defaultTargetingKey t
     = joinNonEmpty "-" [applicationID t; environment t;
                         pretty (rand_Int63 (world s)).1]
     ∧ (New options s).2
       = {| world := (rand_Int63 (world s)).2; trace := trace s |}).
Proof.
  intros opts t. subst t. rewrite New_eq. fold opts.
  cbn [fst snd defaultTargetingKey applicationID environment].
  split; [|split; [|split]].
  - intros Hk. by rewrite decide_False.
  - intros Hk c -> Hc. rewrite decide_True by done.
    unfold getTargetingKey. by rewrite decide_False.
  - intros Hk c u -> Hc Hu Hid. rewrite decide_True by done.
    unfold getTargetingKey. by rewrite decide_True, Hu, decide_False.
  - intros Hk Hnone. rewrite decide_True by done.
    destruct Hnone as [->|(c & -> & Hc & Hu)].
    + by rewrite generateTargetKey_eq.
    + unfold getTargetingKey. rewrite decide_True by done.
      destruct Hu as [->|(u & -> & Hid)].
      * by rewrite generateTargetKey_eq.
      * rewrite decide_True by done. by rewrite generateTargetKey_eq.
Qed.

End NewProperties.

(** ** Functional options *)

Lemma fold_left_commuting {A : Type} (l1 l2 : list (A → A)) :
  l1 ≡ₚ l2 →
  (∀ f g, f ∈ l1 → g ∈ l1 → ∀ a, f (g a) = g (f a)) →
  ∀ a, fold_left (λ o (f : A → A), f o) l1 a
       = fold_left (λ o (f : A → A), f o) l2 a.
Proof.
  induction 1 as [|f l1 l2 Hp IH|f g l|l1 l2 l3 Hp1 IH1 Hp2 IH2];
    intros Hcomm a; cbn [fold_left].
  - done.
  - apply IH. intros f' g' Hf Hg. apply Hcomm; by apply list_elem_of_further.
  - f_equal. apply Hcomm; set_solver.
  - rewrite IH1 by done. apply IH2.
    intros f g Hf Hg. apply Hcomm; by rewrite Hp1.
Qed.

(** X5: the six options of the toggle client can be given in any order, and
    after any earlier options: the resulting configuration holds the six
    values given last. *)
Theorem options_apply_in_any_order (earlier l : list Option)
    (key app env : string) (dctx : option Context) (urls : list string)
    (dkey : string) :
  l ≡ₚ [WithPublicAPIKey key; WithApplicationID app; WithEnvironment env;
        WithDefaultContext dctx; WithHorizonURLs urls;
        WithDefaultTargetingKey dkey] →
  applyOptions (earlier ++ l)
  = {| PublicAPIKey := key; ApplicationID := app; Environment := env;
       DefaultContext := dctx; HorizonURLs := urls;
       DefaultTargetingKey := dkey |}.
Proof.
  intros Hp. unfold applyOptions. rewrite fold_left_app.
  rewrite (fold_left_commuting l _ Hp); [done|].
  intros f g Hf Hg o. rewrite Hp in Hf, Hg.
  rewrite !elem_of_cons, elem_of_nil in Hf, Hg.
  destruct Hf as [->|[->|[->|[->|[->|[->|[]]]]]]];
    destruct Hg as [->|[->|[->|[->|[->|[->|[]]]]]]]; done.
Qed.

Lemma options_apply_in_any_order_witness :
  applyOptions [WithEnvironment "staging"; WithHorizonURLs ["http://a"];
                WithDefaultTargetingKey "k"; WithHorizonURLs [];
                WithDefaultContext None; WithEnvironment "production";
                WithApplicationID "app"; WithPublicAPIKey "public_x"]
  = {| PublicAPIKey := "public_x"; ApplicationID := "app";
       Environment := "production"; DefaultContext := None;
       HorizonURLs := []; DefaultTargetingKey := "k" |}.
Proof.
  apply (options_apply_in_any_order
           [WithEnvironment "staging"; WithHorizonURLs ["http://a"]]
           [WithDefaultTargetingKey "k"; WithHorizonURLs [];
            WithDefaultContext None; WithEnvironment "production";
            WithApplicationID "app"; WithPublicAPIKey "public_x"]).
  symmetry.
  exact (Permutation_rev
           [WithPublicAPIKey "public_x"; WithApplicationID "app";
            WithEnvironment "production"; WithDefaultContext None;
            WithHorizonURLs []; WithDefaultTargetingKey "k"]).
Defined.

(** ** Evaluation *)

Section GetProperties.
Context `{RT : Runtime}.

Lemma buildEvaluationContext_handler t handler override s :
  buildEvaluationContext (SetErrorHandler t handler) override s
  = buildEvaluationContext t override s.
Proof. reflexivity. Qed.

Lemma loop_handler_irrelevant t handler ctx toggleKey defaultValue req headers
    urls lastErr s :
  let r := tryHorizonURLs t ctx toggleKey defaultValue req headers urls lastErr s in
  let r' := tryHorizonURLs (SetErrorHandler t handler) ctx toggleKey
              defaultValue req headers urls lastErr s in
  r'.1 = r.1
  ∧ requests (trace r'.2) = requests (trace r.2)
  ∧ (r.1.2 = None → r'.2 = r.2).
Proof.
  intros r r'. subst r r'.
  destruct (loop_cases t ctx toggleKey defaultValue req headers urls lastErr s)
    as [(pre & u & post & s1 & l1 & resp & s2 & -> & Hpre & Hu & ->)
       |(s1 & l1 & Hall & ->)].
  - rewrite (loop_fails_through (SetErrorHandler t handler)
               _ _ _ _ _ _ _ _ _ _ _ Hpre).
    by rewrite (loop_attempt_succeeds (SetErrorHandler t handler)
                  _ _ _ _ _ _ _ _ _ _ _ Hu).
  - assert (tryHorizonURLs (SetErrorHandler t handler) ctx toggleKey
              defaultValue req headers urls lastErr s
            = (defaultValue,
               Some (Errorf_w "all horizon URLs failed. Last error: " l1),
               notified (SetErrorHandler t handler)
                 (Errorf_w "all horizon URLs failed. Last error: " l1) s1))
      as ->.
    { rewrite <- (app_nil_r urls).
      rewrite (loop_fails_through (SetErrorHandler t handler)
                 _ _ _ _ _ _ _ _ _ _ _ Hall).
      apply loop_exhausted. }
    cbn [fst snd]. split; [done|]. split; [|done].
    by rewrite (proj2 (notified_counts (SetErrorHandler t handler) _ _)),
      (proj2 (notified_counts t _ _)).
Qed.

(** X6: the error handler has no say in the outcome.  With any handler set,
    or none, [Get] returns the same value and the same error after the same
    requests, and when no error is returned the run ends in the same
    state. *)
Theorem error_handler_does_not_change_outcome
    (t : Toggle) (handler : option (error → World → World))
    (ctx : context_Context) (toggleKey : string) (defaultValue : Value)
    (override : option Context) (s : Sys) :
  let r := Get t ctx toggleKey defaultValue override s in
  let r' := Get (SetErrorHandler t handler) ctx toggleKey defaultValue
              override s in
  r'.1 = r.1
  ∧ requests (trace r'.2) = requests (trace r.2)
  ∧ (r.1.2 = None → r'.2 = r.2).
Proof.
  intros r r'. subst r r'. rewrite !Get_eq, buildEvaluationContext_handler.
  apply loop_handler_irrelevant.
Qed.

(** X7: [Get] calls the error handler at most once, and exactly when a
    handler is set and an error is returned.  An error is always the
    aggregate error, comes with the caller's default as value, and is the
    last thing the handler was told. *)
Theorem handler_called_exactly_when_error
    (t : Toggle) (ctx : context_Context) (toggleKey : string)
    (defaultValue : Value) (override : option Context) (s : Sys) :
  let r := Get t ctx toggleKey defaultValue override s in
  notifications (trace r.2)
  = (notifications (trace s)
     + match r.1.2, errorHandler t with
       | Some _, Some _ => 1
       | _, _ => 0
       end)%nat
  ∧ (∀ agg, r.1.2 = Some agg →
       r.1.1 = defaultValue
       ∧ (∃ lastErr,
            agg = Errorf_w "all horizon URLs failed. Last error: " lastErr)
       ∧ (is_Some (errorHandler t) →
          ∃ tr, trace r.2 = tr ++ [Notified agg])).
Proof.
  intros r. subst r. rewrite Get_eq.
  pose proof (buildEvaluationContext_trace t override s) as Htr.
  destruct (loop_cases t ctx toggleKey defaultValue
              (buildEvaluationContext t override s).1
              (CreateHeaders (publicAPIKey t)) (horizonURLs t) None
              (buildEvaluationContext t override s).2)
    as [(pre & u & post & s1 & l1 & resp & s2 & _ & Hpre & Hu & ->)
       |(s1 & l1 & Hall & ->)]; cbn [fst snd].
  - destruct (FailsThrough_counts _ _ _ _ _ _ _ _ _ Hpre) as [Hn1 _].
    destruct (AttemptSucceeds_counts _ _ _ _ _ _ _ _ Hu) as [Hn2 _].
    split; [rewrite Hn2, Hn1, Htr; lia|]. by intros agg [=].
  - destruct (FailsThrough_counts _ _ _ _ _ _ _ _ _ Hall) as [Hn1 _].
    split.
    + rewrite (proj1 (notified_counts _ _ _)), Hn1, Htr.
      by destruct (errorHandler t).
    + intros agg [= <-]. split; [done|]. split; [by eexists|].
      intros [handler Hh]. unfold notified. rewrite Hh. cbn [trace].
      by eexists.
Qed.

(** When the evaluation request cannot be encoded, [Post] stops before it
    reaches the HTTP client, and so does every attempt. *)
Lemma Post_marshal_fails c ctx url req headers s cause :
  json_Marshal req = inl cause →
  Post c ctx url req headers s
  = (inl (Errorf_w "failed to marshal request body: " (Some cause)),
     {| world := world s; trace := trace s ++ [Requested "POST" url] |}).
Proof. intros H. unfold Post, do, bind, emit, ret. by rewrite H. Qed.

Lemma FailsThrough_marshal c ctx req headers cause urls :
  json_Marshal req = inl cause →
  ∀ s last, ∃ s' last',
    FailsThrough c ctx req headers urls s last s' last'
    ∧ world s' = world s.
Proof.
  intros Hm. induction urls as [|u urls IH]; intros s last.
  - exists s, last. split; [constructor|done].
  - pose proof (Post_marshal_fails c ctx (evaluateURL u) req headers s cause Hm)
      as HP.
    destruct (IH {| world := world s;
                    trace := trace s ++ [Requested "POST" (evaluateURL u)] |}
                (Some (wrapError
                         ("request to " +:+ u +:+ " failed: "
                          +:+ Error (Errorf_w "failed to marshal request body: "
                                       (Some cause)))
                         (Some (Errorf_w "failed to marshal request body: "
                                  (Some cause))))))
      as (s' & last' & HF & Hw).
    exists s', last'. split; [|done].
    eapply FailsThrough_cons; [|exact HF]. by apply TransportFailure.
Qed.

(** X8: [Get] calls [Post] of its HTTP client for an initial stretch of the
    configured endpoints, in their order, once each and with the method POST
    and the evaluation URL of the endpoint: for all of them when it returns
    an error, and for at least one when it does not.  These calls, and after
    them the word to the error handler, are all that the run adds to the
    trace.  A call of [Post] is not yet a request on the network: when the
    evaluation request cannot be encoded, [Post] is still called for every
    endpoint, an error is returned, and nothing reaches the HTTP client, the
    world being as it was (when no handler is set). *)
Theorem calls_follow_endpoint_order
    (t : Toggle) (ctx : context_Context) (toggleKey : string)
    (defaultValue : Value) (override : option Context) (s : Sys) :
  let r := Get t ctx toggleKey defaultValue override s in
  let built := buildEvaluationContext t override s in
  (∃ n, (n ≤ length (horizonURLs t))%nat
        ∧ trace r.2
          = trace s
            ++ ((λ u, Requested "POST" (evaluateURL u))
                  <$> take n (horizonURLs t))
            ++ match r.1.2, errorHandler t with
               | Some agg, Some _ => [Notified agg]
               | _, _ => []
               end
        ∧ requests (trace r.2)
          = requests (trace s) ++ (evaluateURL <$> take n (horizonURLs t))
        ∧ (is_Some r.1.2 → n = length (horizonURLs t))
        ∧ (r.1.2 = None → (0 < n)%nat))
  ∧ (∀ cause, json_Marshal built.1 = inl cause →
       is_Some r.1.2
       ∧ (errorHandler t = None → world r.2 = world built.2)).
Proof.
  intros r built. subst r built. rewrite Get_eq.
  pose proof (buildEvaluationContext_trace t override s) as Htr.
  split.
  - destruct (loop_cases t ctx toggleKey defaultValue
                (buildEvaluationContext t override s).1
                (CreateHeaders (publicAPIKey t)) (horizonURLs t) None
                (buildEvaluationContext t override s).2)
      as [(pre & u & post & s1 & l1 & resp & s2 & Hurls & Hpre & Hu & ->)
         |(s1 & l1 & Hall & ->)]; cbn [fst snd].
    + exists (S (length pre)). rewrite Hurls, length_app. cbn [length].
      split; [lia|].
      assert (take (S (length pre)) (pre ++ u :: post) = pre ++ [u]) as ->.
      { replace (S (length pre)) with (length (pre ++ [u]))
          by (rewrite length_app; cbn; lia).
        by rewrite (cons_middle u pre post), List.app_assoc, take_app_length. }
      split; [|split; [|split; [by intros [? [=]]|intros _; lia]]].
      * rewrite (AttemptSucceeds_trace _ _ _ _ _ _ _ _ Hu),
          (FailsThrough_trace _ _ _ _ _ _ _ _ _ Hpre), Htr, fmap_app.
        cbn [fmap list_fmap]. by rewrite app_nil_r, <- !List.app_assoc.
      * destruct (FailsThrough_counts _ _ _ _ _ _ _ _ _ Hpre) as [_ H1].
        destruct (AttemptSucceeds_counts _ _ _ _ _ _ _ _ Hu) as [_ H2].
        rewrite H2, H1, Htr, fmap_app. by rewrite <- List.app_assoc.
    + exists (length (horizonURLs t)). rewrite firstn_all.
      split; [done|]. split; [|split; [|split; [done|by intros [=]]]].
      * unfold notified.
        destruct (errorHandler t); cbn [trace];
          rewrite (FailsThrough_trace _ _ _ _ _ _ _ _ _ Hall), Htr;
          [by rewrite <- List.app_assoc|by rewrite !app_nil_r].
      * destruct (FailsThrough_counts _ _ _ _ _ _ _ _ _ Hall) as [_ H1].
        by rewrite (proj2 (notified_counts _ _ _)), H1, Htr.
  - intros cause Hm.
    destruct (FailsThrough_marshal (client t) ctx
                (buildEvaluationContext t override s).1
                (CreateHeaders (publicAPIKey t)) cause (horizonURLs t) Hm
                (buildEvaluationContext t override s).2 None)
      as (s' & last' & HF & Hw).
    rewrite (loop_all_failed _ _ _ _ _ _ _ _ _ _ _ HF). cbn [fst snd].
    split; [by eexists|]. intros Hh. unfold notified. by rewrite Hh.
Qed.

(** X9: a client without endpoints, such as the zero value of [Toggle],
    sends nothing: [Get] returns the default with an aggregate error that
    wraps no error at all. *)
Theorem Get_without_endpoints
    (t : Toggle) (ctx : context_Context) (toggleKey : string)
    (defaultValue : Value) (override : option Context) (s : Sys) :
  horizonURLs t = [] →
  let r := Get t ctx toggleKey defaultValue override s in
  r.1 = (defaultValue,
         Some (wrapError "all horizon URLs failed. Last error: %!w(<nil>)"
                 None))
  ∧ requests (trace r.2) = requests (trace s)
  ∧ (errorHandler t = None → r.2 = (buildEvaluationContext t override s).2).
Proof.
  intros Hnil r. subst r. rewrite Get_eq, Hnil, loop_exhausted.
  cbv zeta. cbn [fst snd]. split; [done|].
  rewrite (proj2 (notified_counts _ _ _)), buildEvaluationContext_trace.
  split; [done|]. intros Hh. unfold notified. by rewrite Hh.
Qed.

(** X10: what [errors.Is] finds in the transport error of the last endpoint,
    a cancelled or expired context for one, it finds in the error [Get]
    returns when all endpoints have failed. *)
Theorem last_transport_error_shows_in_returned_error
    (t : Toggle) (ctx : context_Context) (toggleKey : string)
    (defaultValue : Value) (override : option Context) (s : Sys)
    (req : toggleEvaluation) (s0 : Sys)
    (pre : list string) (ulast : string) (s1 : Sys) (last1 : option error)
    (err : error) (s2 : Sys) (target : error) :
  buildEvaluationContext t override s = (req, s0) →
  horizonURLs t = pre ++ [ulast] →
  FailsThrough (client t) ctx req (CreateHeaders (publicAPIKey t)) pre
    s0 None s1 last1 →
  Post (client t) ctx (evaluateURL ulast) req (CreateHeaders (publicAPIKey t)) s1
  = (inl err, s2) →
  errors_Is err target = true →
  ∃ agg, (Get t ctx toggleKey defaultValue override s).1
         = (defaultValue, Some agg)
         ∧ errors_Is agg target = true.
Proof.
  intros Hbuild Hurls Hpre HP His.
  assert (FailsThrough (client t) ctx req (CreateHeaders (publicAPIKey t))
            (horizonURLs t) s0 None s2
            (Some (wrapError ("request to " +:+ ulast +:+ " failed: "
                              +:+ Error err) (Some err)))) as Hall.
  { rewrite Hurls. eapply FailsThrough_app; [exact Hpre|].
    eapply FailsThrough_cons; [|apply FailsThrough_nil].
    by apply TransportFailure. }
  rewrite (Get_all_failed _ _ _ _ _ _ _ _ _ _ Hbuild Hall). cbn [fst].
  eexists. split; [done|].
  unfold Errorf_w. cbn [errors_Is]. rewrite His. by rewrite !orb_true_r.
Qed.

End GetProperties.

(** ** Request URL and request context *)

Lemma HasSuffix_app s suffix : strings.HasSuffix (s +:+ suffix) suffix = true.
Proof.
  unfold strings.HasSuffix. rewrite app_length.
  replace (String.length s + String.length suffix - String.length suffix)%nat
    with (String.length s) by lia.
  rewrite drop_app. rewrite !bool_decide_eq_true_2; [done..|lia].
Qed.

Lemma TrimSuffix_app s suffix : strings.TrimSuffix (s +:+ suffix) suffix = s.
Proof.
  unfold strings.TrimSuffix. rewrite HasSuffix_app, app_length.
  replace (String.length s + String.length suffix - String.length suffix)%nat
    with (String.length s) by lia.
  apply take_app.
Qed.

(** X11: an endpoint written with one trailing slash and the same endpoint
    written without it give the same request URL: the base, then
    "/toggle/evaluate".  Only one slash is taken off. *)
Theorem evaluateURL_ignores_one_trailing_slash (base : string) :
  evaluateURL (base +:+ "/") = base +:+ "/toggle/evaluate"
  ∧ (strings.HasSuffix base "/" = false →
     evaluateURL base = base +:+ "/toggle/evaluate"
     ∧ evaluateURL (base +:+ "/") = evaluateURL base).
Proof.
  unfold evaluateURL. rewrite TrimSuffix_app. split; [done|].
  intros Hs. unfold strings.TrimSuffix. by rewrite Hs.
Qed.

Lemma evaluateURL_ignores_one_trailing_slash_witness :
  evaluateURL "https://toggle.hyphen.cloud/"
  = "https://toggle.hyphen.cloud/toggle/evaluate"
  ∧ evaluateURL "https://toggle.hyphen.cloud"
    = "https://toggle.hyphen.cloud/toggle/evaluate"
  ∧ evaluateURL "https://toggle.hyphen.cloud//"
    = "https://toggle.hyphen.cloud//toggle/evaluate".
Proof.
  destruct (evaluateURL_ignores_one_trailing_slash "https://toggle.hyphen.cloud")
    as [H1 H2].
  destruct (evaluateURL_ignores_one_trailing_slash "https://toggle.hyphen.cloud/")
    as [H3 _].
  split; [exact H1|]. split; [|exact H3].
  apply H2. by vm_compute.
Defined.

Section RequestProperties.
Context `{RT : Runtime}.

(** X12: a context passed with the call replaces the default context as a
    whole.  The request takes its IP address, attributes and user from the
    context of the call and nothing from the default context or the default
    targeting key; application and environment are always the client's.
    Without a context of the call the default context stands in for it, and
    with neither the request carries the default targeting key alone. *)
Theorem override_replaces_default_context
    (t : Toggle) (c : Context) (s : Sys) :
  (buildEvaluationContext t (Some c) s).1
  = {| reqApplication := applicationID t;
       reqEnvironment := environment t;
       reqTargetingKey :=
         if decide (TargetingKey c = "")
         then (getTargetingKey c (applicationID t) (environment t) s).1
         else TargetingKey c;
       reqIPAddress := IPAddress c;
       reqCustomAttributes := CtxCustomAttributes c;
       reqUser := CtxUser c |}
  ∧ (defaultContext t = Some c →
     buildEvaluationContext t None s = buildEvaluationContext t (Some c) s)
  ∧ (defaultContext t = None →
     buildEvaluationContext t None s
     = ({| reqApplication := applicationID t;
           reqEnvironment := environment t;
           reqTargetingKey := defaultTargetingKey t;
           reqIPAddress := "";
           reqCustomAttributes := ∅;
           reqUser := None |}, s)).
Proof.
  split; [|split].
  - unfold buildEvaluationContext, bind, ret. cbn [reqTargetingKey].
    destruct (decide (TargetingKey c = "")) as [Hk|Hk]; [|by destruct c].
    destruct (getTargetingKey c (applicationID t) (environment t) s). done.
  - intros Hd. unfold buildEvaluationContext. by rewrite Hd.
  - intros Hd. unfold buildEvaluationContext, bind, ret. rewrite Hd.
    cbn [reqTargetingKey]. by rewrite decide_True.
Qed.

(** X13: building the request leaves the world as it was when there is no
    active context or the active context has a targeting key or a user id.
    When it has neither, every call draws once from the random source and
    generates a key of its own; the default targeting key of the client is
    not used. *)
Theorem request_key_is_generated_per_call
    (t : Toggle) (override : option Context) (s : Sys) :
  let active := match override with
                | Some c => Some c
                | None => defaultContext t
                end in
  let r := buildEvaluationContext t override s in
  (active = None → r.2 = s)
  ∧ (∀ c, active = Some c → TargetingKey c ≠ "" → r.2 = s)
  ∧ (∀ c u, active = Some c → CtxUser c = Some u → ID u ≠ "" → r.2 = s)
  ∧ (∀ c, active = Some c → TargetingKey c = "" →
          (CtxUser c = None ∨ ∃ u, CtxUser c = Some u ∧ ID u = "") →
          reqTargetingKey r.1
          = joinNonEmpty "-" [applicationID t; environment t;
                              pretty (rand_Int63 (world s)).1]
          ∧ r.2 = {| world := (rand_Int63 (world s)).2; trace := trace s |}).
Proof.
  intros active r. subst active r. unfold buildEvaluationContext, bind, ret.
  destruct (match override with Some c => Some c | None => defaultContext t end)
    as [c|]; cbn [reqTargetingKey].
  - split; [done|]. split; [|split].
    + intros ? [= <-] Hk. by rewrite decide_False.
    + intros ? u [= <-] Hu Hid. unfold getTargetingKey.
      destruct (decide (TargetingKey c = "")); [|done].
      by rewrite Hu, decide_False.
    + intros ? [= <-] Hk Hu. rewrite decide_True by done.
      unfold getTargetingKey. rewrite decide_True by done.
      destruct Hu as [->|(u & -> & Hid)]; [|rewrite decide_True by done];
        by rewrite generateTargetKey_eq.
  - split; [by rewrite decide_True|]. by repeat split.
Qed.

Lemma joinNonEmpty_last app env x :
  x ≠ "" →
  joinNonEmpty "-" [app; env; x]
  = ((if decide (app = "") then "" else app +:+ "-")
     +:+ (if decide (env = "") then "" else env +:+ "-")) +:+ x.
Proof.
  intros Hx. unfold joinNonEmpty. rewrite !filter_cons, filter_nil.
  repeat case_decide; simplify_eq; cbn [strings.Join strings.joinRest];
    rewrite ?app_empty_r, ?app_assoc; done.
Qed.

(** X14: generated targeting keys differ whenever the random source returns
    different integers (for the same application id and environment). *)
Theorem generated_keys_differ (app env : string) (s1 s2 : Sys) :
  (rand_Int63 (world s1)).1 ≠ (rand_Int63 (world s2)).1 →
  (generateTargetKey app env s1).1 ≠ (generateTargetKey app env s2).1.
Proof.
  intros Hne. rewrite !generateTargetKey_eq. cbn [fst].
  rewrite !joinNonEmpty_last by apply pretty_Z_nonempty.
  intros Heq%(inj (String.app _)). by apply (inj pretty) in Heq.
Qed.

End RequestProperties.

(** ** The HTTP client *)

Section ClientProperties.
Context `{RT : Runtime}.

(** X15: when the body cannot be marshalled, or the request cannot be
    created, [do] returns an error that wraps the cause and does not reach
    the network: the world is as it was. *)
Theorem do_fails_before_the_network {B : Type} (marshal : B → error + string)
    (c : Client) (ctx : context_Context) (method url : string)
    (body : option B) (headers : gmap string string) (s : Sys) :
  let r := doWith marshal c ctx method url body headers s in
  (∀ b cause, body = Some b → marshal b = inl cause →
     r.1 = inl (Errorf_w "failed to marshal request body: " (Some cause))
     ∧ world r.2 = world s)
  ∧ (∀ b data cause, body = Some b → marshal b = inr data →
       http_NewRequestWithContext ctx method url (Some data) = Some cause →
       r.1 = inl (Errorf_w "failed to create request: " (Some cause))
       ∧ world r.2 = world s)
  ∧ (∀ cause, body = None →
       http_NewRequestWithContext ctx method url None = Some cause →
       r.1 = inl (Errorf_w "failed to create request: " (Some cause))
       ∧ world r.2 = world s).
Proof.
  intros r. subst r. unfold doWith, bind, emit, ret. cbn [world trace].
  split; [|split].
  - intros b cause -> ->. done.
  - intros b data cause -> -> ->. done.
  - intros cause -> ->. done.
Qed.

(** X16: [do] records one call.  An error it returns wraps its cause, so
    that [errors.Is] finds in it what it finds in the cause.  A response it
    returns comes from one round trip with a request of the given context,
    method and URL; the response has the status code, status text, headers
    and body that came back, whatever the status code: [do] does not judge
    the status.  [Post] of the toggle client is [do] with the encoder of the
    evaluation request. *)
Theorem do_round_trip {B : Type} (marshal : B → error + string)
    (c : Client) (ctx : context_Context) (method url : string)
    (body : option B) (headers : gmap string string) (s : Sys) :
  let r := doWith marshal c ctx method url body headers s in
  trace r.2 = trace s ++ [Requested method url]
  ∧ (∀ err, r.1 = inl err →
       ∃ cause, Unwrap err = Some cause
                ∧ ∀ target, errors_Is cause target = true →
                            errors_Is err target = true)
  ∧ (∀ resp, r.1 = inr resp →
       ∃ req raw,
         httpClient_Do c req (world s) = (inr raw, world r.2)
         ∧ reqCtx req = ctx ∧ reqMethod req = method ∧ reqURL req = url
         ∧ rawBody raw = inr (Body resp)
         ∧ StatusCode resp = rawStatusCode raw
         ∧ Status resp = rawStatus raw
         ∧ Headers resp = rawHeader raw)
  ∧ (∀ evalBody : toggleEvaluation,
       Post c ctx url evalBody headers
       = doWith json_Marshal c ctx "POST" url (Some evalBody) headers).
Proof.
  intros r. subst r.
  assert (∀ prefix cause target,
            errors_Is cause target = true →
            errors_Is (Errorf_w prefix (Some cause)) target = true) as Hwrap.
  { intros prefix cause target H. unfold Errorf_w. cbn [errors_Is].
    rewrite H. apply orb_true_r. }
  unfold doWith, bind, emit, liftWorld, ret. cbn [world trace].
  split; [|split; [|split; [|done]]].
  - destruct (match body with
              | Some b => match marshal b with
                          | inl err => inl err
                          | inr jsonData => inr (Some jsonData)
                          end
              | None => inr None
              end) as [e|reqBody_]; [done|].
    destruct (http_NewRequestWithContext ctx method url reqBody_); [done|].
    match goal with |- context [httpClient_Do ?c ?q ?w] =>
      destruct (httpClient_Do c q w) as [[e|raw] w'] end; [done|].
    by destruct (rawBody raw).
  - intros err.
    destruct (match body with
              | Some b => match marshal b with
                          | inl err => inl err
                          | inr jsonData => inr (Some jsonData)
                          end
              | None => inr None
              end) as [e|reqBody_];
      [intros [= <-]; eexists; split; [done|]; apply Hwrap|].
    destruct (http_NewRequestWithContext ctx method url reqBody_);
      [intros [= <-]; eexists; split; [done|]; apply Hwrap|].
    match goal with |- context [httpClient_Do ?c ?q ?w] =>
      destruct (httpClient_Do c q w) as [[e|raw] w'] end;
      [intros [= <-]; eexists; split; [done|]; apply Hwrap|].
    destruct (rawBody raw);
      [intros [= <-]; eexists; split; [done|]; apply Hwrap|done].
  - intros resp.
    destruct (match body with
              | Some b => match marshal b with
                          | inl err => inl err
                          | inr jsonData => inr (Some jsonData)
                          end
              | None => inr None
              end) as [e|reqBody_]; [done|].
    destruct (http_NewRequestWithContext ctx method url reqBody_); [done|].
    match goal with |- context [httpClient_Do ?c ?q ?w] =>
      destruct (httpClient_Do c q w) as [[e|raw] w'] eqn:HDo end; [done|].
    destruct (rawBody raw) as [e|respBody] eqn:Hbody; [done|].
    cbn [fst snd world]. intros [= <-].
    eexists _, raw. split; [exact HDo|]. by cbn.
Qed.

End ClientProperties.

(** ** The NetInfo client *)

Section NetInfoProperties.
Context `{RT : Runtime}.

Lemma doWith_trace {B : Type} (marshal : B → error + string) c ctx method url
    body headers s :
  trace (doWith marshal c ctx method url body headers s).2
  = trace s ++ [Requested method url].
Proof.
  unfold doWith, bind, emit, liftWorld, ret. cbn [world trace].
  destruct (match body with
            | Some b => match marshal b with
                        | inl err => inl err
                        | inr jsonData => inr (Some jsonData)
                        end
            | None => inr None
            end) as [e|reqBody_]; [done|].
  destruct (http_NewRequestWithContext ctx method url reqBody_); [done|].
  match goal with |- context [httpClient_Do ?c ?q ?w] =>
    destruct (httpClient_Do c q w) as [[e|raw] w'] end; [done|].
  by destruct (rawBody raw).
Qed.

Lemma netinfo_emitError_trace (n : netinfo.NetInfo) err s :
  trace (netinfo.emitError n err s).2
  = trace s ++ match netinfo.errorHandler n with
               | Some _ => [Notified err]
               | None => []
               end.
Proof.
  unfold netinfo.emitError. destruct (netinfo.errorHandler n); [done|].
  cbn. by rewrite app_nil_r.
Qed.

(** X17: [netinfo.New] fails exactly when the API key, taken from the option
    or else from HYPHEN_API_KEY, is empty or starts with "public_".  It
    changes nothing; the client it returns holds that key, has a base URI
    that is never empty (https://net.info unless one is configured), an HTTP
    client for that base URI and no error handler. *)
Theorem netinfo_New_requires_private_key
    (options : list netinfo.Option) (s : Sys) :
  let opts := netinfo.applyOptions options in
  let key := if decide (netinfo.APIKey opts = "")
             then os_Getenv "HYPHEN_API_KEY" (world s)
             else netinfo.APIKey opts in
  let r := netinfo.New options s in
  r.2 = s
  ∧ ((∃ err, r.1 = inl err)
     ↔ key = "" ∨ strings.HasPrefix key "public_" = true)
  ∧ (∀ n, r.1 = inr n →
       netinfo.apiKey n = key
       ∧ netinfo.baseURI n = (if decide (netinfo.BaseURI opts = "")
                              then "https://net.info"
                              else netinfo.BaseURI opts)
       ∧ netinfo.baseURI n ≠ ""
       ∧ netinfo.client n = NewClient (netinfo.baseURI n)
       ∧ netinfo.errorHandler n = None).
Proof.
  intros opts key r. subst r key. unfold netinfo.New, bind, ret, readWorld.
  fold opts.
  destruct (decide (netinfo.APIKey opts = "")) as [Ha|Ha];
    match goal with |- context [decide (?k = "")] =>
      destruct (decide (k = "")) as [Hk|Hk];
      [|destruct (strings.HasPrefix k "public_") eqn:Hp]
    end; cbn [fst snd];
    (split; [done|]); (split; [|try done]);
    try (split; [by intros [? ?]|by intros [?|?]]);
    try (split; [by auto|by eexists]);
    try (intros n [= <-]; cbn; repeat split;
         by destruct (decide (netinfo.BaseURI opts = ""))).
Qed.

Section Codecs.
Variable json_Unmarshal_IPInfo : string → error + netinfo.IPInfo.
Variable json_Unmarshal_IPInfos : string → error + list Value.
Variable json_Marshal_strings : list string → error + string.

(** X18: [GetIPInfo] makes one GET call, for the base URI without a trailing
    slash followed by /ip/ and the address, and tells the error handler, if
    there is one, exactly the error it returns.  It returns the decoded
    record exactly when the call was answered with status 200 and a body that
    decodes. *)
Theorem GetIPInfo_one_call (n : netinfo.NetInfo) (ctx : context_Context)
    (ip : string) (s : Sys) :
  let url := strings.TrimSuffix (netinfo.baseURI n) "/" +:+ "/ip/" +:+ ip in
  let r := netinfo.GetIPInfo json_Unmarshal_IPInfo n ctx ip s in
  trace r.2
  = trace s ++ Requested "GET" url
               :: match r.1, netinfo.errorHandler n with
                  | inl err, Some _ => [Notified err]
                  | _, _ => []
                  end
  ∧ (∀ info, r.1 = inr info
       ↔ ∃ resp s', Client_Get (netinfo.client n) ctx url
                      (CreateHeaders (netinfo.apiKey n)) s = (inr resp, s')
                    ∧ StatusCode resp = 200
                    ∧ json_Unmarshal_IPInfo (Body resp) = inr info).
Proof.
  intros url r. subst r. unfold netinfo.GetIPInfo. fold url.
  unfold bind, ret.
  pose proof (doWith_trace json_Marshal (netinfo.client n) ctx "GET" url None
                (CreateHeaders (netinfo.apiKey n)) s) as Htr.
  fold (Client_Get (netinfo.client n) ctx url
          (CreateHeaders (netinfo.apiKey n))) in Htr.
  destruct (Client_Get (netinfo.client n) ctx url
              (CreateHeaders (netinfo.apiKey n)) s) as [[e|resp] s1];
    cbn [snd] in Htr.
  - destruct (netinfo.emitError n _ s1) as [[] s2] eqn:He.
    pose proof (netinfo_emitError_trace n
                  (Errorf_w "failed to fetch ip info: " (Some e)) s1) as Hn.
    rewrite He in Hn. cbn [fst snd] in *. rewrite Hn, Htr, <- List.app_assoc.
    split; [by destruct (netinfo.errorHandler n)|].
    intros info. split; [done|]. by intros (? & ? & [=] & _).
  - destruct (decide (StatusCode resp = 200)) as [Hc|Hc].
    + destruct (json_Unmarshal_IPInfo (Body resp)) as [e|info'] eqn:Hu.
      * destruct (netinfo.emitError n _ s1) as [[] s2] eqn:He.
        pose proof (netinfo_emitError_trace n
                      (Errorf_w "failed to unmarshal response: " (Some e)) s1)
          as Hn.
        rewrite He in Hn. cbn [fst snd] in *. rewrite Hn, Htr, <- List.app_assoc.
        split; [by destruct (netinfo.errorHandler n)|].
        intros info. split; [done|].
        intros (? & ? & [= <- <-] & _ & Hu'). congruence.
      * cbn [fst snd]. split; [done|].
        intros info. split.
        -- intros [= <-]. by eexists _, _.
        -- intros (? & ? & [= <- <-] & _ & Hu'). congruence.
    + destruct (netinfo.emitError n _ s1) as [[] s2] eqn:He.
      match type of He with netinfo.emitError n ?e s1 = _ =>
        pose proof (netinfo_emitError_trace n e s1) as Hn end.
      rewrite He in Hn. cbn [fst snd] in *. rewrite Hn, Htr, <- List.app_assoc.
      split; [by destruct (netinfo.errorHandler n)|].
      intros info. split; [done|].
      by intros (? & ? & [= <- <-] & ? & _).
Qed.

(** X19: [GetIPInfos] refuses an empty list of addresses before it calls
    anyone: it returns its error, tells the error handler, and makes no HTTP
    call.  For a list that is not empty it makes one POST call, for the base
    URI without a trailing slash followed by /ip, and tells the error
    handler exactly the error it returns.  It returns data exactly when the
    list is not empty and the call was answered with status 200 and a body
    that decodes. *)
Theorem GetIPInfos_rejects_empty_list (n : netinfo.NetInfo)
    (ctx : context_Context) (ips : list string) (s : Sys) :
  let url := strings.TrimSuffix (netinfo.baseURI n) "/" +:+ "/ip" in
  let r := netinfo.GetIPInfos json_Unmarshal_IPInfos json_Marshal_strings
             n ctx ips s in
  (ips = [] →
   r.1 = inl (errorString "the provided IPs array is invalid. It should be a non-empty array of strings")
   ∧ requests (trace r.2) = requests (trace s)
   ∧ (netinfo.errorHandler n = None → r.2 = s))
  ∧ trace r.2
    = trace s ++ (if decide (ips = []) then [] else [Requested "POST" url])
              ++ match r.1, netinfo.errorHandler n with
                 | inl err, Some _ => [Notified err]
                 | _, _ => []
                 end
  ∧ (∀ data, r.1 = inr data
       ↔ ips ≠ []
         ∧ ∃ resp s', Client_PostWith json_Marshal_strings (netinfo.client n)
                        ctx url ips (CreateHeaders (netinfo.apiKey n)) s
                      = (inr resp, s')
                      ∧ StatusCode resp = 200
                      ∧ json_Unmarshal_IPInfos (Body resp) = inr data).
Proof.
  intros url r. subst r. unfold netinfo.GetIPInfos. fold url.
  destruct (decide (length ips = 0%nat)) as [Hl|Hl].
  { apply nil_length_inv in Hl. subst ips. rewrite decide_True by done.
    unfold bind, ret.
    destruct (netinfo.emitError n _ s) as [[] s2] eqn:He.
    match type of He with netinfo.emitError n ?e s = _ =>
      pose proof (netinfo_emitError_trace n e s) as Hn end.
    rewrite He in Hn. cbn [fst snd] in *. rewrite Hn.
    split; [|split].
    - intros _. split; [done|]. split.
      + rewrite requests_app.
        destruct (netinfo.errorHandler n); cbn; by rewrite app_nil_r.
      + intros Hh. unfold netinfo.emitError in He. rewrite Hh in He.
        by injection He as <-.
    - by destruct (netinfo.errorHandler n).
    - intros data. split; [done|]. by intros [? _]. }
  assert (ips ≠ []) as Hne by (by intros ->).
  rewrite decide_False by done. split; [done|].
  unfold bind, ret.
  pose proof (doWith_trace json_Marshal_strings (netinfo.client n) ctx "POST"
                url (Some ips) (CreateHeaders (netinfo.apiKey n)) s) as Htr.
  fold (Client_PostWith json_Marshal_strings (netinfo.client n) ctx url ips
          (CreateHeaders (netinfo.apiKey n))) in Htr.
  destruct (Client_PostWith json_Marshal_strings (netinfo.client n) ctx url ips
              (CreateHeaders (netinfo.apiKey n)) s) as [[e|resp] s1];
    cbn [snd] in Htr.
  - destruct (netinfo.emitError n _ s1) as [[] s2] eqn:He.
    match type of He with netinfo.emitError n ?e s1 = _ =>
      pose proof (netinfo_emitError_trace n e s1) as Hn end.
    rewrite He in Hn. cbn [fst snd] in *. rewrite Hn, Htr, <- List.app_assoc.
    split; [by destruct (netinfo.errorHandler n)|].
    intros data. split; [done|]. by intros (_ & ? & ? & [=] & _).
  - destruct (decide (StatusCode resp = 200)) as [Hc|Hc].
    + destruct (json_Unmarshal_IPInfos (Body resp)) as [e|data'] eqn:Hu.
      * destruct (netinfo.emitError n _ s1) as [[] s2] eqn:He.
        match type of He with netinfo.emitError n ?e s1 = _ =>
          pose proof (netinfo_emitError_trace n e s1) as Hn end.
        rewrite He in Hn. cbn [fst snd] in *. rewrite Hn, Htr, <- List.app_assoc.
        split; [by destruct (netinfo.errorHandler n)|].
        intros data. split; [done|].
        intros (_ & ? & ? & [= <- <-] & _ & Hu'). congruence.
      * cbn [fst snd]. rewrite Htr, app_nil_r. split; [done|].
        intros data. split.
        -- intros [= <-]. split; [done|]. by eexists _, _.
        -- intros (_ & ? & ? & [= <- <-] & _ & Hu'). congruence.
    + destruct (netinfo.emitError n _ s1) as [[] s2] eqn:He.
      match type of He with netinfo.emitError n ?e s1 = _ =>
        pose proof (netinfo_emitError_trace n e s1) as Hn end.
      rewrite He in Hn. cbn [fst snd] in *. rewrite Hn, Htr, <- List.app_assoc.
      split; [by destruct (netinfo.errorHandler n)|].
      intros data. split; [done|].
      by intros (_ & ? & ? & [= <- <-] & ? & _).
Qed.

End Codecs.
End NetInfoProperties.

(** ** The Link client *)

Lemma drop_app_ge s t k :
  strings.drop (String.length s + k) (s +:+ t) = strings.drop k t.
Proof. induction s as [|c s IH]; [done|]. apply IH. Qed.

Lemma HasSuffix_app_r s t suffix :
  (String.length suffix ≤ String.length t)%nat →
  strings.HasSuffix (s +:+ t) suffix = strings.HasSuffix t suffix.
Proof.
  intros Hl. unfold strings.HasSuffix. rewrite app_length.
  replace (String.length s + String.length t - String.length suffix)%nat
    with (String.length s + (String.length t - String.length suffix))%nat
    by lia.
  rewrite drop_app_ge.
  rewrite (bool_decide_eq_true_2 (_ ≤ String.length s + _)%nat) by lia.
  by rewrite (bool_decide_eq_true_2 (_ ≤ String.length t)%nat) by lia.
Qed.

Lemma HasSuffix_inv s suffix :
  strings.HasSuffix s suffix = true →
  s = strings.TrimSuffix s suffix +:+ suffix.
Proof.
  intros H. unfold strings.TrimSuffix. rewrite H.
  unfold strings.HasSuffix in H.
  apply andb_true_iff in H as [_ H%bool_decide_eq_true].
  set (n := (String.length s - String.length suffix)%nat) in *.
  rewrite <- H. symmetry. apply take_drop.
Qed.

Lemma stands_for_start base : stands_for base (strings.TrimSuffix base "/").
Proof.
  destruct (strings.HasSuffix base "/") eqn:H.
  - left. by apply HasSuffix_inv.
  - right. unfold strings.TrimSuffix. by rewrite H.
Qed.

Lemma stands_for_appendPrefix uri x prefix :
  stands_for uri x →
  strings.HasSuffix prefix "/" = false →
  stands_for (link.appendPrefix uri prefix) (x +:+ segment prefix).
Proof.
  intros Hrep Hclean. unfold link.appendPrefix, segment.
  destruct (decide (prefix = "")) as [->|Hne]; [by rewrite app_empty_r|].
  destruct Hrep as [->|[-> Hx]].
  - rewrite HasSuffix_app. left. by rewrite !app_assoc.
  - rewrite Hx. right. split; [done|].
    rewrite HasSuffix_app_r; [|destruct prefix; simpl; [done|lia]].
    rewrite HasSuffix_app_r; [done|destruct prefix; simpl; [done|lia]].
Qed.

Lemma stands_for_end uri x : stands_for uri x → strings.TrimSuffix uri "/" = x.
Proof.
  intros [->|[-> Hx]]; [apply TrimSuffix_app|].
  unfold strings.TrimSuffix. by rewrite Hx.
Qed.

Section LinkProperties.
Context `{RT : Runtime}.

Lemma link_New_eq (options : list link.Option) (s : Sys) :
  let opts := link.applyOptions options in
  let key := if decide (link.APIKey opts = "")
             then os_Getenv "HYPHEN_API_KEY" (world s)
             else link.APIKey opts in
  link.New options s
  = (if strings.HasPrefix key "public_"
     then inl (errorString ("API key cannot start with " +:+ link.quote
                            +:+ "public_" +:+ link.quote))
     else inr {| link.uris := if decide (link.URIs opts = [])
                              then link.defaultLinkURIs
                              else link.URIs opts;
                 link.organizationID :=
                   if decide (link.OrganizationID opts = "")
                   then os_Getenv "HYPHEN_ORGANIZATION_ID" (world s)
                   else link.OrganizationID opts;
                 link.apiKey := key;
                 link.client := NewClient "";
                 link.errorHandler := None |}, s).
Proof.
  intros opts key. subst key. unfold link.New, bind, ret, readWorld.
  fold opts.
  assert ((if decide (length (link.URIs opts) = 0%nat)
           then link.defaultLinkURIs else link.URIs opts)
          = (if decide (link.URIs opts = [])
             then link.defaultLinkURIs else link.URIs opts)) as ->.
  { destruct (link.URIs opts); by repeat case_decide. }
  destruct (decide (link.APIKey opts = "")) as [Ha|Ha];
    match goal with |- context [bool_decide (?k = "")] =>
      destruct (decide (k = "")) as [Hk|Hk];
      [rewrite Hk|rewrite (bool_decide_eq_false_2 _ Hk)];
      cbn [negb andb]; [|destruct (strings.HasPrefix k "public_")]
    end; try done;
    by destruct (decide (link.OrganizationID opts = "")).
Qed.

(** X20: [link.New] fails exactly when the API key, taken from the option or
    else from HYPHEN_API_KEY, starts with "public_"; other than
    [netinfo.New] it accepts an empty key.  It changes nothing.  The client
    it returns has that key, the organization id of the option or else of
    HYPHEN_ORGANIZATION_ID, and at least one URI (the default one unless
    URIs are configured), so that [getURI] never panics on it. *)
Theorem link_New_rejects_public_key (options : list link.Option) (s : Sys) :
  let opts := link.applyOptions options in
  let key := if decide (link.APIKey opts = "")
             then os_Getenv "HYPHEN_API_KEY" (world s)
             else link.APIKey opts in
  let r := link.New options s in
  r.2 = s
  ∧ ((∃ err, r.1 = inl err) ↔ strings.HasPrefix key "public_" = true)
  ∧ (key = "" → ∃ l, r.1 = inr l)
  ∧ (∀ l, r.1 = inr l →
       link.apiKey l = key
       ∧ link.organizationID l
         = (if decide (link.OrganizationID opts = "")
            then os_Getenv "HYPHEN_ORGANIZATION_ID" (world s)
            else link.OrganizationID opts)
       ∧ link.uris l = (if decide (link.URIs opts = [])
                        then link.defaultLinkURIs else link.URIs opts)
       ∧ link.uris l ≠ []
       ∧ link.client l = NewClient ""
       ∧ link.errorHandler l = None
       ∧ ∀ prefix1 prefix2 prefix3,
           ∃ res, link.getURI l prefix1 prefix2 prefix3 = Returned res).
Proof.
  intros opts key r. subst r. rewrite link_New_eq. fold opts. fold key.
  cbn [fst snd]. split; [done|].
  destruct (strings.HasPrefix key "public_") eqn:Hp.
  { split; [split; [done|by eexists]|]. split; [|done].
    intros Hk. by rewrite Hk in Hp. }
  split; [split; [by intros [? ?]|done]|]. split; [by eexists|].
  intros l [= <-]. cbn. repeat split.
  - by destruct (decide (link.URIs opts = [])).
  - intros p1 p2 p3. unfold link.getURI. cbn.
    match goal with |- context [if decide (?o = "") then Returned _ else _] =>
      destruct (decide (o = "")) end; [by eexists|].
    destruct (decide (link.URIs opts = [])) as [He|He]; [by eexists|].
    destruct (link.URIs opts); [done|by eexists].
Qed.

(** X21: [getURI] asks for the organization id before anything else.  With
    one, it panics exactly when the client has no URI. *)
Theorem getURI_needs_organization (l : link.Link)
    (prefix1 prefix2 prefix3 : string) :
  (link.organizationID l = "" →
   link.getURI l prefix1 prefix2 prefix3
   = Returned (inl (errorString "organization ID is required")))
  ∧ (link.organizationID l ≠ "" →
     ((∃ msg, link.getURI l prefix1 prefix2 prefix3 = Panicked msg)
      ↔ link.uris l = [])
     ∧ ∀ err, link.getURI l prefix1 prefix2 prefix3 ≠ Returned (inl err)).
Proof.
  unfold link.getURI. split.
  - intros H. by rewrite decide_True.
  - intros H. rewrite decide_False by done.
    destruct (link.uris l); split; try done.
    + split; [done|by eexists].
    + split; [by intros [? ?]|done].
Qed.

(** X22: the URI [getURI] returns is the first configured URI with the
    organization id in the place of the first {organizationId} and without
    one trailing slash, followed by a slash and the prefix for each prefix
    that is not empty (given that no prefix ends with a slash). *)
Theorem getURI_path (l : link.Link) (uri0 : string) (rest : list string)
    (prefix1 prefix2 prefix3 : string) :
  link.organizationID l ≠ "" →
  link.uris l = uri0 :: rest →
  strings.HasSuffix prefix1 "/" = false →
  strings.HasSuffix prefix2 "/" = false →
  strings.HasSuffix prefix3 "/" = false →
  link.getURI l prefix1 prefix2 prefix3
  = Returned (inr (strings.TrimSuffix
                     (strings_Replace1 uri0 "{organizationId}"
                        (link.organizationID l)) "/"
                   +:+ segment prefix1 +:+ segment prefix2
                   +:+ segment prefix3)).
Proof.
  intros Horg Huris H1 H2 H3. unfold link.getURI.
  rewrite decide_False by done. rewrite Huris. do 2 f_equal.
  apply stands_for_end. rewrite <- !app_assoc.
  by repeat apply stands_for_appendPrefix; [apply stands_for_start|..].
Qed.

Lemma link_emitError_trace (l : link.Link) err s :
  trace (link.emitError l err s).2
  = trace s ++ match link.errorHandler l with
               | Some _ => [Notified err]
               | None => []
               end.
Proof.
  unfold link.emitError. destruct (link.errorHandler l); [done|].
  cbn. by rewrite app_nil_r.
Qed.

Lemma deleteAt_contract (l : link.Link) ctx uri what s :
  delete_contract l ctx uri s (link.deleteAt l ctx (Returned (inr uri)) what s).
Proof.
  unfold delete_contract, link.deleteAt, bind, ret.
  pose proof (doWith_trace json_Marshal (link.client l) ctx "DELETE" uri None
                (CreateHeaders (link.apiKey l)) s) as Htr.
  fold (Client_Delete (link.client l) ctx uri
          (CreateHeaders (link.apiKey l))) in Htr.
  destruct (Client_Delete (link.client l) ctx uri
              (CreateHeaders (link.apiKey l)) s) as [[e|resp] s1];
    cbn [snd] in Htr.
  - destruct (link.emitError l _ s1) as [[] s2] eqn:He.
    match type of He with link.emitError l ?e s1 = _ =>
      pose proof (link_emitError_trace l e s1) as Hn end.
    rewrite He in Hn. cbn [fst snd] in *. rewrite Hn, Htr, <- List.app_assoc.
    split; [by destruct (link.errorHandler l)|]. split; [by eexists|].
    split; [done|]. by intros (? & ? & [=] & _).
  - destruct (decide (StatusCode resp = 204)) as [Hc|Hc].
    + cbn [fst snd]. rewrite Htr.
      split; [done|]. split; [by eexists|]. split; [|done].
      intros _. by eexists _, _.
    + destruct (link.emitError l _ s1) as [[] s2] eqn:He.
      match type of He with link.emitError l ?e s1 = _ =>
        pose proof (link_emitError_trace l e s1) as Hn end.
      rewrite He in Hn. cbn [fst snd] in *. rewrite Hn, Htr, <- List.app_assoc.
      split; [by destruct (link.errorHandler l)|]. split; [by eexists|].
      split; [done|]. by intros (? & ? & [= <- <-] & ?).
Qed.

(** X23: [DeleteShortCode] and [DeleteQRCode] give up before any HTTP call
    when the client has no organization id, with the error of [getURI].
    Otherwise each makes one DELETE call, for the URI [getURI] returns for
    the code (and "qrs" and the QR code id), tells the error handler the
    error it returns, and returns no error exactly when the answer has
    status 204. *)
Theorem delete_succeeds_on_204_only (l : link.Link) (ctx : context_Context)
    (code qrID : string) (s : Sys) :
  (link.organizationID l = "" →
   (link.DeleteShortCode l ctx code s).1
   = Returned (Some (errorString "organization ID is required"))
   ∧ (link.DeleteQRCode l ctx code qrID s).1
     = Returned (Some (errorString "organization ID is required"))
   ∧ requests (trace (link.DeleteShortCode l ctx code s).2)
     = requests (trace s)
   ∧ requests (trace (link.DeleteQRCode l ctx code qrID s).2)
     = requests (trace s))
  ∧ (∀ uri, link.getURI l code "" "" = Returned (inr uri) →
       delete_contract l ctx uri s (link.DeleteShortCode l ctx code s))
  ∧ (∀ uri, link.getURI l code "qrs" qrID = Returned (inr uri) →
       delete_contract l ctx uri s (link.DeleteQRCode l ctx code qrID s)).
Proof.
  unfold link.DeleteShortCode, link.DeleteQRCode. split; [|split].
  - intros Horg. unfold link.getURI. rewrite !decide_True by done.
    unfold link.deleteAt, bind, ret.
    destruct (link.emitError l _ s) as [[] s2] eqn:He.
    match type of He with link.emitError l ?e s = _ =>
      pose proof (link_emitError_trace l e s) as Hn end.
    rewrite He in Hn. cbn [fst snd] in *. rewrite Hn, requests_app.
    repeat split; destruct (link.errorHandler l); cbn; by rewrite app_nil_r.
  - intros uri ->. apply deleteAt_contract.
  - intros uri ->. apply deleteAt_contract.
Qed.

End LinkProperties.

Section LinkDefaults.
Context `{RT : Runtime}.

(** X24: a client made without URIs addresses the short code [code] of its
    organization at
    https://api.hyphen.ai/api/organizations/<organization id>/link/codes/<code>. *)
Theorem default_link_URI (options : list link.Option) (s : Sys)
    (l : link.Link) (code : string) :
  (link.New options s).1 = inr l →
  link.URIs (link.applyOptions options) = [] →
  link.organizationID l ≠ "" →
  code ≠ "" →
  strings.HasSuffix code "/" = false →
  link.getURI l code "" ""
  = Returned (inr ("https://api.hyphen.ai/api/organizations/"
                   +:+ link.organizationID l +:+ "/link/codes/" +:+ code)).
Proof.
  intros HNew Huris Horg Hcode Hclean.
  assert (link.uris l = link.defaultLinkURIs) as Hu.
  { rewrite link_New_eq in HNew. cbn [fst] in HNew. rewrite Huris in HNew.
    destruct (strings.HasPrefix _ "public_"); [done|].
    by injection HNew as <-. }
  unfold link.getURI. rewrite decide_False by done. rewrite Hu.
  cbn [link.defaultLinkURIs].
  assert (strings_Replace1
            "https://api.hyphen.ai/api/organizations/{organizationId}/link/codes/"
            "{organizationId}" (link.organizationID l)
          = ("https://api.hyphen.ai/api/organizations/"
             +:+ link.organizationID l +:+ "/link/codes") +:+ "/") as ->.
  { generalize (link.organizationID l). intros org.
    rewrite !app_assoc. vm_compute. reflexivity. }
  unfold link.appendPrefix. rewrite (decide_False _ _ Hcode).
  rewrite !(decide_True _ _ eq_refl), HasSuffix_app.
  rewrite <- app_assoc, TrimSuffix_app. by rewrite !app_assoc.
Qed.

End LinkDefaults.

Lemma default_link_URI_witness :
  @link.getURI scripted
    {| link.uris := link.defaultLinkURIs; link.organizationID := "theOrgId";
       link.apiKey := "theApiKey"; link.client := NewClient "";
       link.errorHandler := None |} "theCode" "" ""
  = Returned (inr "https://api.hyphen.ai/api/organizations/theOrgId/link/codes/theCode").
Proof.
  apply (@default_link_URI scripted
           [link.WithAPIKey "theApiKey"; link.WithOrganizationID "theOrgId"]
           (startOf [])); by vm_compute.
Defined.

Lemma getURI_path_witness :
  link.getURI exampleLink "theCode" "qrs" "theQrId"
  = Returned (inr "https://api.test.com/theOrgId/codes/theCode/qrs/theQrId")
  ∧ link.getURI exampleLink "" "" ""
    = Returned (inr "https://api.test.com/theOrgId/codes").
Proof.
  split.
  - rewrite (@getURI_path scripted exampleLink
               "https://api.test.com/{organizationId}/codes/" []
               "theCode" "qrs" "theQrId"); by vm_compute.
  - rewrite (@getURI_path scripted exampleLink
               "https://api.test.com/{organizationId}/codes/" [] "" "" "");
      by vm_compute.
Defined.

(** ** The SDK's entry points *)

Lemma toggleOptions_applied (opts : hyphen.Options) :
  toggle.applyOptions (hyphen.toggleOptions opts)
  = {| PublicAPIKey := hyphen.PublicAPIKey opts;
       ApplicationID := hyphen.ApplicationID opts;
       Environment := hyphen.Environment opts;
       DefaultContext := hyphen.DefaultContext opts;
       HorizonURLs := hyphen.HorizonURLs opts;
       DefaultTargetingKey := hyphen.DefaultTargetingKey opts |}.
Proof.
  destruct opts as [a pk app env dctx urls dkey nb org luris].
  unfold hyphen.toggleOptions, applyOptions. cbn [hyphen.PublicAPIKey
    hyphen.ApplicationID hyphen.Environment hyphen.DefaultContext
    hyphen.HorizonURLs hyphen.DefaultTargetingKey].
  destruct (decide (pk = "")) as [->|?], (decide (app = "")) as [->|?],
    (decide (env = "")) as [->|?], dctx, urls as [|u urls],
    (decide (dkey = "")) as [->|?]; cbn; try done;
    try (rewrite decide_True by lia; done).
Qed.

Lemma netinfoOptions_applied (opts : hyphen.Options) :
  netinfo.applyOptions (hyphen.netinfoOptions opts)
  = {| netinfo.APIKey := hyphen.APIKey opts;
       netinfo.BaseURI := hyphen.NetInfoBaseURI opts |}.
Proof.
  destruct opts as [a pk app env dctx urls dkey nb org luris].
  unfold hyphen.netinfoOptions, netinfo.applyOptions.
  cbn [hyphen.APIKey hyphen.NetInfoBaseURI].
  by destruct (decide (a = "")) as [->|?], (decide (nb = "")) as [->|?].
Qed.

Lemma linkOptions_applied (opts : hyphen.Options) :
  link.applyOptions (hyphen.linkOptions opts)
  = {| link.URIs := hyphen.LinkURIs opts;
       link.OrganizationID := hyphen.OrganizationID opts;
       link.APIKey := hyphen.APIKey opts |}.
Proof.
  destruct opts as [a pk app env dctx urls dkey nb org luris].
  unfold hyphen.linkOptions, link.applyOptions.
  cbn [hyphen.APIKey hyphen.OrganizationID hyphen.LinkURIs].
  destruct (decide (a = "")) as [->|?], (decide (org = "")) as [->|?],
    luris as [|u luris]; cbn; try done;
    try (rewrite decide_True by lia; done).
Qed.

Section HyphenProperties.
Context `{RT : Runtime}.

Lemma New_by_settings (options options' : list Option) (s : Sys) :
  applyOptions options = applyOptions options' →
  New options s = New options' s.
Proof. intros H. rewrite !New_eq. cbv zeta. by rewrite H. Qed.

(** X25: [hyphen.NewToggle] leaves out the options whose setting is empty,
    and this makes no difference: the client is the one [toggle.New] makes
    when it is given all six settings. *)
Theorem NewToggle_forwards_settings (options : list hyphen.Option) (s : Sys) :
  let opts := hyphen.applyOptions options in
  hyphen.NewToggle options s
  = toggle.New [WithPublicAPIKey (hyphen.PublicAPIKey opts);
                WithApplicationID (hyphen.ApplicationID opts);
                WithEnvironment (hyphen.Environment opts);
                WithDefaultContext (hyphen.DefaultContext opts);
                WithHorizonURLs (hyphen.HorizonURLs opts);
                WithDefaultTargetingKey (hyphen.DefaultTargetingKey opts)] s.
Proof.
  intros opts. unfold hyphen.NewToggle. fold opts.
  apply New_by_settings. by rewrite toggleOptions_applied.
Qed.

Lemma netinfo_New_eq (options : list netinfo.Option) (s : Sys) :
  let opts := netinfo.applyOptions options in
  let key := if decide (netinfo.APIKey opts = "")
             then os_Getenv "HYPHEN_API_KEY" (world s)
             else netinfo.APIKey opts in
  let baseURI_ := if decide (netinfo.BaseURI opts = "") then "https://net.info"
                  else netinfo.BaseURI opts in
  netinfo.New options s
  = (if decide (key = "") then
       inl (errorString "API key is required. Please provide it via options or set the HYPHEN_API_KEY environment variable")
     else if strings.HasPrefix key "public_" then
       inl (errorString "the provided API key is a public API key. Please provide a valid non-public API key for authentication")
     else inr {| netinfo.apiKey := key; netinfo.baseURI := baseURI_;
                 netinfo.client := NewClient baseURI_;
                 netinfo.errorHandler := None |}, s).
Proof.
  intros opts key baseURI_. subst key baseURI_.
  unfold netinfo.New, bind, ret, readWorld. fold opts.
  destruct (decide (netinfo.APIKey opts = "")) as [Ha|Ha];
    match goal with |- context [decide (?k = "")] =>
      destruct (decide (k = "")) as [Hk|Hk];
      [|destruct (strings.HasPrefix k "public_")]
    end; done.
Qed.

Lemma New_trace (options : list Option) (s : Sys) :
  trace (New options s).2 = trace s.
Proof.
  rewrite New_eq. cbv zeta. cbn [snd].
  destruct (decide (DefaultTargetingKey _ = "")); [|done].
  destruct (DefaultContext _).
  - apply getTargetingKey_trace.
  - by rewrite generateTargetKey_eq.
Qed.

Lemma hyphen_New_eq (options : list hyphen.Option) (s : Sys) :
  let opts := hyphen.applyOptions options in
  let toggled : option Toggle * Sys :=
    if decide (hyphen.PublicAPIKey opts = "") then (None, s)
    else (Some (hyphen.NewToggle options s).1.1,
          (hyphen.NewToggle options s).2) in
  hyphen.New options s
  = (inr {| hyphen.ClientToggle := toggled.1;
            hyphen.ClientNetInfo :=
              if decide (hyphen.APIKey opts = "") then None
              else match (netinfo.New (hyphen.netinfoOptions opts)
                            toggled.2).1 with
                   | inr n => Some n
                   | inl _ => None
                   end;
            hyphen.ClientLink :=
              if decide (hyphen.APIKey opts = "") then None
              else match (link.New (hyphen.linkOptions opts) toggled.2).1 with
                   | inr l => Some l
                   | inl _ => None
                   end;
            hyphen.options := opts |}, toggled.2).
Proof.
  intros opts toggled. subst toggled.
  unfold hyphen.New, hyphen.NewNetInfo, hyphen.NewLink. fold opts.
  unfold bind, ret.
  assert (∀ s1, (netinfo.New (hyphen.netinfoOptions opts) s1).2 = s1) as Hn.
  { intros s1. by rewrite netinfo_New_eq. }
  assert (∀ s1, (link.New (hyphen.linkOptions opts) s1).2 = s1) as Hl.
  { intros s1. by rewrite link_New_eq. }
  destruct (decide (hyphen.PublicAPIKey opts = "")) as [Hp|Hp]; cbn [fst snd].
  - destruct (decide (hyphen.APIKey opts = "")) as [Ha|Ha]; [done|].
    specialize (Hn s). specialize (Hl s).
    destruct (netinfo.New (hyphen.netinfoOptions opts) s) as [rn sn].
    cbn [fst snd] in *. subst sn.
    destruct rn;
      (destruct (link.New (hyphen.linkOptions opts) s) as [rl sl];
       cbn [fst snd] in *; subst sl; by destruct rl).
  - unfold hyphen.NewToggle. fold opts.
    pose proof (New_eq (hyphen.toggleOptions opts) s) as HN. cbv zeta in HN.
    destruct (New (hyphen.toggleOptions opts) s) as [[t err] s1].
    injection HN as Ht -> Hs1. clear Ht Hs1. cbn [fst snd].
    destruct (decide (hyphen.APIKey opts = "")) as [Ha|Ha]; [done|].
    specialize (Hn s1). specialize (Hl s1).
    destruct (netinfo.New (hyphen.netinfoOptions opts) s1) as [rn sn].
    cbn [fst snd] in *. subst sn.
    destruct rn;
      (destruct (link.New (hyphen.linkOptions opts) s1) as [rl sl];
       cbn [fst snd] in *; subst sl; by destruct rl).
Qed.

(** X26: [hyphen.New] never fails.  The client has a toggle service exactly
    when a public API key is given as an option, and a NetInfo and a Link
    service exactly when an API key is given as an option that does not
    start with "public_": the keys of the process environment do not bring
    a service about, and a refused API key is not reported.  The services
    hold the settings of the options. *)
Theorem hyphen_New_services (options : list hyphen.Option) (s : Sys) :
  let opts := hyphen.applyOptions options in
  let r := hyphen.New options s in
  ∃ c, r.1 = inr c
       ∧ hyphen.options c = opts
       ∧ hyphen.ClientToggle c
         = (if decide (hyphen.PublicAPIKey opts = "") then None
            else Some (hyphen.NewToggle options s).1.1)
       ∧ (is_Some (hyphen.ClientNetInfo c)
          ↔ hyphen.APIKey opts ≠ ""
            ∧ strings.HasPrefix (hyphen.APIKey opts) "public_" = false)
       ∧ (is_Some (hyphen.ClientLink c)
          ↔ hyphen.APIKey opts ≠ ""
            ∧ strings.HasPrefix (hyphen.APIKey opts) "public_" = false)
       ∧ (∀ n, hyphen.ClientNetInfo c = Some n →
            netinfo.apiKey n = hyphen.APIKey opts
            ∧ netinfo.baseURI n
              = (if decide (hyphen.NetInfoBaseURI opts = "")
                 then "https://net.info" else hyphen.NetInfoBaseURI opts))
       ∧ (∀ l, hyphen.ClientLink c = Some l →
            link.apiKey l = hyphen.APIKey opts
            ∧ link.uris l = (if decide (hyphen.LinkURIs opts = [])
                             then link.defaultLinkURIs
                             else hyphen.LinkURIs opts)
            ∧ link.organizationID l
              = (if decide (hyphen.OrganizationID opts = "")
                 then os_Getenv "HYPHEN_ORGANIZATION_ID" (world r.2)
                 else hyphen.OrganizationID opts))
       ∧ trace r.2 = trace s
       ∧ (hyphen.PublicAPIKey opts = "" → r.2 = s).
Proof.
  intros opts r. subst r. rewrite hyphen_New_eq. fold opts. cbv zeta.
  eexists. split; [done|]. cbn [fst snd hyphen.options hyphen.ClientToggle
    hyphen.ClientNetInfo hyphen.ClientLink].
  split; [done|]. split; [by case_decide|].
  set (s1 := (if decide (hyphen.PublicAPIKey opts = "") then (None, s)
              else (Some (hyphen.NewToggle options s).1.1,
                    (hyphen.NewToggle options s).2)).2).
  rewrite netinfo_New_eq, link_New_eq. cbv zeta. cbn [fst snd].
  rewrite netinfoOptions_applied, linkOptions_applied.
  cbn [netinfo.APIKey netinfo.BaseURI link.APIKey link.URIs
       link.OrganizationID].
  assert (trace s1 = trace s) as Htr.
  { subst s1. case_decide; [done|]. apply New_trace. }
  assert (hyphen.PublicAPIKey opts = "" → s1 = s) as Hs.
  { intros H. subst s1. by rewrite decide_True. }
  destruct (decide (hyphen.APIKey opts = "")) as [Ha|Ha].
  { repeat split; try done; try (by intros [? ?]); try (by intros [? _]). }
  rewrite (decide_False _ _ Ha).
  destruct (strings.HasPrefix (hyphen.APIKey opts) "public_") eqn:Hpub.
  { repeat split; try done; try (by intros [? ?]); try (by intros [_ ?]). }
  repeat split; try done; try (by eexists);
    match goal with H : Some _ = Some _ |- _ => by injection H as <- end.
Qed.

End HyphenProperties.

(** ** Examples for the further properties *)

Lemma Get_without_endpoints_witness :
  (@Get scripted zeroToggle 0%nat "any-key" (VBool true) None (startOf [])).1
  = (VBool true,
     Some (wrapError "all horizon URLs failed. Last error: %!w(<nil>)" None)).
Proof.
  destruct (@Get_without_endpoints scripted zeroToggle 0%nat "any-key"
              (VBool true) None (startOf [])) as (H & _); [by vm_compute|].
  exact H.
Defined.

Lemma generated_keys_differ_witness :
  (@generateTargetKey counting "app" "env" (@Build_Sys counting 1 [])).1
  ≠ (@generateTargetKey counting "app" "env" (@Build_Sys counting 2 [])).1.
Proof.
  apply (@generated_keys_differ counting "app" "env"
           (@Build_Sys counting 1 []) (@Build_Sys counting 2 [])).
  by vm_compute.
Defined.

Lemma last_transport_error_shows_in_returned_error_witness :
  ∃ agg,
    (@Get scripted exampleToggle 0%nat "feature-flag" (VBool false) None
       (startOf [canceledReply; canceledReply])).1
    = (VBool false, Some agg)
    ∧ errors_Is agg context_Canceled = true.
Proof.
  apply (@last_transport_error_shows_in_returned_error scripted exampleToggle
           0%nat "feature-flag" (VBool false) None
           (startOf [canceledReply; canceledReply]) exampleRequest
           (startOf [canceledReply; canceledReply])
           [primaryURL] secondaryURL
           (afterRequests [canceledReply] [evaluateURL primaryURL])
           (Some (requestFailed primaryURL cancelled)) cancelled
           (afterRequests [] [evaluateURL primaryURL; evaluateURL secondaryURL])
           context_Canceled).
  - by vm_compute.
  - by vm_compute.
  - eapply FailsThrough_cons; [|apply FailsThrough_nil].
    apply (TransportFailure _ _ _ _ primaryURL
             (startOf [canceledReply; canceledReply]) cancelled
             (afterRequests [canceledReply] [evaluateURL primaryURL])).
    by vm_compute.
  - by vm_compute.
  - by vm_compute.
Defined.
